(** * PostPilot GUI test engine: step executor and flow runner

    A shallow embedding of the declarative test-flow engine of PostPilot
    ([src/testing/actions.ts], [src/testing/runner.ts], [src/browser.ts],
    [src/config.ts]) and the properties of its design document that can be
    settled on it.

    The engine is asynchronous glue around a browser driver (Puppeteer), the
    file system, a SQLite log and the console.  Every call that leaves the
    engine is a [Call]; a [Runtime] decides, for each call, whether it returns
    or throws and how the outside world (including the wall clock) moves.  The
    engine's own code is written in a state-and-exception monad over that
    runtime, so that theorems hold for every behaviour of the collaborators.
    Awaited promises are run to completion one after the other (the engine
    never has two of them in flight), so [await] is sequencing.

    Modelling choices: numbers are integers (timeouts, durations and counts
    of a JSON flow file); strings are sequences of code units, one [ascii] per
    unit, and what a string's iterator yields (its code points) is a built-in
    of the runtime; a thrown value is an [Error] object or a string; the wall
    clock belongs to the outside world and moves only while a call is in
    flight.  An inline flow has the type the compiler checked; the value read
    from a flow file is whatever [JSON.parse] gave, and may be [null] or lack
    its [steps]. *)

From Stdlib Require Import ZArith List String Ascii Bool Lia DecimalString.
Import ListNotations.
Open Scope string_scope.
Open Scope Z_scope.

(* ================================================================== *)
(** * JavaScript values and built-ins used by the engine *)
(* ================================================================== *)

Module Js.

(** Strings are sequences of code units; one [ascii] stands for one unit. *)

(** The double-quote character, as a string. *)
Definition dquote : string := String (Ascii.ascii_of_nat 34) EmptyString.

(** [s.startsWith(p)] *)
Definition startsWith (s p : string) : bool := String.prefix p s.

(** [s.includes(sub)] *)
Fixpoint includes (s sub : string) : bool :=
  String.prefix sub s ||
  match s with
  | EmptyString => false
  | String _ s' => includes s' sub
  end.

(** [s.slice(b, e)] for non-negative integer bounds. *)
Definition slice (s : string) (b e : nat) : string :=
  String.substring b (e - b) s.

(** [s.slice(b)] for a non-negative integer bound. *)
Definition slice_from (s : string) (b : nat) : string :=
  String.substring b (String.length s - b) s.

(** [s.replace(/[:.]/g, '-')] *)
Fixpoint replace_colon_dot (s : string) : string :=
  match s with
  | EmptyString => EmptyString
  | String c s' =>
      String (if (Ascii.eqb c ":" || Ascii.eqb c ".")%char then "-"%char else c)
             (replace_colon_dot s')
  end.

(** Truthiness of a string and of a number (integers only: [NaN] cannot come
    out of a JSON flow file). *)
Definition truthy_string (s : string) : bool := negb (String.eqb s EmptyString).
Definition truthy_number (n : Z) : bool := negb (n =? 0).

(** [a || b] where [a] may be [undefined] and [b] is a plain value. *)
Definition or_else {A : Type} (truthy : A -> bool) (a : option A) (b : A) : A :=
  match a with
  | Some v => if truthy v then v else b
  | None => b
  end.

(** [a || b] where both sides may be [undefined]. *)
Definition or_opt {A : Type} (truthy : A -> bool) (a b : option A) : option A :=
  match a with
  | Some v => if truthy v then Some v else b
  | None => b
  end.

(** Thrown values: an [Error] object (with its [name] and [message]) or a
    thrown string. *)
Inductive Exn : Type :=
| ErrorObj (name message : string)
| Thrown (s : string).

(** [new Error(msg)] *)
Definition Error (msg : string) : Exn := ErrorObj "Error" msg.

(** [undefined] and [null]: reading a property of either throws. *)
Inductive Nullish : Type := Undefined | Null.

Definition nullish_name (n : Nullish) : string :=
  match n with Undefined => "undefined" | Null => "null" end.

(** The [TypeError] thrown by reading property [prop] of [undefined] or
    [null], in the wording of V8. *)
Definition TypeError_reading (n : Nullish) (prop : string) : Exn :=
  ErrorObj "TypeError"
    ("Cannot read properties of " ++ nullish_name n ++ " (reading '" ++ prop ++ "')").

(** [String(e)]: [Error.prototype.toString] for error objects. *)
Definition String_ (e : Exn) : string :=
  match e with
  | ErrorObj name msg =>
      if String.eqb name EmptyString then msg
      else if String.eqb msg EmptyString then name
      else name ++ ": " ++ msg
  | Thrown s => s
  end.

End Js.

(* ================================================================== *)
(** * Data model ([actions.ts], [reporter.ts], [runner.ts], [db.ts]) *)
(* ================================================================== *)

(** [interface TestStep]: every field optional. *)
Record TestStep : Type := mkStep {
  goto : option string;
  click : option string;
  type : option string;
  text : option string;
  waitFor : option string;
  timeout : option Z;
  screenshot : option string;
  verify : option string;
  contains : option string;
  wait : option Z;
  scroll : option string;
  hover : option string;
  select : option string;
  value : option string;
  press : option string;
  evaluate : option string
}.

(** The step object with no field set. *)
Definition emptyStep : TestStep :=
  mkStep None None None None None None None None
         None None None None None None None None.

(** [interface StepResult] *)
Record StepResult : Type := mkResult {
  step : TestStep;
  success : bool;
  duration : Z;
  error : option string;
  screenshotPath : option string
}.

(** Assignments to the fields of a result: [result.success = b] and so on. *)
Definition set_success (b : bool) (r : StepResult) : StepResult :=
  mkResult (step r) b (duration r) (error r) (screenshotPath r).
Definition set_duration (d : Z) (r : StepResult) : StepResult :=
  mkResult (step r) (success r) d (error r) (screenshotPath r).
Definition set_error (e : string) (r : StepResult) : StepResult :=
  mkResult (step r) (success r) (duration r) (Some e) (screenshotPath r).
Definition set_screenshotPath (p : string) (r : StepResult) : StepResult :=
  mkResult (step r) (success r) (duration r) (error r) (Some p).

(** [interface TestResults] *)
Record TestResults : Type := mkResults {
  name : string;
  baseUrl : string;
  steps : list StepResult;
  passed : nat;
  failed : nat;
  total : nat;
  run_duration : Z;
  screenshotDir : string
}.

(** [interface TestFlow] *)
Record TestFlow : Type := mkFlow {
  flow_name : string;
  flow_baseUrl : option string;
  flow_steps : list TestStep
}.

(** What [JSON.parse] gives for the content of a flow file.  [loadTestFlow]
    returns it unchecked, as [any], and [runTestFlow] casts it to [TestFlow]:
    nothing checks its shape.  The runner reads [baseUrl], [name] and [steps]
    of it.  The fields that are present are taken to have the types of the
    interface. *)
Inductive Parsed : Type :=
| ParsedFlow (flow : TestFlow)
    (* an object that fits the interface *)
| ParsedStepless (name baseUrl : option string) (steps : Js.Nullish)
    (* a value other than [null] whose [steps] is missing or [null] *)
| ParsedNull.
    (* [null] *)

(** [interface RunTestOptions] *)
Record RunTestOptions : Type := mkOptions {
  opt_flowPath : option string;
  opt_flow : option TestFlow;
  opt_baseUrl : option string;
  opt_screenshotDir : option string;
  opt_headless : option bool;
  opt_stopOnFailure : option bool;
  opt_jsonOutput : option bool
}.

(** [interface TestRecord] as [runTestFlow] fills it ([id] is left out). *)
Record TestRecord : Type := mkRecord {
  rec_flow_name : string;
  rec_base_url : string;
  rec_passed : nat;
  rec_failed : nat;
  rec_total : nat;
  rec_duration_ms : Z;
  rec_created_at : string
}.

(** [interface BrowserOptions] *)
Record BrowserOptions : Type := mkBrowserOptions {
  bo_headless : option bool;
  bo_slowMo : option Z;
  bo_userDataDir : option string
}.

(** Driver handles. *)
Definition Browser : Type := nat.
Definition Page : Type := nat.

(* ================================================================== *)
(** * Calls that leave the engine, and the runtime that answers them *)
(* ================================================================== *)

Inductive Call : Type :=
(* fs, JSON *)
| FsExistsSync (path : string)
| FsMkdirSync (path : string)                (* { recursive: true } *)
| FsReadFileSync (path : string)             (* 'utf-8' *)
| JsonParseFlow (content : string)           (* JSON.parse(content) *)
(* puppeteer *)
| PuppeteerLaunch (headless : bool) (slowMo : Z) (userDataDir : option string)
| BrowserNewPage (b : Browser)
| BrowserClose (b : Browser)
| PageSetUserAgent (p : Page) (ua : string)
| PageEvaluateOnNewDocument (p : Page)       (* hides navigator.webdriver *)
| PageClose (p : Page)
| PageGoto (p : Page) (url : string) (timeout : Z)  (* waitUntil: 'networkidle2' *)
| PageWaitForSelector (p : Page) (selector : string)
                      (visible : bool) (timeout : option Z)
| PageClick (p : Page) (selector : string)
| PageClearValue (p : Page) (selector : string) (* evaluate: el.value = '' *)
| PageType (p : Page) (selector : string) (char : string) (* random delay *)
| PageScreenshot (p : Page) (path : string)  (* fullPage: false *)
| PageTextContent (p : Page) (selector : string) (* $eval: el.textContent *)
| PageScrollIntoView (p : Page) (selector : string)
| PageHover (p : Page) (selector : string)
| PageSelect (p : Page) (selector : string) (value : string)
| KeyboardPress (p : Page) (key : string)
| PageEvaluate (p : Page) (script : string)
(* timers and randomness *)
| SetTimeout (ms : Z)                        (* new Promise(r => setTimeout(r, ms)) *)
| FloorRandom (n : Z)                        (* Math.floor(Math.random() * n) *)
(* db.ts *)
| RecordTestRun (r : TestRecord)
(* reporter.ts, console *)
| PrintTestHeader (name : option string) (baseUrl : string) (* [None]: undefined *)
| ReportStep (r : StepResult) (index : nat)
| ReportSummary (r : TestResults)
| ConsoleLogJsonReport (r : TestResults).

(** What each call returns when it does not throw. *)
Definition Resp (c : Call) : Type :=
  match c with
  | FsExistsSync _ => bool
  | FsReadFileSync _ => string
  | JsonParseFlow _ => Parsed
  | PuppeteerLaunch _ _ _ => Browser
  | BrowserNewPage _ => Page
  | PageTextContent _ _ => option string
  | FloorRandom _ => Z
  | RecordTestRun _ => Z
  | _ => unit
  end.

(** The JavaScript engine and the collaborators, as the code sees them. *)
Class Runtime : Type := {
  World : Type;
  (** [Date.now()] *)
  clock : World -> Z;
  (** [new Date().toISOString()] *)
  isoString : World -> string;
  (** one call: it returns or throws, and the world moves on *)
  perform : forall c : Call, World -> (Js.Exn + Resp c) * World;
  (** [s.toLowerCase()] *)
  toLowerCase : string -> string;
  (** [[...s]]: what the iterator of the string [s] yields, its code points,
      each as a string of one or two code units *)
  String_iterator : string -> list string;
  (** [JSON.stringify(step)]: depends on the insertion order of the step
      object's properties, which the record does not keep *)
  JSON_stringify : TestStep -> string
}.

(** One entry of the log of calls made: the call, the clock when it was
    issued and when it settled, and what it threw, if it did. *)
Record Event : Type := mkEvent {
  ev_call : Call;
  ev_start : Z;
  ev_end : Z;
  ev_threw : option Js.Exn
}.

Definition ev_ok (e : Event) : bool :=
  match ev_threw e with None => true | Some _ => false end.

Section Engine.

Context {RT : Runtime}.

(** The state the code runs in: the module-level variable of [browser.ts],
    the outside world, and the log of calls (ghost state: no code reads it). *)
Record State : Type := mkState {
  browserInstance : option Browser;
  world : World;
  trace : list Event
}.

(** Computations that may throw. *)
Definition M (A : Type) : Type := State -> (Js.Exn + A) * State.

Definition ret {A} (a : A) : M A := fun s => (inr a, s).

Definition throw {A} (e : Js.Exn) : M A := fun s => (inl e, s).

Definition bind {A B} (m : M A) (f : A -> M B) : M B :=
  fun s =>
    match m s with
    | (inr a, s') => f a s'
    | (inl e, s') => (inl e, s')
    end.

(** [try { m } catch (e) { h e }] *)
Definition try_catch {A} (m : M A) (h : Js.Exn -> M A) : M A :=
  fun s =>
    match m s with
    | (inr a, s') => (inr a, s')
    | (inl e, s') => h e s'
    end.

(** [try { m } finally { fin }]: [fin] always runs; if it throws, its
    exception replaces the outcome of [m]. *)
Definition try_finally {A} (m : M A) (fin : M unit) : M A :=
  fun s =>
    match m s with
    | (r, s') =>
        match fin s' with
        | (inr _, s'') => (r, s'')
        | (inl e, s'') => (inl e, s'')
        end
    end.

(** Issue one call and log it. *)
Definition call (c : Call) : M (Resp c) :=
  fun s =>
    match perform c (world s) with
    | (r, w') =>
        (r, mkState (browserInstance s) w'
              (trace s ++ [mkEvent c (clock (world s)) (clock w')
                             (match r with inl e => Some e | inr _ => None end)]))
    end.

(** [Date.now()] *)
Definition Date_now : M Z := fun s => (inr (clock (world s)), s).

(** [new Date().toISOString()] *)
Definition Date_toISOString : M string := fun s => (inr (isoString (world s)), s).

(** Reading and writing [browserInstance]. *)
Definition get_browserInstance : M (option Browser) :=
  fun s => (inr (browserInstance s), s).

Definition set_browserInstance (b : option Browser) : M unit :=
  fun s => (inr tt, mkState b (world s) (trace s)).

End Engine.

Declare Scope engine_scope.
Delimit Scope engine_scope with engine.
Notation "x <- m ;; k" := (bind m (fun x => k))
  (at level 61, m at next level, right associativity) : engine_scope.
Notation "m ;;; k" := (bind m (fun _ => k))
  (at level 61, right associativity) : engine_scope.
Open Scope engine_scope.

Section Code.

Context {RT : Runtime}.

(* ================================================================== *)
(** * [browser.ts] *)
(* ================================================================== *)

(** A destructuring default: [{ x = d } = options]. *)
Definition default {A} (d : A) (x : option A) : A :=
  match x with Some v => v | None => d end.

(** [launchBrowser]: the cached handle when there is one, otherwise a fresh
    browser, which is cached. *)
Definition launchBrowser (options : BrowserOptions) : M Browser :=
  cached <- get_browserInstance ;;
  match cached with
  | Some b => ret b
  | None =>
      let headless := default true (bo_headless options) in
      let slowMo := default 0 (bo_slowMo options) in
      b <- call (PuppeteerLaunch headless slowMo (bo_userDataDir options)) ;;
      set_browserInstance (Some b) ;;;
      ret b
  end.

(** [closeBrowser]: the only place that empties the cache. *)
Definition closeBrowser : M unit :=
  cached <- get_browserInstance ;;
  match cached with
  | Some b =>
      call (BrowserClose b) ;;;
      set_browserInstance None
  | None => ret tt
  end.

Definition userAgent : string :=
  "Mozilla/5.0 (Macintosh; Intel Mac OS X 10_15_7) AppleWebKit/537.36 (KHTML, like Gecko) Chrome/120.0.0.0 Safari/537.36".

(** [newPage] *)
Definition newPage (browser : Browser) : M Page :=
  page <- call (BrowserNewPage browser) ;;
  call (PageSetUserAgent page userAgent) ;;;
  call (PageEvaluateOnNewDocument page) ;;;
  ret page.

(** [sleep] *)
Definition sleep (ms : Z) : M unit := call (SetTimeout ms).

(** [randomDelay] *)
Definition randomDelay (min max : Z) : M unit :=
  r <- call (FloorRandom (max - min + 1)) ;;
  let delay := r + min in
  call (SetTimeout delay).

(** The [for (const char of text)] loop of [humanType], over what the
    iterator of [text] still has to yield. *)
Fixpoint humanType_chars (page : Page) (selector : string) (chars : list string)
  : M unit :=
  match chars with
  | [] => ret tt
  | char :: rest =>
      call (PageType page selector char) ;;;
      humanType_chars page selector rest
  end.

(** [humanType] *)
Definition humanType (page : Page) (selector text : string) : M unit :=
  call (PageWaitForSelector page selector false None) ;;;
  call (PageClick page selector) ;;;
  humanType_chars page selector (String_iterator text).

(** [takeScreenshot] *)
Definition takeScreenshot (page : Page) (name dir : string) : M string :=
  iso <- Date_toISOString ;;
  let timestamp := Js.replace_colon_dot iso in
  let filename := name ++ "-" ++ timestamp ++ ".png" in
  let filepath := dir ++ "/" ++ filename in
  call (PageScreenshot page filepath) ;;;
  ret filepath.

(** [scrollToElement] *)
Definition scrollToElement (page : Page) (selector : string) : M unit :=
  call (PageWaitForSelector page selector false None) ;;;
  call (PageScrollIntoView page selector) ;;;
  sleep 500.

(* ================================================================== *)
(** * [config.ts] *)
(* ================================================================== *)

(** [loadTestFlow]: the parsed content is returned as it is. *)
Definition loadTestFlow (filepath : string) : M Parsed :=
  present <- call (FsExistsSync filepath) ;;
  if negb present
  then throw (Js.Error ("Test flow file not found: " ++ filepath))
  else
    content <- call (FsReadFileSync filepath) ;;
    call (JsonParseFlow content).

(* ================================================================== *)
(** * [testing/actions.ts] *)
(* ================================================================== *)

(** [resolveSelector] *)
Definition resolveSelector (selector : string) : string :=
  if Js.startsWith selector "text="
  then
    let text := Js.slice_from selector 5 in
    "xpath=//*[contains(text()," ++ Js.dquote ++ text ++ Js.dquote ++ ")]"
  else if Js.startsWith selector "xpath="
  then selector
  else selector.

(** The [try] block of [executeStep]: the [if / else if] chain, in the
    order of the source.  [result] is the record created before the block;
    the block's own assignments to it all come after the last call that can
    throw, so the block returns the updated record and a thrown exception
    finds the record as it was created. *)
Definition step_action (page : Page) (step : TestStep)
    (baseUrl screenshotDir : string) (result : StepResult) : M StepResult :=
  match goto step with
  | Some target =>
      (* GOTO *)
      let url := if Js.startsWith target "http" then target else baseUrl ++ target in
      call (PageGoto page url (Js.or_else Js.truthy_number (timeout step) 30000)) ;;;
      ret (set_success true result)
  | None =>
  match click step with
  | Some sel =>
      (* CLICK *)
      let selector := resolveSelector sel in
      call (PageWaitForSelector page selector true
              (Some (Js.or_else Js.truthy_number (timeout step) 10000))) ;;;
      randomDelay 100 300 ;;;
      call (PageClick page selector) ;;;
      ret (set_success true result)
  | None =>
  match type step, text step with
  | Some sel, Some txt =>
      (* TYPE *)
      let selector := resolveSelector sel in
      call (PageWaitForSelector page selector true
              (Some (Js.or_else Js.truthy_number (timeout step) 10000))) ;;;
      call (PageClick page selector) ;;;
      call (PageClearValue page selector) ;;;
      humanType page selector txt ;;;
      ret (set_success true result)
  | _, _ =>
  match waitFor step with
  | Some sel =>
      (* WAIT FOR *)
      let selector := resolveSelector sel in
      call (PageWaitForSelector page selector true
              (Some (Js.or_else Js.truthy_number (timeout step) 30000))) ;;;
      ret (set_success true result)
  | None =>
  match screenshot step with
  | Some label =>
      (* SCREENSHOT *)
      path <- takeScreenshot page label screenshotDir ;;
      ret (set_success true (set_screenshotPath path result))
  | None =>
  match verify step, contains step with
  | Some sel, Some expected =>
      (* VERIFY *)
      let selector := resolveSelector sel in
      call (PageWaitForSelector page selector false
              (Some (Js.or_else Js.truthy_number (timeout step) 10000))) ;;;
      content <- call (PageTextContent page selector) ;;
      let text := Js.or_else Js.truthy_string content EmptyString in
      if Js.includes (toLowerCase text) (toLowerCase expected)
      then ret (set_success true result)
      else
        ret (set_error ("Expected " ++ Js.dquote ++ expected ++ Js.dquote ++ " but found "
                          ++ Js.dquote ++ Js.slice text 0 100 ++ Js.dquote)
               (set_success false result))
  | _, _ =>
  match wait step with
  | Some ms =>
      (* WAIT *)
      sleep ms ;;;
      ret (set_success true result)
  | None =>
  match scroll step with
  | Some sel =>
      (* SCROLL *)
      let selector := resolveSelector sel in
      scrollToElement page selector ;;;
      ret (set_success true result)
  | None =>
  match hover step with
  | Some sel =>
      (* HOVER *)
      let selector := resolveSelector sel in
      call (PageWaitForSelector page selector true
              (Some (Js.or_else Js.truthy_number (timeout step) 10000))) ;;;
      call (PageHover page selector) ;;;
      ret (set_success true result)
  | None =>
  match select step, value step with
  | Some sel, Some v =>
      (* SELECT *)
      let selector := resolveSelector sel in
      call (PageWaitForSelector page selector false
              (Some (Js.or_else Js.truthy_number (timeout step) 10000))) ;;;
      call (PageSelect page selector v) ;;;
      ret (set_success true result)
  | _, _ =>
  match press step with
  | Some key =>
      (* PRESS *)
      call (KeyboardPress page key) ;;;
      ret (set_success true result)
  | None =>
  match evaluate step with
  | Some script =>
      (* EVALUATE *)
      call (PageEvaluate page script) ;;;
      ret (set_success true result)
  | None =>
      (* Unknown step type *)
      ret (set_error ("Unknown step type: " ++ JSON_stringify step) result)
  end end end end end end end end end end end end.

(** [executeStep] *)
Definition executeStep (page : Page) (step : TestStep)
    (baseUrl screenshotDir : string) : M StepResult :=
  startTime <- Date_now ;;
  let result := mkResult step false 0 None None in
  result <-
    try_catch
      (step_action page step baseUrl screenshotDir result)
      (fun error =>
         ret (set_error (Js.String_ error) (set_success false result))) ;;
  now <- Date_now ;;
  ret (set_duration (now - startTime) result).

(** The branch of the [if / else if] chain of [executeStep] that a step
    object selects: its guards, in the order of the source. *)
Inductive Action : Type :=
| Navigate (target : string)
| Click (selector : string)
| TypeText (selector text : string)
| WaitFor (selector : string)
| Screenshot (label : string)
| Verify (selector expected : string)
| Wait (ms : Z)
| Scroll (selector : string)
| Hover (selector : string)
| Select (selector value : string)
| PressKey (key : string)
| Evaluate (script : string)
| Unknown.

Definition selected (step : TestStep) : Action :=
  match goto step with Some target => Navigate target | None =>
  match click step with Some sel => Click sel | None =>
  match type step, text step with Some sel, Some txt => TypeText sel txt | _, _ =>
  match waitFor step with Some sel => WaitFor sel | None =>
  match screenshot step with Some label => Screenshot label | None =>
  match verify step, contains step with Some sel, Some e => Verify sel e | _, _ =>
  match wait step with Some ms => Wait ms | None =>
  match scroll step with Some sel => Scroll sel | None =>
  match hover step with Some sel => Hover sel | None =>
  match select step, value step with Some sel, Some v => Select sel v | _, _ =>
  match press step with Some key => PressKey key | None =>
  match evaluate step with Some script => Evaluate script | None =>
  Unknown
  end end end end end end end end end end end end.

(* ================================================================== *)
(** * [testing/runner.ts] *)
(* ================================================================== *)

(** The local variables the step loop updates. *)
Record Tally : Type := mkTally {
  stepResults : list StepResult;
  tally_passed : nat;
  tally_failed : nat
}.

(** The [for] loop of [runTestFlow], from index [i] on; [remaining] is
    [flow.steps] from that index.  A [break] is the early [ret]. *)
Fixpoint run_steps (page : Page) (baseUrl screenshotDir : string)
    (stopOnFailure jsonOutput : bool)
    (remaining : list TestStep) (i : nat) (acc : Tally) : M Tally :=
  match remaining with
  | [] => ret acc
  | step :: rest =>
      result <- executeStep page step baseUrl screenshotDir ;;
      let acc :=
        mkTally (stepResults acc ++ [result])
                (if success result then S (tally_passed acc) else tally_passed acc)
                (if success result then tally_failed acc else S (tally_failed acc)) in
      (* Report step in real-time *)
      (if negb jsonOutput then call (ReportStep result i) else ret tt) ;;;
      (* Stop on failure if requested *)
      if negb (success result) && stopOnFailure
      then ret acc
      else run_steps page baseUrl screenshotDir stopOnFailure jsonOutput rest (S i) acc
  end.

(** The first statements of [runTestFlow]: which flow is run.  An inline
    flow is a [TestFlow] by its type; a loaded one is what the file held. *)
Definition load_flow (options : RunTestOptions) : M Parsed :=
  match opt_flow options with
  | Some providedFlow => ret (ParsedFlow providedFlow)
  | None =>
      match opt_flowPath options with
      | Some flowPath =>
          if Js.truthy_string flowPath
          then loadTestFlow flowPath
          else throw (Js.Error "Either flowPath or flow must be provided")
      | None => throw (Js.Error "Either flowPath or flow must be provided")
      end
  end.

(** [overrideBaseUrl || flow.baseUrl || ''] *)
Definition effective_baseUrl (overrideBaseUrl : option string) (flow : TestFlow) : string :=
  Js.or_else Js.truthy_string
    (Js.or_opt Js.truthy_string overrideBaseUrl (flow_baseUrl flow))
    EmptyString.

(** [runTestFlow], once the flow is known, for a flow that fits the
    interface. *)
Definition run_flow (options : RunTestOptions) (flow : TestFlow) : M TestResults :=
  let overrideBaseUrl := opt_baseUrl options in
  let screenshotDir := default "./screenshots" (opt_screenshotDir options) in
  let headless := default true (opt_headless options) in
  let stopOnFailure := default false (opt_stopOnFailure options) in
  let jsonOutput := default false (opt_jsonOutput options) in
  let baseUrl := effective_baseUrl overrideBaseUrl flow in
  (* Ensure screenshot directory exists *)
  present <- call (FsExistsSync screenshotDir) ;;
  (if negb present then call (FsMkdirSync screenshotDir) else ret tt) ;;;
  (* Print header *)
  (if negb jsonOutput
   then call (PrintTestHeader (Some (flow_name flow)) baseUrl) else ret tt) ;;;
  browser <- launchBrowser (mkBrowserOptions (Some headless) None None) ;;
  page <- newPage browser ;;
  startTime <- Date_now ;;
  tally <-
    try_finally
      (run_steps page baseUrl screenshotDir stopOnFailure jsonOutput
         (flow_steps flow) 0%nat (mkTally [] 0%nat 0%nat))
      (call (PageClose page) ;;;
       call (BrowserClose browser)) ;;
  now <- Date_now ;;
  let duration := now - startTime in
  let results :=
    mkResults (flow_name flow) baseUrl (stepResults tally)
              (tally_passed tally) (tally_failed tally)
              (List.length (flow_steps flow)) duration screenshotDir in
  (* Record test run in database *)
  created_at <- Date_toISOString ;;
  call (RecordTestRun
          (mkRecord (flow_name flow) baseUrl (tally_passed tally) (tally_failed tally)
                    (List.length (flow_steps flow)) duration created_at)) ;;;
  (* Print summary or JSON output *)
  (if jsonOutput then call (ConsoleLogJsonReport results) else call (ReportSummary results)) ;;;
  ret results.

(** The same statements of [runTestFlow] for a loaded value without a
    [steps] array.  The first test of the loop, [i < flow.steps.length],
    throws a [TypeError] inside the [try] block: the [finally] block runs, and
    no statement after it is reached. *)
Definition run_stepless (options : RunTestOptions)
    (name flowBaseUrl : option string) (steps : Js.Nullish) : M TestResults :=
  let overrideBaseUrl := opt_baseUrl options in
  let screenshotDir := default "./screenshots" (opt_screenshotDir options) in
  let headless := default true (opt_headless options) in
  let jsonOutput := default false (opt_jsonOutput options) in
  let baseUrl :=
    Js.or_else Js.truthy_string
      (Js.or_opt Js.truthy_string overrideBaseUrl flowBaseUrl) EmptyString in
  (* Ensure screenshot directory exists *)
  present <- call (FsExistsSync screenshotDir) ;;
  (if negb present then call (FsMkdirSync screenshotDir) else ret tt) ;;;
  (* Print header *)
  (if negb jsonOutput then call (PrintTestHeader name baseUrl) else ret tt) ;;;
  browser <- launchBrowser (mkBrowserOptions (Some headless) None None) ;;
  page <- newPage browser ;;
  startTime <- Date_now ;;
  try_finally
    (throw (Js.TypeError_reading steps "length"))
    (call (PageClose page) ;;;
     call (BrowserClose browser)).

(** The same statements of [runTestFlow] for [null].  Reading a property
    of [null] throws a [TypeError]: [flow.baseUrl], unless the override is
    truthy, so that [||] does not read it; then [flow.name], the argument of
    the header, unless no header is printed; then [flow.steps], in the first
    test of the loop, inside the [try] block. *)
Definition run_null (options : RunTestOptions) : M TestResults :=
  let overrideBaseUrl := opt_baseUrl options in
  let screenshotDir := default "./screenshots" (opt_screenshotDir options) in
  let headless := default true (opt_headless options) in
  let jsonOutput := default false (opt_jsonOutput options) in
  baseUrl <-
    match overrideBaseUrl return M string with
    | Some override =>
        if Js.truthy_string override then ret override
        else throw (Js.TypeError_reading Js.Null "baseUrl")
    | None => throw (Js.TypeError_reading Js.Null "baseUrl")
    end ;;
  (* Ensure screenshot directory exists *)
  present <- call (FsExistsSync screenshotDir) ;;
  (if negb present then call (FsMkdirSync screenshotDir) else ret tt) ;;;
  (* Print header *)
  (if negb jsonOutput then throw (Js.TypeError_reading Js.Null "name") else ret tt) ;;;
  browser <- launchBrowser (mkBrowserOptions (Some headless) None None) ;;
  page <- newPage browser ;;
  startTime <- Date_now ;;
  try_finally
    (throw (Js.TypeError_reading Js.Null "steps"))
    (call (PageClose page) ;;;
     call (BrowserClose browser)).

(** [runTestFlow], once the flow is known, by what the flow is. *)
Definition run_loaded (options : RunTestOptions) (loaded : Parsed) : M TestResults :=
  match loaded with
  | ParsedFlow flow => run_flow options flow
  | ParsedStepless name flowBaseUrl steps => run_stepless options name flowBaseUrl steps
  | ParsedNull => run_null options
  end.

(** [runTestFlow] *)
Definition runTestFlow (options : RunTestOptions) : M TestResults :=
  loaded <- load_flow options ;;
  run_loaded options loaded.

End Code.

(* ================================================================== *)
(** * The rest of [browser.ts], [actions.ts], [reporter.ts], [runner.ts] *)
(* ================================================================== *)

(** Handles of elements found on a page. *)
Definition ElementHandle : Type := nat.

(** The calls that only the functions below make.  They are answered by the
    runtime like the others, but are not entered in the log. *)
Inductive ExtraCall : Type :=
| PageTitle (p : Page)
| PageContent (p : Page)
| PageQuery (p : Page) (selector : string)            (* page.$(selector) *)
| ElementClick (h : ElementHandle)
| PageWaitForNavigation (p : Page) (timeout : Z)      (* waitUntil: 'networkidle2' *)
| ReportSmokeTest (url : string) (success : bool) (duration : Z)
                  (error : option string)
| ConsoleError (message : string) (err : Js.Exn)
| ConsoleLog (line : string).

Definition ExtraResp (c : ExtraCall) : Type :=
  match c with
  | PageTitle _ | PageContent _ => string
  | PageQuery _ _ => option ElementHandle
  | _ => unit
  end.

Class Extras (RT : Runtime) : Type := {
  perform_extra : forall c : ExtraCall, World -> (Js.Exn + ExtraResp c) * World;
  (** [browser.connected] *)
  connected : World -> Browser -> bool;
  (** a number inside a template string *)
  Number_toString : Z -> string
}.

(** What [runMultipleFlows] returns. *)
Record Batch : Type := mkBatch {
  results : list TestResults;
  totalPassed : nat;
  totalFailed : nat
}.

(** The options of [runMultipleFlows]. *)
Record BatchOptions : Type := mkBatchOptions {
  bopt_baseUrl : option string;
  bopt_screenshotDir : option string;
  bopt_headless : option bool;
  bopt_stopOnFailure : option bool
}.

(** The options of [runSmokeTest]. *)
Record SmokeOptions : Type := mkSmokeOptions {
  sopt_headless : option bool;
  sopt_timeout : option Z
}.

(** The object [createJsonReport] builds. *)
Record StepReport : Type := mkStepReport {
  sr_index : nat;
  sr_action : string;
  sr_success : bool;
  sr_duration : Z;
  sr_error : option string;
  sr_screenshot : option string
}.

Record Summary : Type := mkSummary {
  sum_passed : nat;
  sum_failed : nat;
  sum_total : nat;
  sum_duration : Z;
  sum_success : bool
}.

Record JsonReport : Type := mkJsonReport {
  rep_name : string;
  rep_baseUrl : string;
  rep_timestamp : string;
  rep_summary : Summary;
  rep_steps : list StepReport
}.

(** [s.repeat(n)] *)
Fixpoint repeat_string (s : string) (n : nat) : string :=
  match n with
  | O => EmptyString
  | S n' => s ++ repeat_string s n'
  end.

(** The line feed, as a string. *)
Definition newline : string := String (Ascii.ascii_of_nat 10) EmptyString.

(** [err instanceof Error ? err.message : 'Unknown error'] *)
Definition error_message (err : Js.Exn) : string :=
  match err with
  | Js.ErrorObj _ message => message
  | Js.Thrown _ => "Unknown error"
  end.

(** [xs.map((x, i) => f(x, i))], from index [i] on. *)
Fixpoint map_indexed {A B : Type} (f : A -> nat -> B) (l : list A) (i : nat) : list B :=
  match l with
  | [] => []
  | x :: rest => f x i :: map_indexed f rest (S i)
  end.

Section MoreCode.

Context {RT : Runtime} {EX : Extras RT}.

(** Issue one of the extra calls. *)
Definition call_extra (c : ExtraCall) : M (ExtraResp c) :=
  fun s =>
    match perform_extra c (world s) with
    | (r, w') => (r, mkState (browserInstance s) w' (trace s))
    end.

(** [browserInstance.connected] *)
Definition browser_connected (b : Browser) : M bool :=
  fun s => (inr (connected (world s) b), s).

(** ** [browser.ts] *)

(** [waitAndClick] *)
Definition waitAndClick (page : Page) (selector : string) (timeout : option Z) : M unit :=
  let timeout := default 10000 timeout in
  call (PageWaitForSelector page selector false (Some timeout)) ;;;
  randomDelay 200 500 ;;;
  call (PageClick page selector).

(** [safeClick] *)
Definition safeClick (page : Page) (selector : string) : M bool :=
  try_catch
    (element <- call_extra (PageQuery page selector) ;;
     match element with
     | Some h =>
         call_extra (ElementClick h) ;;;
         ret true
     | None => ret false
     end)
    (fun _ => ret false).

(** [waitForNavigation] *)
Definition waitForNavigation (page : Page) (timeout : option Z) : M unit :=
  let timeout := default 30000 timeout in
  call_extra (PageWaitForNavigation page timeout).

(** [getBrowser]: [!browserInstance || !browserInstance.connected], then
    [browserInstance = await launchBrowser()], then [return browserInstance]. *)
Definition getBrowser : M Browser :=
  cached <- get_browserInstance ;;
  match cached with
  | Some b =>
      isConnected <- browser_connected b ;;
      if negb isConnected
      then
        b' <- launchBrowser (mkBrowserOptions None None None) ;;
        set_browserInstance (Some b') ;;;
        ret b'
      else ret b
  | None =>
      b' <- launchBrowser (mkBrowserOptions None None None) ;;
      set_browserInstance (Some b') ;;;
      ret b'
  end.

(** ** [testing/actions.ts] *)

(** [getActionName].  An absent [contains] prints as [undefined]. *)
Definition getActionName (step : TestStep) : string :=
  match goto step with Some target => "goto " ++ target | None =>
  match click step with Some sel => "click " ++ Js.dquote ++ sel ++ Js.dquote | None =>
  match type step with Some sel => "type " ++ sel | None =>
  match waitFor step with Some sel => "waitFor " ++ sel | None =>
  match screenshot step with
  | Some label => "screenshot " ++ Js.dquote ++ label ++ Js.dquote
  | None =>
  match verify step with
  | Some sel =>
      "verify " ++ sel ++ " contains " ++ Js.dquote
        ++ default "undefined" (contains step) ++ Js.dquote
  | None =>
  match wait step with Some ms => "wait " ++ Number_toString ms ++ "ms" | None =>
  match scroll step with Some sel => "scroll " ++ sel | None =>
  match hover step with Some sel => "hover " ++ sel | None =>
  match select step with Some sel => "select " ++ sel | None =>
  match press step with Some key => "press " ++ key | None =>
  match evaluate step with Some _ => "evaluate (custom JS)" | None =>
  "unknown action"
  end end end end end end end end end end end end.

(** ** [testing/reporter.ts] *)

(** [createJsonReport] *)
Definition createJsonReport (r : TestResults) : M JsonReport :=
  timestamp <- Date_toISOString ;;
  ret (mkJsonReport (name r) (baseUrl r) timestamp
         (mkSummary (passed r) (failed r) (total r) (run_duration r)
            (Nat.eqb (failed r) 0))
         (map_indexed
            (fun s i =>
               mkStepReport (i + 1) (getActionName (step s)) (success s) (duration s)
                 (error s) (screenshotPath s))
            (steps r) 0)).

(** ** [testing/runner.ts] *)

(** The [try] block of [runSmokeTest]: what it leaves in [success] and
    [error]. *)
Definition smoke_check (page : Page) (url : string) (timeout : Z)
  : M (bool * option string) :=
  call (PageGoto page url timeout) ;;;
  (* Basic checks *)
  title <- call_extra (PageTitle page) ;;
  content <- call_extra (PageContent page) ;;
  (* Check for common error indicators *)
  let hasError :=
    Js.includes content "502 Bad Gateway" ||
    Js.includes content "503 Service Unavailable" ||
    Js.includes content "500 Internal Server Error" ||
    Js.includes content "404 Not Found" in
  if hasError
  then ret (false, Some "Page returned an error status")
  else if negb (Js.truthy_string title) && (String.length content <? 100)%nat
  then ret (false, Some "Page appears to be empty")
  else ret (true, None).

(** [runSmokeTest] *)
Definition runSmokeTest (url : string) (options : SmokeOptions) : M bool :=
  let headless := default true (sopt_headless options) in
  let timeout := default 30000 (sopt_timeout options) in
  browser <- launchBrowser (mkBrowserOptions (Some headless) None None) ;;
  page <- newPage browser ;;
  startTime <- Date_now ;;
  outcome <-
    try_finally
      (try_catch
         (smoke_check page url timeout)
         (fun err => ret (false, Some (error_message err))))
      (call (PageClose page) ;;;
       call (BrowserClose browser)) ;;
  let success := fst outcome in
  let error := snd outcome in
  now <- Date_now ;;
  let duration := now - startTime in
  call_extra (ReportSmokeTest url success duration error) ;;;
  (* Record test run *)
  created_at <- Date_toISOString ;;
  call (RecordTestRun
          (mkRecord "Smoke Test" url
             (if success then 1%nat else 0%nat) (if success then 0%nat else 1%nat)
             1%nat duration created_at)) ;;;
  ret success.

(** The [for] loop of [runMultipleFlows] over the flows still to run.  The
    body's assignments come after [runTestFlow] has returned, so a caught
    exception finds the batch as it was. *)
Fixpoint run_flows (options : BatchOptions) (flowPaths : list string) (acc : Batch)
  : M Batch :=
  match flowPaths with
  | [] => ret acc
  | flowPath :: rest =>
      next <-
        try_catch
          (result <-
             runTestFlow
               (mkOptions (Some flowPath) None (bopt_baseUrl options)
                  (bopt_screenshotDir options) (bopt_headless options)
                  (bopt_stopOnFailure options) None) ;;
           let acc :=
             mkBatch (results acc ++ [result])
                     (totalPassed acc + passed result)
                     (totalFailed acc + failed result) in
           ret (acc, (0 <? failed result)%nat
                     && default false (bopt_stopOnFailure options)))
          (fun err =>
             call_extra (ConsoleError ("Error running flow " ++ flowPath ++ ":") err) ;;;
             ret (acc, false)) ;;
      if snd next
      then ret (fst next)
      else run_flows options rest (fst next)
  end.

(** [runMultipleFlows] *)
Definition runMultipleFlows (flowPaths : list string) (options : BatchOptions)
  : M Batch :=
  batch <- run_flows options flowPaths (mkBatch [] 0%nat 0%nat) ;;
  call_extra (ConsoleLog (newline ++ repeat_string "=" 50)) ;;;
  call_extra
    (ConsoleLog
       ("Total: " ++ Number_toString (Z.of_nat (totalPassed batch)) ++ "/"
        ++ Number_toString (Z.of_nat (totalPassed batch + totalFailed batch))
        ++ " passed across "
        ++ Number_toString (Z.of_nat (List.length (results batch))) ++ " flows")) ;;;
  call_extra (ConsoleLog (repeat_string "=" 50 ++ newline)) ;;;
  ret batch.

End MoreCode.

(* ================================================================== *)
(** * Which calls belong to which part of the engine *)
(* ================================================================== *)

(** Calls issued while a step executes ([executeStep] and the helpers of
    [browser.ts] it uses). *)
Definition is_step_call (c : Call) : bool :=
  match c with
  | PageGoto _ _ _ | PageWaitForSelector _ _ _ _ | PageClick _ _
  | PageClearValue _ _ | PageType _ _ _ | PageScreenshot _ _
  | PageTextContent _ _ | PageScrollIntoView _ _ | PageHover _ _
  | PageSelect _ _ _ | KeyboardPress _ _ | PageEvaluate _ _
  | SetTimeout _ | FloorRandom _ => true
  | _ => false
  end.

(** The record-run call of the persistence collaborator. *)
Definition is_record_call (c : Call) : bool :=
  match c with RecordTestRun _ => true | _ => false end.

(** The Reporter's rendering of the finished run. *)
Definition is_summary_call (c : Call) : bool :=
  match c with ReportSummary _ | ConsoleLogJsonReport _ => true | _ => false end.

(** Driver-session acquisition: browser launch and page creation. *)
Definition is_acquire_call (c : Call) : bool :=
  match c with
  | PuppeteerLaunch _ _ _ | BrowserNewPage _ | PageSetUserAgent _ _
  | PageEvaluateOnNewDocument _ => true
  | _ => false
  end.

(** Driver-session release. *)
Definition is_release_call (c : Call) : bool :=
  match c with PageClose _ | BrowserClose _ => true | _ => false end.

(** Flow loading. *)
Definition is_load_call (c : Call) : bool :=
  match c with
  | FsExistsSync _ | FsReadFileSync _ | JsonParseFlow _ => true
  | _ => false
  end.

(** Calls of the loop: step calls and the real-time report of each step. *)
Definition is_loop_call (c : Call) : bool :=
  is_step_call c || match c with ReportStep _ _ => true | _ => false end.

(** The real-time report of a step. *)
Definition is_report_step (c : Call) : bool :=
  match c with ReportStep _ _ => true | _ => false end.

(** Calls made outside the execution of a step. *)
Definition outside_step (c : Call) : bool := negb (is_step_call c).

(** Calls other than the record-run call and the summary. *)
Definition quiet (c : Call) : bool := negb (is_record_call c || is_summary_call c).

(** The timeout a wait gets when [step.timeout || dflt] is spelt out by
    cases: the step's own timeout when it is present and not 0, otherwise
    the default. *)
Definition effective_timeout (t : option Z) (dflt : Z) : Z :=
  match t with
  | Some n => if n =? 0 then dflt else n
  | None => dflt
  end.

(** The errors [runTestFlow] and [loadTestFlow] throw themselves. *)
Definition is_flow_error (e : Js.Exn) : Prop :=
  e = Js.Error "Either flowPath or flow must be provided" \/
  exists p, e = Js.Error ("Test flow file not found: " ++ p).

(** The [TypeError]s of reading a loaded value that is not a flow: a
    property of the value when it is [null], or [length] of its [steps] when
    that is missing or [null]. *)
Definition is_shape_error (e : Js.Exn) : Prop :=
  (exists prop, e = Js.TypeError_reading Js.Null prop) \/
  exists n, e = Js.TypeError_reading n "length".

(** The URL a [goto] step navigates to under base URL [b]. *)
Definition goto_url (b target : string) : string :=
  if Js.startsWith target "http" then target else b ++ target.

(** The calls that carry the base URL of a run carry [b]: a navigation goes
    to the target of one of [steps] under [b]; the header, the record and the
    rendered result give [b] as the base URL. *)
Definition base_in_effect (b : string) (steps : list TestStep) (c : Call) : bool :=
  match c with
  | PageGoto _ url _ =>
      existsb
        (fun st =>
           match goto st with
           | Some target => String.eqb url (goto_url b target)
           | None => false
           end)
        steps
  | PrintTestHeader _ b' => String.eqb b' b
  | RecordTestRun record => String.eqb (rec_base_url record) b
  | ReportSummary r | ConsoleLogJsonReport r => String.eqb (baseUrl r) b
  | _ => true
  end.

(** A navigation. *)
Definition is_goto_call (c : Call) : bool :=
  match c with PageGoto _ _ _ => true | _ => false end.

(** Position of the first failed outcome of a list of outcomes. *)
Fixpoint first_failure (outs : list StepResult) : option nat :=
  match outs with
  | [] => None
  | o :: rest =>
      if success o then option_map S (first_failure rest) else Some 0%nat
  end.

(* ================================================================== *)
(** * Statements about what a computation logs *)
(* ================================================================== *)

Section Specs.

Context {RT : Runtime}.

Local Open Scope list_scope.

(** The event a call logs. *)
Definition event_of (c : Call) (s : State) (r : Js.Exn + Resp c) (w' : World) : Event :=
  mkEvent c (clock (world s)) (clock w')
          (match r with inl e => Some e | inr _ => None end).

(** An exception [e] that escapes after logging [evs] is one the code threw
    itself (in [X]) or one that a call in [Q] threw. *)
Definition escapes (Q : Call -> bool) (X : Js.Exn -> Prop)
    (e : Js.Exn) (evs : list Event) : Prop :=
  X e \/ Exists (fun ev => ev_threw ev = Some e /\ Q (ev_call ev) = true) evs.

(** Every run of [m] only adds events to the log, all of them calls in [I],
    and an exception escapes only as [escapes Q X] allows. *)
Definition obeys {A} (I Q : Call -> bool) (X : Js.Exn -> Prop) (m : M A) : Prop :=
  forall s r s', m s = (r, s') ->
    exists evs, trace s' = trace s ++ evs /\
      Forall (fun ev => I (ev_call ev) = true) evs /\
      forall e, r = inl e -> escapes Q X e evs.

(** Every run of [m] leaves the browser cache of [browser.ts] as it was. *)
Definition keeps_cache {A} (m : M A) : Prop :=
  forall s r s', m s = (r, s') -> browserInstance s' = browserInstance s.

(** What a computation returns, when it returns. *)
Definition yields {A} (P : A -> Prop) (m : M A) : Prop :=
  forall s a s', m s = (inr a, s') -> P a.

(** The shapes the log of a run can have around the record-run call:
    the call was never reached; or it is the last call, it threw, and its
    exception is the outcome of the run; or it returned and no other
    record-run call follows. *)
Definition around_record {A} (r : Js.Exn + A) (evs : list Event) : Prop :=
  Forall (fun ev => quiet (ev_call ev) = true) evs \/
  (exists pre ev e,
     evs = pre ++ [ev] /\
     Forall (fun ev => quiet (ev_call ev) = true) pre /\
     is_record_call (ev_call ev) = true /\ ev_threw ev = Some e /\ r = inl e) \/
  (exists pre ev post,
     evs = pre ++ ev :: post /\
     Forall (fun ev => quiet (ev_call ev) = true) pre /\
     is_record_call (ev_call ev) = true /\ ev_threw ev = None /\
     Forall (fun ev' => is_record_call (ev_call ev') = false) post).

Definition delivers {A} (m : M A) : Prop :=
  forall s r s', m s = (r, s') ->
    exists evs, trace s' = trace s ++ evs /\ around_record r evs.

(** A computation that catches nothing: it returns only if every call it
    made returned, and it throws exactly what its last call threw. *)
Definition fails_fast {A} (m : M A) : Prop :=
  forall s r s', m s = (r, s') ->
    exists evs, trace s' = trace s ++ evs /\
      match r with
      | inr _ => Forall (fun ev => ev_threw ev = None) evs
      | inl e =>
          exists pre ev,
            evs = pre ++ [ev] /\
            Forall (fun ev => ev_threw ev = None) pre /\ ev_threw ev = Some e
      end.

(** When, in a log, session acquisition started and ended, and when
    session release ended: the start of the first acquisition call, the end
    of the last one, and the end of the last release call. *)
Definition acquisition_started (evs : list Event) : option Z :=
  option_map ev_start (find (fun ev => is_acquire_call (ev_call ev)) evs).

Definition acquisition_ended (evs : list Event) : option Z :=
  option_map ev_end (find (fun ev => is_acquire_call (ev_call ev)) (rev evs)).

Definition release_ended (evs : list Event) : option Z :=
  option_map ev_end (find (fun ev => is_release_call (ev_call ev)) (rev evs)).

(** The position in the log of the first event of a run started in [s],
    and the call logged there by a run that ended in [s']. *)
Definition first_call (s s' : State) : option Call :=
  option_map ev_call (nth_error (trace s') (List.length (trace s))).

(** The wall clock never runs backwards while a call is in flight. *)
Definition clock_monotone : Prop :=
  forall c w, clock w <= clock (snd (perform c w)).

(** A computation during which the clock does not run backwards. *)
Definition advances {A} (m : M A) : Prop :=
  forall s r s', m s = (r, s') -> clock (world s) <= clock (world s').

(** The sum of a list of durations. *)
Definition total_ms (l : list Z) : Z := fold_right Z.add 0 l.

(** The creation of a directory. *)
Definition is_mkdir_call (c : Call) : bool :=
  match c with FsMkdirSync _ => true | _ => false end.

(** The last call of page set-up. *)
Definition is_page_ready_call (c : Call) : bool :=
  match c with PageEvaluateOnNewDocument _ => true | _ => false end.

(** An event that shows a page fully set up: the last call of page set-up,
    returned. *)
Definition page_ready (ev : Event) : bool :=
  is_page_ready_call (ev_call ev) && ev_ok ev.

(** The sum of a list of counts. *)
Definition total_count (l : list nat) : nat := fold_right Nat.add 0%nat l.

(** A call that launches no browser and touches no browser but [b]: a page
    it opens is opened on [b], a browser it closes is [b]. *)
Definition stays_on (b : Browser) (c : Call) : bool :=
  match c with
  | PuppeteerLaunch _ _ _ => false
  | BrowserNewPage b' | BrowserClose b' => Nat.eqb b' b
  | _ => true
  end.

(** A call that opens no page and closes no browser. *)
Definition before_session (c : Call) : bool :=
  match c with
  | BrowserNewPage _ | BrowserClose _ => false
  | _ => true
  end.

(** A log in which at most one browser is ever used, given the cache before
    and after.  With [b] cached from the start, every call stays on [b].
    With an empty cache, the log is a stretch in which no page is opened and
    no browser closed, followed, if a browser [b] got cached, by a stretch in
    which every call stays on [b]: nothing is launched after that. *)
Definition one_session (cache : option Browser) (evs : list Event)
    (cache' : option Browser) : Prop :=
  match cache with
  | Some b =>
      cache' = Some b /\ Forall (fun ev => stays_on b (ev_call ev) = true) evs
  | None =>
      (cache' = None /\ Forall (fun ev => before_session (ev_call ev) = true) evs) \/
      (exists b pre post,
         cache' = Some b /\ evs = pre ++ post /\
         Forall (fun ev => before_session (ev_call ev) = true) pre /\
         Forall (fun ev => stays_on b (ev_call ev) = true) post)
  end.

(** A computation all of whose runs keep to one browser. *)
Definition sessions {A} (m : M A) : Prop :=
  forall s r s', m s = (r, s') ->
    exists evs, trace s' = trace s ++ evs /\
                one_session (browserInstance s) evs (browserInstance s').

(** A call that has nothing to do with browsers as such. *)
Definition browser_neutral (c : Call) : bool :=
  match c with
  | PuppeteerLaunch _ _ _ | BrowserNewPage _ | BrowserClose _ => false
  | _ => true
  end.

End Specs.

(** Assumptions on the console, used by the batch runner's properties. *)

Section MoreSpecs.

Context {RT : Runtime} {EX : Extras RT}.

(** The console answers every line printed. *)
Definition console_answers : Prop :=
  (forall message err w, exists w',
     perform_extra (ConsoleError message err) w = (inr tt, w')) /\
  (forall line w, exists w', perform_extra (ConsoleLog line) w = (inr tt, w')).

End MoreSpecs.

(* ================================================================== *)
(** * A concrete runtime, to run the engine on examples *)
(* ================================================================== *)

Module Demo.

(** ASCII case mapping, on the bits of a unit: the letters A to Z are the
    units 010xxxxx with xxxxx from 1 to 26, and lowering sets bit 5. *)
Definition lower_ascii (c : ascii) : ascii :=
  match c with
  | Ascii b0 b1 b2 b3 b4 b5 b6 b7 =>
      if negb b7 && b6 && negb b5
         && (b0 || b1 || b2 || b3 || b4)
         && negb (b4 && b3 && (b2 || (b1 && b0)))
      then Ascii b0 b1 b2 b3 b4 true b6 b7
      else c
  end.

Fixpoint lower (s : string) : string :=
  match s with
  | EmptyString => EmptyString
  | String c s' => String (lower_ascii c) (lower s')
  end.

(** This runtime holds strings in UTF-8: a code point is the byte sequence
    that starts at a byte 0xxxxxxx (one byte), 110xxxxx (two), 1110xxxx
    (three) or 1111xxxx (four). *)
Definition utf8_width (c : ascii) : nat :=
  match c with
  | Ascii _ _ _ _ b4 b5 b6 b7 =>
      if negb (b7 && b6) then 1%nat
      else if negb b5 then 2%nat
      else if negb b4 then 3%nat
      else 4%nat
  end.

Fixpoint code_points_from (fuel : nat) (s : string) : list string :=
  match fuel, s with
  | S fuel', String c _ =>
      let w := utf8_width c in
      String.substring 0 w s
        :: code_points_from fuel' (String.substring w (String.length s - w) s)
  | _, _ => []
  end.

Definition code_points (s : string) : list string :=
  code_points_from (String.length s) s.

(** The letter a, an emoji of four bytes (U+1F600), the letter b. *)
Definition emoji : string :=
  String (ascii_of_nat 240) (String (ascii_of_nat 159)
    (String (ascii_of_nat 152) (String (ascii_of_nat 128) EmptyString))).

Definition a_emoji_b : string := "a" ++ emoji ++ "b".

(** A string literal of JSON: quotes and backslashes escaped. *)
Fixpoint escape (s : string) : string :=
  match s with
  | EmptyString => EmptyString
  | String c s' =>
      if (Ascii.eqb c (ascii_of_nat 34) || Ascii.eqb c (ascii_of_nat 92))%bool
      then String (ascii_of_nat 92) (String c (escape s'))
      else String c (escape s')
  end.

(** Serialisation of a step whose properties were inserted in the order of
    the interface. *)
Definition str_field (k : string) (v : option string) : list string :=
  match v with
  | Some s => [Js.dquote ++ k ++ Js.dquote ++ ":" ++ Js.dquote ++ escape s ++ Js.dquote]
  | None => []
  end.

Definition num_field (k : string) (v : option Z) : list string :=
  match v with
  | Some n => [Js.dquote ++ k ++ Js.dquote ++ ":" ++ NilZero.string_of_int (Z.to_int n)]
  | None => []
  end.

Definition stringify (st : TestStep) : string :=
  "{" ++ String.concat ","
    (str_field "goto" (goto st) ++ str_field "click" (click st)
     ++ str_field "type" (type st) ++ str_field "text" (text st)
     ++ str_field "waitFor" (waitFor st) ++ num_field "timeout" (timeout st)
     ++ str_field "screenshot" (screenshot st) ++ str_field "verify" (verify st)
     ++ str_field "contains" (contains st) ++ num_field "wait" (wait st)
     ++ str_field "scroll" (scroll st) ++ str_field "hover" (hover st)
     ++ str_field "select" (select st) ++ str_field "value" (value st)
     ++ str_field "press" (press st) ++ str_field "evaluate" (evaluate st))
  ++ "}".

(** The flow every flow file of this runtime parses to. *)
Definition loginFlow : TestFlow :=
  mkFlow "Login" (Some "https://ex.com")
    [ mkStep (Some "/login") None None None None None None None
             None None None None None None None None;
      mkStep None None (Some "#email") (Some "a@b.com") None None None None
             None None None None None None None None;
      mkStep None (Some "button[type=submit]") None None None None None None
             None None None None None None None None;
      mkStep None None None None None None None (Some "h1")
             (Some "Welcome") None None None None None None None ].

(** A text of 120 characters. *)
Definition longText : string := repeat_string "0123456789" 12.

(** The world is the wall clock, in milliseconds.  Neither the file
    [/flows/missing.json] nor the directory [./new-shots] exists; the file
    [/flows/empty.json] holds [{}], the file [/flows/null.json] holds [null],
    every other file holds the login flow.  Launching the browser takes five
    seconds; the selector [#missing] never appears; the heading reads
    [Welcome, Jane] and the element [#long] holds [longText]; the database is
    locked for the flow named [db-down]. *)
Definition answer (c : Call) (w : Z) : (Js.Exn + Resp c) * Z :=
  match c as c0 return (Js.Exn + Resp c0) * Z with
  | FsExistsSync p =>
      (inr (negb (String.eqb p "/flows/missing.json" || String.eqb p "./new-shots")), w)
  | FsReadFileSync p =>
      (inr (if String.eqb p "/flows/empty.json" then "{}"
            else if String.eqb p "/flows/null.json" then "null"
            else "{ ... }"), w + 1)
  | JsonParseFlow content =>
      (inr (if String.eqb content "{}" then ParsedStepless None None Js.Undefined
            else if String.eqb content "null" then ParsedNull
            else ParsedFlow loginFlow), w)
  | PuppeteerLaunch _ _ _ => (inr 7%nat, w + 5000)
  | BrowserNewPage _ => (inr 1%nat, w + 200)
  | BrowserClose _ => (inr tt, w + 100)
  | PageClose _ => (inr tt, w + 50)
  | PageGoto _ _ _ => (inr tt, w + 300)
  | PageWaitForSelector _ sel _ t =>
      if String.eqb sel "#missing"
      then (inl (Js.ErrorObj "TimeoutError" "Waiting for selector `#missing` failed"),
            w + default 30000 t)
      else (inr tt, w + 10)
  | PageTextContent _ sel =>
      (inr (if String.eqb sel "h1" then Some "Welcome, Jane"
            else if String.eqb sel "#long" then Some longText
            else Some "Error"), w + 5)
  | SetTimeout ms => (inr tt, w + Z.max 0 ms)
  | FloorRandom _ => (inr 0, w)
  | RecordTestRun r =>
      if String.eqb (rec_flow_name r) "db-down"
      then (inl (Js.ErrorObj "SqliteError" "database is locked"), w)
      else (inr 1, w + 2)
  | FsMkdirSync _ => (inr tt, w)
  | PageSetUserAgent _ _ => (inr tt, w)
  | PageEvaluateOnNewDocument _ => (inr tt, w)
  | PageClick _ _ => (inr tt, w + 20)
  | PageClearValue _ _ => (inr tt, w)
  | PageType _ _ _ => (inr tt, w + 60)
  | PageScreenshot _ _ => (inr tt, w + 80)
  | PageScrollIntoView _ _ => (inr tt, w)
  | PageHover _ _ => (inr tt, w)
  | PageSelect _ _ _ => (inr tt, w)
  | KeyboardPress _ _ => (inr tt, w)
  | PageEvaluate _ _ => (inr tt, w)
  | PrintTestHeader _ _ => (inr tt, w)
  | ReportStep _ _ => (inr tt, w)
  | ReportSummary _ => (inr tt, w)
  | ConsoleLogJsonReport _ => (inr tt, w)
  end.

#[export] Instance runtime : Runtime := {|
  World := Z;
  clock := fun w => w;
  isoString := fun _ => "2026-02-02T10:00:00.000Z";
  perform := answer;
  toLowerCase := lower;
  String_iterator := code_points;
  JSON_stringify := stringify
|}.

(** A fresh process: nothing cached, clock at zero, nothing logged. *)
Definition start : State := mkState None 0 [].

Definition options (flow : TestFlow) (stop : bool) : RunTestOptions :=
  mkOptions None (Some flow) None None None (Some stop) None.

Definition waitForStep (sel : string) : TestStep :=
  mkStep None None None None (Some sel) None None None
         None None None None None None None None.

Definition verifyStep (sel expected : string) : TestStep :=
  mkStep None None None None None None None (Some sel)
         (Some expected) None None None None None None None.

(** Five steps, the second of which fails. *)
Definition fiveSteps : TestFlow :=
  mkFlow "five" None
    [ waitForStep "#a"; waitForStep "#missing"; waitForStep "#c";
      waitForStep "#d"; waitForStep "#e" ].

(** A flow whose run cannot be recorded. *)
Definition dbDown : TestFlow :=
  mkFlow "db-down" None [ waitForStep "#a" ].

(** [{ "type": "#x", "waitFor": "#y" }]: a [type] tag without [text]. *)
Definition typeWithoutText : TestStep :=
  mkStep None None (Some "#x") None (Some "#y") None None None
         None None None None None None None None.

(** [{ "type": "#x" }] *)
Definition onlyType : TestStep :=
  mkStep None None (Some "#x") None None None None None
         None None None None None None None None.

(** [{ "goto": "/x", "timeout": t }] *)
Definition gotoStep (t : Z) : TestStep :=
  mkStep (Some "/x") None None None None (Some t) None None
         None None None None None None None None.

(** [{ "screenshot": label }] *)
Definition screenshotStep (label : string) : TestStep :=
  mkStep None None None None None None (Some label) None
         None None None None None None None None.

(** [{ "type": sel, "text": txt }] *)
Definition typeStep (sel txt : string) : TestStep :=
  mkStep None None (Some sel) (Some txt) None None None None
         None None None None None None None None.

(** The rest of the driver.  The page is titled [Home] and is served whole;
    [page.$] finds element 3 for every selector but [#missing]; the console
    prints what it is given; no browser reports itself connected. *)
Definition answer_extra (c : ExtraCall) (w : Z) : (Js.Exn + ExtraResp c) * Z :=
  match c as c0 return (Js.Exn + ExtraResp c0) * Z with
  | PageTitle _ => (inr "Home", w + 1)
  | PageContent _ => (inr "<html><body><h1>Welcome, Jane</h1></body></html>", w + 1)
  | PageQuery _ sel =>
      (inr (if String.eqb sel "#missing" then None else Some 3%nat), w + 5)
  | ElementClick _ => (inr tt, w + 20)
  | PageWaitForNavigation _ _ => (inr tt, w + 100)
  | ReportSmokeTest _ _ _ _ => (inr tt, w)
  | ConsoleError _ _ => (inr tt, w)
  | ConsoleLog _ => (inr tt, w)
  end.

#[export] Instance extras : Extras runtime := {|
  perform_extra := answer_extra;
  connected := fun _ _ => false;
  Number_toString := fun n => NilZero.string_of_int (Z.to_int n)
|}.

(** A process in which browser 7 has been launched before. *)
Definition warm : State := mkState (Some 7%nat) 0 [].

Definition batchOptions (stop : bool) : BatchOptions :=
  mkBatchOptions None None None (Some stop).

(** The same driver behind a clock that never runs backwards: a call that
    would set the clock back leaves it where it was. *)
Definition steady_answer (c : Call) (w : Z) : (Js.Exn + Resp c) * Z :=
  (fst (answer c w), Z.max w (snd (answer c w))).

Definition steady : Runtime := {|
  World := Z;
  clock := fun w => w;
  isoString := fun _ => "2026-02-02T10:00:00.000Z";
  perform := steady_answer;
  toLowerCase := lower;
  String_iterator := code_points;
  JSON_stringify := stringify
|}.

Definition steady_start : @State steady := @mkState steady None 0 [].

End Demo.

(* ================================================================== *)
(** * Reasoning about computations *)
(* ================================================================== *)

Section Properties.

Context {RT : Runtime}.

Local Open Scope list_scope.

(** ** Inversion of the monad's operations *)

Lemma bind_inr {A B} (m : M A) (f : A -> M B) s b s' :
  bind m f s = (inr b, s') ->
  exists a s1, m s = (inr a, s1) /\ f a s1 = (inr b, s').
Proof.
  unfold bind. destruct (m s) as [[e | a] s1]; intros H.
  - discriminate.
  - exists a, s1. split; [reflexivity | exact H].
Qed.

Lemma bind_inv {A B} (m : M A) (f : A -> M B) s r s' :
  bind m f s = (r, s') ->
  (exists e, m s = (inl e, s') /\ r = inl e) \/
  (exists a s1, m s = (inr a, s1) /\ f a s1 = (r, s')).
Proof.
  unfold bind. destruct (m s) as [[e | a] s1]; intros H.
  - left. exists e. inversion H; subst. split; reflexivity.
  - right. exists a, s1. split; [reflexivity | exact H].
Qed.

Lemma bind_ok {A B} (m : M A) (f : A -> M B) s a s1 :
  m s = (inr a, s1) -> bind m f s = f a s1.
Proof. unfold bind. intros ->. reflexivity. Qed.

Lemma bind_throws {A B} (m : M A) (f : A -> M B) s e s1 :
  m s = (inl e, s1) -> bind m f s = (inl e, s1).
Proof. unfold bind. intros ->. reflexivity. Qed.

Lemma call_inv c s r s' :
  call c s = (r, s') ->
  exists w', perform c (world s) = (r, w') /\
             s' = mkState (browserInstance s) w' (trace s ++ [event_of c s r w']).
Proof.
  unfold call, event_of. destruct (perform c (world s)) as [r0 w'] eqn:E.
  intros H. inversion H; subst. exists w'. split; reflexivity.
Qed.

Lemma call_perform c s r w' :
  perform c (world s) = (r, w') ->
  call c s = (r, mkState (browserInstance s) w' (trace s ++ [event_of c s r w'])).
Proof. unfold call, event_of. intros ->. reflexivity. Qed.

Lemma try_finally_inr {A} (m : M A) (fin : M unit) s a s' :
  try_finally m fin s = (inr a, s') ->
  exists s1, m s = (inr a, s1) /\ fin s1 = (inr tt, s').
Proof.
  unfold try_finally. destruct (m s) as [r s1] eqn:E.
  destruct (fin s1) as [[e | []] s2] eqn:F; intros H; inversion H; subst.
  exists s1. split; [reflexivity | exact F].
Qed.

(** ** What a computation logs, and where an escaping exception comes from *)
Lemma escapes_app_l Q X e evs1 evs2 :
  escapes Q X e evs1 -> escapes Q X e (evs1 ++ evs2).
Proof.
  intros [H | H]; [left; exact H | right].
  apply Exists_app. left. exact H.
Qed.

Lemma escapes_app_r Q X e evs1 evs2 :
  escapes Q X e evs2 -> escapes Q X e (evs1 ++ evs2).
Proof.
  intros [H | H]; [left; exact H | right].
  apply Exists_app. right. exact H.
Qed.

Section Rules.

Variables (I Q : Call -> bool) (X : Js.Exn -> Prop).

Lemma obeys_ret {A} (a : A) : obeys I Q X (ret a).
Proof.
  intros s r s' H. inversion H; subst. exists []. rewrite app_nil_r.
  repeat split; [constructor | discriminate].
Qed.

Lemma obeys_throw {A} e : X e -> obeys I Q X (@throw _ A e).
Proof.
  intros HX s r s' H. inversion H; subst. exists []. rewrite app_nil_r.
  repeat split; [constructor |]. intros e' E. inversion E; subst. left. exact HX.
Qed.

Lemma obeys_bind {A B} (m : M A) (f : A -> M B) :
  obeys I Q X m -> (forall a, obeys I Q X (f a)) -> obeys I Q X (bind m f).
Proof.
  intros Hm Hf s r s' H. apply bind_inv in H.
  destruct H as [(e & H & ->) | (a & s1 & H1 & H2)].
  - destruct (Hm _ _ _ H) as (evs & T & F & E).
    exists evs. repeat split; try assumption.
    intros e0 E0. inversion E0; subst. apply E. reflexivity.
  - destruct (Hm _ _ _ H1) as (evs1 & T1 & F1 & _).
    destruct (Hf a _ _ _ H2) as (evs2 & T2 & F2 & E2).
    exists (evs1 ++ evs2). rewrite T2, T1, app_assoc. split; [reflexivity |].
    split; [apply Forall_app; split; assumption |].
    intros e E. apply escapes_app_r. exact (E2 e E).
Qed.

Lemma obeys_call c : I c = true -> Q c = true -> obeys I Q X (call c).
Proof.
  intros HI HQ s r s' H. apply call_inv in H. destruct H as (w' & P & ->).
  exists [event_of c s r w']. simpl. split; [reflexivity |].
  split; [repeat constructor; exact HI |].
  intros e ->. right. constructor. simpl. split; [reflexivity | exact HQ].
Qed.

Lemma obeys_try_catch {A} Q' X' (m : M A) (h : Js.Exn -> M A) :
  obeys I Q' X' m -> (forall e, obeys I Q X (h e)) -> obeys I Q X (try_catch m h).
Proof.
  intros Hm Hh s r s'. unfold try_catch.
  destruct (m s) as [[e | a] s1] eqn:E; intros H.
  - destruct (Hm _ _ _ E) as (evs1 & T1 & F1 & _).
    destruct (Hh e _ _ _ H) as (evs2 & T2 & F2 & E2).
    exists (evs1 ++ evs2). rewrite T2, T1, app_assoc. split; [reflexivity |].
    split; [apply Forall_app; split; assumption |].
    intros e' E'. apply escapes_app_r. exact (E2 e' E').
  - inversion H; subst. destruct (Hm _ _ _ E) as (evs1 & T1 & F1 & _).
    exists evs1. repeat split; try assumption. discriminate.
Qed.

Lemma obeys_try_finally {A} (m : M A) (fin : M unit) :
  obeys I Q X m -> obeys I Q X fin -> obeys I Q X (try_finally m fin).
Proof.
  intros Hm Hf s r s'. unfold try_finally.
  destruct (m s) as [r1 s1] eqn:E.
  destruct (Hm _ _ _ E) as (evs1 & T1 & F1 & E1).
  destruct (fin s1) as [[e | u] s2] eqn:F; intros H; inversion H; subst;
    destruct (Hf _ _ _ F) as (evs2 & T2 & F2 & E2);
    exists (evs1 ++ evs2); rewrite T2, T1, app_assoc;
    (split; [reflexivity |]); (split; [apply Forall_app; split; assumption |]).
  - intros e' E'. inversion E'; subst. apply escapes_app_r. apply E2. reflexivity.
  - intros e' E'. apply escapes_app_l. exact (E1 e' E').
Qed.

Lemma obeys_pure {A} (g : State -> A) : obeys I Q X (fun s => (inr (g s), s)).
Proof.
  intros s r s' H. inversion H; subst. exists []. rewrite app_nil_r.
  repeat split; [constructor | discriminate].
Qed.

Lemma obeys_set_browserInstance b : obeys I Q X (set_browserInstance b).
Proof.
  intros s r s' H. inversion H; subst. exists []. simpl. rewrite app_nil_r.
  repeat split; [constructor | discriminate].
Qed.

End Rules.

Lemma obeys_weaken {A} (I I' Q Q' : Call -> bool) (X X' : Js.Exn -> Prop) (m : M A) :
  obeys I Q X m ->
  (forall c, I c = true -> I' c = true) ->
  (forall c, Q c = true -> Q' c = true) ->
  (forall e, X e -> X' e) ->
  obeys I' Q' X' m.
Proof.
  intros Hm HI HQ HX s r s' H. destruct (Hm _ _ _ H) as (evs & T & F & E).
  exists evs. split; [exact T |]. split.
  - eapply Forall_impl; [| exact F]. intros ev. apply HI.
  - intros e Er. destruct (E e Er) as [Xe | Ex]; [left; auto | right].
    eapply Exists_impl; [| exact Ex]. intros ev [T1 Q1]. split; auto.
Qed.

Lemma keeps_ret {A} (a : A) : keeps_cache (ret a).
Proof. intros s r s' H. inversion H; reflexivity. Qed.

Lemma keeps_throw {A} e : keeps_cache (@throw _ A e).
Proof. intros s r s' H. inversion H; reflexivity. Qed.

Lemma keeps_pure {A} (g : State -> A) : keeps_cache (fun s => (inr (g s), s)).
Proof. intros s r s' H. inversion H; reflexivity. Qed.

Lemma keeps_call c : keeps_cache (call c).
Proof.
  intros s r s' H. apply call_inv in H. destruct H as (w' & _ & ->). reflexivity.
Qed.

Lemma keeps_bind {A B} (m : M A) (f : A -> M B) :
  keeps_cache m -> (forall a, keeps_cache (f a)) -> keeps_cache (bind m f).
Proof.
  intros Hm Hf s r s' H. apply bind_inv in H.
  destruct H as [(e & H & ->) | (a & s1 & H1 & H2)].
  - exact (Hm _ _ _ H).
  - rewrite (Hf a _ _ _ H2). exact (Hm _ _ _ H1).
Qed.

Lemma keeps_try_catch {A} (m : M A) (h : Js.Exn -> M A) :
  keeps_cache m -> (forall e, keeps_cache (h e)) -> keeps_cache (try_catch m h).
Proof.
  intros Hm Hh s r s'. unfold try_catch.
  destruct (m s) as [[e | a] s1] eqn:E; intros H.
  - rewrite (Hh e _ _ _ H). exact (Hm _ _ _ E).
  - inversion H; subst. exact (Hm _ _ _ E).
Qed.

Lemma keeps_try_finally {A} (m : M A) (fin : M unit) :
  keeps_cache m -> keeps_cache fin -> keeps_cache (try_finally m fin).
Proof.
  intros Hm Hf s r s'. unfold try_finally.
  destruct (m s) as [r1 s1] eqn:E.
  destruct (fin s1) as [[e | u] s2] eqn:F; intros H; inversion H; subst;
    rewrite (Hf _ _ _ F); exact (Hm _ _ _ E).
Qed.

(** ** The helpers of [browser.ts] and the step executor *)

Create HintDb engine.

Ltac obeys_step :=
  first
    [ apply obeys_ret
    | apply obeys_pure
    | match goal with
      | |- obeys _ _ _ (call ?c) => apply (obeys_call _ _ _ c); reflexivity
      end
    | solve [auto with engine]
    | apply obeys_bind; [| intros ?]
    | match goal with
      | |- obeys _ _ _ (match ?x with _ => _ end) => destruct x
      end ].

Ltac keeps_step :=
  first
    [ apply keeps_ret
    | apply keeps_pure
    | match goal with
      | |- keeps_cache (call ?c) => apply (keeps_call c)
      end
    | solve [auto with engine]
    | apply keeps_bind; [| intros ?]
    | match goal with
      | |- keeps_cache (match ?x with _ => _ end) => destruct x
      end ].

(** The code run for one step only issues step calls, and an exception that
    escapes it was thrown by one of them, not by the code itself. *)
Local Notation "'step_obeys' m" :=
  (obeys is_step_call (fun _ => true) (fun _ => False) m)
  (at level 10, m at level 9, only parsing).

Lemma sleep_obeys ms : step_obeys (sleep ms).
Proof. unfold sleep. repeat obeys_step. Qed.

Lemma randomDelay_obeys lo hi : step_obeys (randomDelay lo hi).
Proof. unfold randomDelay. repeat obeys_step. Qed.

Lemma humanType_chars_obeys page sel txt : step_obeys (humanType_chars page sel txt).
Proof. induction txt as [| c txt IH]; simpl; repeat obeys_step. Qed.

Lemma humanType_obeys page sel txt : step_obeys (humanType page sel txt).
Proof. unfold humanType. repeat obeys_step. apply humanType_chars_obeys. Qed.

Lemma takeScreenshot_obeys page label dir : step_obeys (takeScreenshot page label dir).
Proof. unfold takeScreenshot, Date_toISOString. repeat obeys_step. Qed.

Lemma scrollToElement_obeys page sel : step_obeys (scrollToElement page sel).
Proof. unfold scrollToElement, sleep. repeat obeys_step. Qed.

#[local] Hint Resolve sleep_obeys randomDelay_obeys humanType_obeys
  takeScreenshot_obeys scrollToElement_obeys : engine.

Lemma step_action_obeys page st b d result :
  step_obeys (step_action page st b d result).
Proof. unfold step_action. repeat obeys_step. Qed.

Lemma sleep_keeps ms : keeps_cache (sleep ms).
Proof. unfold sleep. repeat keeps_step. Qed.

Lemma randomDelay_keeps lo hi : keeps_cache (randomDelay lo hi).
Proof. unfold randomDelay. repeat keeps_step. Qed.

Lemma humanType_chars_keeps page sel txt : keeps_cache (humanType_chars page sel txt).
Proof. induction txt as [| c txt IH]; simpl; repeat keeps_step. Qed.

Lemma humanType_keeps page sel txt : keeps_cache (humanType page sel txt).
Proof. unfold humanType. repeat keeps_step. apply humanType_chars_keeps. Qed.

Lemma takeScreenshot_keeps page label dir : keeps_cache (takeScreenshot page label dir).
Proof. unfold takeScreenshot, Date_toISOString. repeat keeps_step. Qed.

Lemma scrollToElement_keeps page sel : keeps_cache (scrollToElement page sel).
Proof. unfold scrollToElement, sleep. repeat keeps_step. Qed.

#[local] Hint Resolve sleep_keeps randomDelay_keeps humanType_keeps
  takeScreenshot_keeps scrollToElement_keeps : engine.

Lemma step_action_keeps page st b d result :
  keeps_cache (step_action page st b d result).
Proof. unfold step_action. repeat keeps_step. Qed.

Lemma fails_fast_ret {A} (a : A) : fails_fast (ret a).
Proof.
  intros s r s' H. inversion H; subst. exists []. rewrite app_nil_r.
  split; [reflexivity | constructor].
Qed.

Lemma fails_fast_pure {A} (g : State -> A) : fails_fast (fun s => (inr (g s), s)).
Proof.
  intros s r s' H. inversion H; subst. exists []. rewrite app_nil_r.
  split; [reflexivity | constructor].
Qed.

Lemma fails_fast_call c : fails_fast (call c).
Proof.
  intros s r s' H. apply call_inv in H. destruct H as (w' & _ & ->).
  exists [event_of c s r w']. split; [reflexivity |].
  destruct r as [e | a].
  - exists [], (event_of c s (inl e) w'). repeat split. constructor.
  - repeat constructor.
Qed.

Lemma fails_fast_bind {A B} (m : M A) (f : A -> M B) :
  fails_fast m -> (forall a, fails_fast (f a)) -> fails_fast (bind m f).
Proof.
  intros Hm Hf s r s' H. apply bind_inv in H.
  destruct H as [(e & H & ->) | (a & s1 & H1 & H2)].
  - exact (Hm _ _ _ H).
  - destruct (Hm _ _ _ H1) as (evs1 & T1 & F1).
    destruct (Hf a _ _ _ H2) as (evs2 & T2 & F2).
    exists (evs1 ++ evs2). rewrite T2, T1, app_assoc. split; [reflexivity |].
    destruct r as [e | b].
    + destruct F2 as (pre & ev & -> & Fp & Th).
      exists (evs1 ++ pre), ev. rewrite app_assoc. repeat split; try assumption.
      apply Forall_app. split; assumption.
    + apply Forall_app. split; assumption.
Qed.

Ltac fails_fast_step :=
  first
    [ apply fails_fast_ret
    | apply fails_fast_pure
    | match goal with
      | |- fails_fast (call ?c) => apply (fails_fast_call c)
      end
    | solve [auto with engine]
    | apply fails_fast_bind; [| intros ?]
    | match goal with
      | |- fails_fast (match ?x with _ => _ end) => destruct x
      end ].

Lemma sleep_fails_fast ms : fails_fast (sleep ms).
Proof. unfold sleep. repeat fails_fast_step. Qed.

Lemma randomDelay_fails_fast lo hi : fails_fast (randomDelay lo hi).
Proof. unfold randomDelay. repeat fails_fast_step. Qed.

Lemma humanType_chars_fails_fast page sel txt : fails_fast (humanType_chars page sel txt).
Proof. induction txt as [| c txt IH]; simpl; repeat fails_fast_step. Qed.

Lemma humanType_fails_fast page sel txt : fails_fast (humanType page sel txt).
Proof. unfold humanType. repeat fails_fast_step. apply humanType_chars_fails_fast. Qed.

Lemma takeScreenshot_fails_fast page label dir : fails_fast (takeScreenshot page label dir).
Proof. unfold takeScreenshot, Date_toISOString. repeat fails_fast_step. Qed.

Lemma scrollToElement_fails_fast page sel : fails_fast (scrollToElement page sel).
Proof. unfold scrollToElement, sleep. repeat fails_fast_step. Qed.

#[local] Hint Resolve sleep_fails_fast randomDelay_fails_fast humanType_fails_fast
  takeScreenshot_fails_fast scrollToElement_fails_fast : engine.

(** No branch of the chain catches anything itself. *)
Lemma step_action_fails_fast page st b d result :
  fails_fast (step_action page st b d result).
Proof. unfold step_action. repeat fails_fast_step. Qed.

(** ** [executeStep] *)

(** [executeStep] is its [try] block followed by the [catch] and the timing. *)
Lemma executeStep_unfold page st b d s :
  executeStep page st b d s =
  match step_action page st b d (mkResult st false 0 None None) s with
  | (inr r, s1) =>
      (inr (set_duration (clock (world s1) - clock (world s)) r), s1)
  | (inl e, s1) =>
      (inr (set_duration (clock (world s1) - clock (world s))
              (set_error (Js.String_ e)
                 (set_success false (mkResult st false 0 None None)))), s1)
  end.
Proof.
  unfold executeStep, bind, try_catch, Date_now, ret.
  destruct (step_action page st b d (mkResult st false 0 None None) s)
    as [[e | r] s1]; reflexivity.
Qed.

Lemma executeStep_returns page st b d s :
  exists r s', executeStep page st b d s = (inr r, s').
Proof.
  rewrite executeStep_unfold.
  destruct (step_action page st b d (mkResult st false 0 None None) s)
    as [[e | r] s1]; eauto.
Qed.

Lemma executeStep_obeys page st b d :
  obeys is_step_call (fun _ => false) (fun _ => False) (executeStep page st b d).
Proof.
  intros s r s' H.
  destruct (executeStep_returns page st b d s) as (r0 & s0 & E).
  rewrite E in H. inversion H; subst. clear H.
  rewrite executeStep_unfold in E.
  destruct (step_action page st b d (mkResult st false 0 None None) s)
    as [r1 s1] eqn:A.
  destruct (step_action_obeys _ _ _ _ _ _ _ _ A) as (evs & T & F & _).
  assert (s1 = s') as -> by (destruct r1; inversion E; reflexivity).
  exists evs. repeat split; try assumption. discriminate.
Qed.

Lemma executeStep_keeps page st b d : keeps_cache (executeStep page st b d).
Proof.
  intros s r s' H. rewrite executeStep_unfold in H.
  destruct (step_action page st b d (mkResult st false 0 None None) s)
    as [r1 s1] eqn:A.
  apply step_action_keeps in A.
  destruct r1; inversion H; subst; exact A.
Qed.

Lemma yields_ret {A} (P : A -> Prop) a : P a -> yields P (ret a).
Proof. intros H s a' s' E. inversion E; subst. exact H. Qed.

Lemma yields_bind {A B} (P : B -> Prop) (m : M A) (f : A -> M B) :
  (forall a, yields P (f a)) -> yields P (bind m f).
Proof.
  intros Hf s b s' E. apply bind_inr in E. destruct E as (a & s1 & _ & E).
  exact (Hf a _ _ _ E).
Qed.

Ltac yields_step :=
  first
    [ apply yields_ret; reflexivity
    | apply yields_bind; intros ?
    | match goal with
      | |- yields _ (match ?x with _ => _ end) => destruct x
      end ].

(** No branch touches [result.step]. *)
Lemma step_action_step page st b d result :
  yields (fun r => step r = step result) (step_action page st b d result).
Proof. unfold step_action. repeat yields_step. Qed.

Lemma executeStep_step page st b d s r s' :
  executeStep page st b d s = (inr r, s') -> step r = st.
Proof.
  rewrite executeStep_unfold.
  destruct (step_action page st b d (mkResult st false 0 None None) s)
    as [[e | r1] s1] eqn:A; intros H; inversion H; subst; simpl.
  - reflexivity.
  - exact (step_action_step _ _ _ _ _ _ _ _ A).
Qed.

(** ** The step loop *)

Lemma run_steps_obeys page b d stop json remaining :
  forall i acc,
    obeys is_loop_call is_report_step (fun _ => False)
      (run_steps page b d stop json remaining i acc).
Proof.
  induction remaining as [| st rest IH]; intros i acc; simpl.
  - apply obeys_ret.
  - apply obeys_bind.
    + eapply obeys_weaken; [apply executeStep_obeys | | | ].
      * intros c H. unfold is_loop_call. rewrite H. reflexivity.
      * intros c H. discriminate.
      * intros e H. exact H.
    + intros result. apply obeys_bind.
      * destruct (negb json); [| apply obeys_ret].
        apply (obeys_call _ _ _ (ReportStep result i)); reflexivity.
      * intros _. destruct (negb (success result) && stop); [apply obeys_ret | apply IH].
Qed.

Lemma run_steps_keeps page b d stop json remaining :
  forall i acc, keeps_cache (run_steps page b d stop json remaining i acc).
Proof.
  induction remaining as [| st rest IH]; intros i acc; simpl.
  - apply keeps_ret.
  - apply keeps_bind; [apply executeStep_keeps |].
    intros result. apply keeps_bind.
    + destruct (negb json); [apply (keeps_call (ReportStep result i)) | apply keeps_ret].
    + intros _. destruct (negb (success result) && stop); [apply keeps_ret | apply IH].
Qed.

(** What the loop has recorded when it ends: one outcome per step executed,
    in the order of the flow; all steps unless it stopped at a failure, and
    then nothing after the first failure. *)
Lemma run_steps_tally page b d stop json remaining :
  forall i acc s t s',
    run_steps page b d stop json remaining i acc s = (inr t, s') ->
    exists outs,
      stepResults t = stepResults acc ++ outs /\
      tally_passed t = (tally_passed acc + List.length (filter success outs))%nat /\
      (tally_passed t + tally_failed t =
       tally_passed acc + tally_failed acc + List.length outs)%nat /\
      map step outs = firstn (List.length outs) remaining /\
      (stop = false -> List.length outs = List.length remaining) /\
      (first_failure outs = None -> List.length outs = List.length remaining) /\
      (forall k, stop = true -> first_failure outs = Some k ->
                 List.length outs = S k).
Proof.
  induction remaining as [| st rest IH]; intros i acc s t s' H; simpl in H.
  - inversion H; subst. exists []. rewrite app_nil_r. simpl.
    repeat split; try lia; try reflexivity. intros k _ K. discriminate.
  - apply bind_inr in H. destruct H as (result & s1 & E & H).
    apply bind_inr in H. destruct H as (u & s2 & _ & H).
    pose proof (executeStep_step _ _ _ _ _ _ _ E) as St.
    destruct (success result) eqn:Su; simpl in H.
    + apply IH in H. destruct H as (outs & R & P & PF & Mp & L1 & L2 & L3).
      simpl in R, P, PF. exists (result :: outs). simpl. rewrite Su. simpl.
      rewrite R, <- app_assoc. simpl. rewrite St, Mp.
      repeat split; try lia; try reflexivity.
      * intros K. rewrite (L1 K). reflexivity.
      * intros K. destruct (first_failure outs); [discriminate |].
        rewrite (L2 eq_refl). reflexivity.
      * intros k K1 K2. destruct (first_failure outs) as [k' |]; [| discriminate].
        simpl in K2. injection K2 as <-. rewrite (L3 k' K1 eq_refl). reflexivity.
    + destruct stop; simpl in H.
      * injection H as <- <-. exists [result]. simpl. rewrite Su, St. simpl.
        repeat split; try lia; try reflexivity; try discriminate.
        intros k _ K. inversion K. reflexivity.
      * apply IH in H. destruct H as (outs & R & P & PF & Mp & L1 & L2 & L3).
        simpl in R, P, PF. exists (result :: outs). simpl. rewrite Su. simpl.
        rewrite R, <- app_assoc. simpl. rewrite St, Mp.
        repeat split; try lia; try reflexivity; try discriminate.
Qed.

(** ** The helpers of the runner *)

Lemma newPage_inr browser s page s' :
  newPage browser s = (inr page, s') ->
  browserInstance s' = browserInstance s /\
  exists e1 e2 e3,
    trace s' = trace s ++ [e1; e2; e3] /\
    ev_call e1 = BrowserNewPage browser /\
    ev_call e2 = PageSetUserAgent page userAgent /\
    ev_call e3 = PageEvaluateOnNewDocument page /\
    ev_end e3 = clock (world s').
Proof.
  unfold newPage. intros H.
  apply bind_inr in H. destruct H as (p & s1 & C1 & H).
  apply bind_inr in H. destruct H as (u2 & s2 & C2 & H).
  apply bind_inr in H. destruct H as (u3 & s3 & C3 & H).
  inversion H; subst. clear H.
  apply call_inv in C1. destruct C1 as (w1 & _ & ->).
  apply call_inv in C2. destruct C2 as (w2 & _ & ->).
  apply call_inv in C3. destruct C3 as (w3 & _ & ->).
  simpl. split; [reflexivity |].
  do 3 eexists. rewrite <- !app_assoc. simpl. repeat split.
Qed.

Lemma launchBrowser_inr options s browser s' :
  launchBrowser options s = (inr browser, s') ->
  browserInstance s' = Some browser /\
  exists evs, trace s' = trace s ++ evs /\
              Forall (fun ev => is_acquire_call (ev_call ev) = true) evs.
Proof.
  unfold launchBrowser, bind, get_browserInstance.
  destruct (browserInstance s) as [b0 |] eqn:B.
  - intros H. inversion H; subst. split; [exact B |].
    exists []. rewrite app_nil_r. split; [reflexivity | constructor].
  - destruct (call _ s) as [[e | b1] s1] eqn:C; intros H; [discriminate |].
    inversion H; subst. clear H.
    apply call_inv in C. destruct C as (w1 & _ & ->). simpl.
    split; [reflexivity |]. eexists. split; [reflexivity |].
    repeat constructor.
Qed.

(** With a browser in the cache, [launchBrowser] hands it out again and
    launches nothing. *)
Lemma launchBrowser_cached options s browser :
  browserInstance s = Some browser ->
  launchBrowser options s = (inr browser, s).
Proof.
  intros B. unfold launchBrowser, bind, get_browserInstance. rewrite B. reflexivity.
Qed.

(** ** A run that returns *)

(** The stages a returning run of [run_flow] went through. *)
Lemma run_flow_inr options flow s r s' :
  run_flow options flow s = (inr r, s') ->
  let dir := default "./screenshots" (opt_screenshotDir options) in
  let headless := default true (opt_headless options) in
  let stop := default false (opt_stopOnFailure options) in
  let json := default false (opt_jsonOutput options) in
  let url := effective_baseUrl (opt_baseUrl options) flow in
  exists present s1 s2 s3 browser s4 page s5 tally s6 s7 s8 n s9,
    call (FsExistsSync dir) s = (inr present, s1) /\
    (if negb present then call (FsMkdirSync dir) else ret tt) s1 = (inr tt, s2) /\
    (if negb json then call (PrintTestHeader (Some (flow_name flow)) url) else ret tt) s2
      = (inr tt, s3) /\
    launchBrowser (mkBrowserOptions (Some headless) None None) s3 = (inr browser, s4) /\
    newPage browser s4 = (inr page, s5) /\
    run_steps page url dir stop json (flow_steps flow) 0%nat (mkTally [] 0%nat 0%nat) s5
      = (inr tally, s6) /\
    call (PageClose page) s6 = (inr tt, s7) /\
    call (BrowserClose browser) s7 = (inr tt, s8) /\
    call (RecordTestRun
            (mkRecord (flow_name flow) url (tally_passed tally) (tally_failed tally)
               (List.length (flow_steps flow))
               (clock (world s8) - clock (world s5)) (isoString (world s8)))) s8
      = (inr n, s9) /\
    (if json then call (ConsoleLogJsonReport r) else call (ReportSummary r)) s9
      = (inr tt, s') /\
    r = mkResults (flow_name flow) url (stepResults tally)
          (tally_passed tally) (tally_failed tally)
          (List.length (flow_steps flow))
          (clock (world s8) - clock (world s5)) dir.
Proof.
  unfold run_flow. intros H. cbv zeta.
  apply bind_inr in H. destruct H as (present & s1 & H1 & H).
  apply bind_inr in H. destruct H as ([] & s2 & H2 & H).
  apply bind_inr in H. destruct H as ([] & s3 & H3 & H).
  apply bind_inr in H. destruct H as (browser & s4 & H4 & H).
  apply bind_inr in H. destruct H as (page & s5 & H5 & H).
  apply bind_inr in H. destruct H as (startTime & s5' & T5 & H).
  injection T5 as <- <-.
  apply bind_inr in H. destruct H as (tally & s8 & H6 & H).
  apply try_finally_inr in H6. destruct H6 as (s6 & H6 & H7).
  apply bind_inr in H7. destruct H7 as ([] & s7 & H7 & H8).
  apply bind_inr in H. destruct H as (now & s8' & T8 & H).
  injection T8 as <- <-.
  apply bind_inr in H. destruct H as (created & s8' & T8 & H).
  injection T8 as <- <-.
  apply bind_inr in H. destruct H as (n & s9 & H9 & H).
  apply bind_inr in H. destruct H as ([] & s10 & H10 & H).
  injection H as <- <-.
  exists present, s1, s2, s3, browser, s4, page, s5, tally, s6, s7, s8, n, s9.
  destruct (call (BrowserClose browser) s7) as [[e | []] s8''] eqn:H8'; [discriminate |].
  injection H8 as <-.
  repeat split; assumption.
Qed.

(* ================================================================== *)
(** * The flow runner: outcomes and counters *)
(* ================================================================== *)

Lemma runTestFlow_loaded options s flow s0 :
  load_flow options s = (inr (ParsedFlow flow), s0) ->
  runTestFlow options s = run_flow options flow s0.
Proof. intros L. unfold runTestFlow. rewrite (bind_ok _ _ _ _ _ L). reflexivity. Qed.

(** A loaded value without [steps] never gives a result. *)
Lemma run_stepless_throws options name b n s r s' :
  run_stepless options name b n s = (inr r, s') -> False.
Proof.
  unfold run_stepless. cbv zeta. intros H.
  apply bind_inr in H. destruct H as (present & s1 & _ & H).
  apply bind_inr in H. destruct H as (u2 & s2 & _ & H).
  apply bind_inr in H. destruct H as (u3 & s3 & _ & H).
  apply bind_inr in H. destruct H as (browser & s4 & _ & H).
  apply bind_inr in H. destruct H as (page & s5 & _ & H).
  apply bind_inr in H. destruct H as (startTime & s6 & _ & H).
  apply try_finally_inr in H. destruct H as (s7 & H & _). discriminate H.
Qed.

Lemma run_null_throws options s r s' :
  run_null options s = (inr r, s') -> False.
Proof.
  unfold run_null. cbv zeta. intros H.
  apply bind_inr in H. destruct H as (url & s0 & _ & H).
  apply bind_inr in H. destruct H as (present & s1 & _ & H).
  apply bind_inr in H. destruct H as (u2 & s2 & _ & H).
  apply bind_inr in H. destruct H as (u3 & s3 & _ & H).
  apply bind_inr in H. destruct H as (browser & s4 & _ & H).
  apply bind_inr in H. destruct H as (page & s5 & _ & H).
  apply bind_inr in H. destruct H as (startTime & s6 & _ & H).
  apply try_finally_inr in H. destruct H as (s7 & H & _). discriminate H.
Qed.

(** A run that returns ran a flow that fits the interface. *)
Lemma run_loaded_inr options loaded s r s' :
  run_loaded options loaded s = (inr r, s') ->
  exists flow, loaded = ParsedFlow flow /\ run_flow options flow s = (inr r, s').
Proof.
  destruct loaded as [flow | name b n |]; simpl; intros H.
  - exists flow. split; [reflexivity | exact H].
  - exfalso. exact (run_stepless_throws _ _ _ _ _ _ _ H).
  - exfalso. exact (run_null_throws _ _ _ _ H).
Qed.

Lemma runTestFlow_inr options s r s' :
  runTestFlow options s = (inr r, s') ->
  exists flow s0,
    load_flow options s = (inr (ParsedFlow flow), s0) /\
    run_flow options flow s0 = (inr r, s').
Proof.
  intros H. unfold runTestFlow in H. apply bind_inr in H.
  destruct H as (loaded & s0 & L & H).
  apply run_loaded_inr in H. destruct H as (flow & -> & H).
  exists flow, s0. split; assumption.
Qed.


(** C8.  With stop-on-failure disabled, a returned run has [total] equal
    to the number N of steps of the flow and exactly N outcomes, those of
    the flow's steps in order, whatever their success. *)
Theorem C8_continue_on_failure options s flow s0 r s' :
  load_flow options s = (inr (ParsedFlow flow), s0) ->
  default false (opt_stopOnFailure options) = false ->
  runTestFlow options s = (inr r, s') ->
  total r = List.length (flow_steps flow) /\
  List.length (steps r) = List.length (flow_steps flow) /\
  map step (steps r) = flow_steps flow.
Proof.
  intros L Stop H. rewrite (runTestFlow_loaded _ _ _ _ L) in H.
  apply run_flow_inr in H. cbv zeta in H.
  destruct H as (present & s1 & s2 & s3 & browser & s4 & page & s5 & tally
                 & s6 & s7 & s8 & n & s9 & _ & _ & _ & _ & _ & Loop & _ & _ & _ & _ & ->).
  simpl. rewrite Stop in Loop.
  apply run_steps_tally in Loop.
  destruct Loop as (outs & R & _ & _ & Mp & L1 & _ & _).
  simpl in R. rewrite R. specialize (L1 eq_refl).
  rewrite L1, firstn_all in Mp. repeat split; assumption.
Qed.


(* ================================================================== *)
(** * The step executor *)
(* ================================================================== *)

(** ** Strings *)

Lemma append_assoc (a b c : string) : ((a ++ b) ++ c = a ++ b ++ c)%string.
Proof. induction a as [| x a IH]; simpl; [reflexivity | rewrite IH; reflexivity]. Qed.

Lemma prefix_app p q : String.prefix p (p ++ q)%string = true.
Proof.
  induction p as [| a p IH]; simpl; [destruct q; reflexivity |].
  destruct (ascii_dec a a) as [_ | N]; [exact IH | contradiction].
Qed.

Lemma prefix_split p t :
  String.prefix p t = true -> exists q, t = (p ++ q)%string.
Proof.
  revert t. induction p as [| a p IH]; intros t H.
  - exists t. reflexivity.
  - destruct t as [| c t]; simpl in H; [discriminate |].
    destruct (ascii_dec a c) as [<- | N]; [| discriminate].
    destruct (IH t H) as (q & ->). exists q. reflexivity.
Qed.

Lemma includes_unfold t sub :
  Js.includes t sub =
  String.prefix sub t ||
  match t with EmptyString => false | String _ t' => Js.includes t' sub end.
Proof. destruct t; reflexivity. Qed.

(** [includes] is substring containment. *)
Lemma includes_spec t sub :
  Js.includes t sub = true <->
  exists pre post, t = (pre ++ sub ++ post)%string.
Proof.
  split.
  - induction t as [| c t IH]; rewrite includes_unfold; intros H;
      apply orb_true_iff in H; destruct H as [H | H]; try discriminate.
    + apply prefix_split in H. destruct H as (q & ->). exists EmptyString, q. reflexivity.
    + apply prefix_split in H. destruct H as (q & ->). exists EmptyString, q. reflexivity.
    + destruct (IH H) as (pre & post & ->). exists (String c pre), post. reflexivity.
  - intros (pre & post & ->). induction pre as [| c pre IH].
    + rewrite includes_unfold. simpl. rewrite prefix_app. reflexivity.
    + change (Js.includes (String c (pre ++ sub ++ post)) sub = true).
      simpl. rewrite IH. apply orb_true_r.
Qed.

Lemma substring_0_length n t : (String.length (String.substring 0 n t) <= n)%nat.
Proof.
  revert t. induction n as [| n IH]; intros [| c t]; simpl; try lia.
  specialize (IH t). lia.
Qed.

Lemma substring_0_prefix n t : String.prefix (String.substring 0 n t) t = true.
Proof.
  revert t. induction n as [| n IH]; intros [| c t]; simpl; try reflexivity.
  destruct (ascii_dec c c) as [_ | N]; [apply IH | contradiction].
Qed.

Lemma substring_0_short n t :
  (String.length t <= n)%nat -> String.substring 0 n t = t.
Proof.
  revert t. induction n as [| n IH]; intros [| c t]; simpl; intros L;
    try reflexivity; try lia.
  rewrite IH; [reflexivity | lia].
Qed.

(** [content || ''] *)
Lemma or_else_empty content :
  Js.or_else Js.truthy_string content EmptyString =
  match content with Some t => t | None => EmptyString end.
Proof.
  destruct content as [t |]; [| reflexivity]. unfold Js.or_else, Js.truthy_string.
  destruct (String.eqb t EmptyString) eqn:E; [| reflexivity].
  apply String.eqb_eq in E. symmetry. exact E.
Qed.

(** ** Every step yields an outcome *)

(** C2.  [executeStep] returns an outcome from every state and never
    throws.  When its [try] block throws [e], the outcome has [success] false
    and [error] the string of [e]; and whenever a call made during the step
    threw [e], that is the outcome. *)
Theorem C2_executeStep_never_throws page st b d s :
  (exists r s', executeStep page st b d s = (inr r, s')) /\
  (forall e s1,
     step_action page st b d (mkResult st false 0 None None) s = (inl e, s1) ->
     exists r, executeStep page st b d s = (inr r, s1) /\
               success r = false /\ error r = Some (Js.String_ e)) /\
  (forall r s' evs ev e,
     executeStep page st b d s = (inr r, s') ->
     trace s' = trace s ++ evs ->
     In ev evs -> ev_threw ev = Some e ->
     success r = false /\ error r = Some (Js.String_ e)).
Proof.
  split; [apply executeStep_returns |]. split.
  - intros e s1 H. rewrite executeStep_unfold, H.
    eexists. split; [reflexivity |]. split; reflexivity.
  - intros r s' evs ev e H T In_ev Th. rewrite executeStep_unfold in H.
    destruct (step_action page st b d (mkResult st false 0 None None) s)
      as [[e0 | r1] s1] eqn:A;
      destruct (step_action_fails_fast _ _ _ _ _ _ _ _ A) as (evs' & T' & F);
      injection H as <- <-; rewrite T in T'; apply app_inv_head in T'; subst evs'.
    + destruct F as (pre & ev0 & -> & Fp & Th0).
      apply in_app_or in In_ev. destruct In_ev as [In_pre | [<- | []]].
      * rewrite Forall_forall in Fp. rewrite (Fp ev In_pre) in Th. discriminate.
      * rewrite Th in Th0. injection Th0 as <-. split; reflexivity.
    + rewrite Forall_forall in F. rewrite (F ev In_ev) in Th. discriminate.
Qed.

Ltac pick_branch H :=
  unfold selected in H;
  repeat match type of H with
         | context [match ?x with _ => _ end] =>
             destruct x eqn:?; try discriminate H
         end.

Lemma unmatched_step_fails page st b d s :
  selected st = Unknown ->
  executeStep page st b d s =
  (inr (mkResult st false 0
          (Some ("Unknown step type: " ++ JSON_stringify st)%string) None), s).
Proof.
  intros H. rewrite executeStep_unfold. unfold step_action.
  pick_branch H;
    repeat match goal with E : _ = _ |- _ => rewrite E; clear E end;
    unfold ret, set_duration, set_error; simpl; rewrite Z.sub_diag; reflexivity.
Qed.

(** ** Verification *)

Lemma substring_0_long n t :
  (n <= String.length t)%nat -> String.length (String.substring 0 n t) = n.
Proof.
  revert t. induction n as [| n IH]; intros [| c t]; simpl; intros L;
    try reflexivity; try lia.
  rewrite IH; [reflexivity | lia].
Qed.

(** C4.  For a verify step whose element is found (the wait and the read
    of its text content both return), the outcome succeeds exactly when the
    lower-cased text contains the lower-cased expected string, and then has no
    error; on mismatch the error is the message [Expected "..." but found
    "..."] that holds the expected string and a snippet of the text, which is
    the text cut to its first 100 characters: the whole text when it has at
    most 100 characters, its first 100 characters otherwise. *)
Theorem C4_verify_case_insensitive page st b d s sel expected content w1 w2 :
  selected st = Verify sel expected ->
  perform (PageWaitForSelector page (resolveSelector sel) false
             (Some (Js.or_else Js.truthy_number (timeout st) 10000)))
          (world s) = (inr tt, w1) ->
  perform (PageTextContent page (resolveSelector sel)) w1 = (inr content, w2) ->
  let text := match content with Some t => t | None => EmptyString end in
  let snippet := Js.slice text 0 100 in
  exists r s',
    executeStep page st b d s = (inr r, s') /\
    (success r = true <->
     exists pre post, toLowerCase text = (pre ++ toLowerCase expected ++ post)%string) /\
    (success r = true -> error r = None) /\
    (success r = false ->
     exists msg,
       error r = Some msg /\
       msg = ("Expected " ++ Js.dquote ++ expected ++ Js.dquote ++ " but found "
                ++ Js.dquote ++ snippet ++ Js.dquote)%string /\
       Js.includes msg expected = true /\
       Js.includes msg snippet = true /\
       (String.length snippet <= 100)%nat /\
       String.prefix snippet text = true /\
       ((String.length text <= 100)%nat -> snippet = text) /\
       ((100 <= String.length text)%nat -> String.length snippet = 100%nat)).
Proof.
  intros H W T text snippet. rewrite executeStep_unfold. unfold step_action.
  pick_branch H; injection H as -> ->;
    repeat match goal with E : _ = _ |- _ => rewrite E; clear E end;
    (erewrite bind_ok; [| apply call_perform; exact W]);
    (erewrite bind_ok; [| apply call_perform; exact T]);
    rewrite or_else_empty; fold text; fold snippet;
    destruct (Js.includes (toLowerCase text) (toLowerCase expected)) eqn:Inc;
    unfold ret; do 2 eexists; (split; [reflexivity |]); simpl.
  all: split; [rewrite <- includes_spec, Inc; split; congruence |].
  all: split; [intros F; try discriminate F; reflexivity |].
  all: intros F; try discriminate F.
  all: eexists; split; [reflexivity |].
  all: split; [reflexivity |].
  all: repeat split.
  all: try apply substring_0_length.
  all: try apply substring_0_prefix.
  all: try (intros L; apply substring_0_short; exact L).
  all: try (intros L; apply substring_0_long; exact L).
  all: apply includes_spec.
  all: try (exists ("Expected " ++ Js.dquote)%string,
              (Js.dquote ++ " but found " ++ Js.dquote ++ snippet ++ Js.dquote)%string;
            reflexivity).
  all: exists (("Expected " ++ Js.dquote) ++ expected ++ Js.dquote ++ " but found " ++ Js.dquote)%string,
         Js.dquote;
    rewrite !append_assoc; reflexivity.
Qed.

(** ** Timeouts *)

Lemma first_call_call c s : first_call s (snd (call c s)) = Some c.
Proof.
  destruct (call c s) as [r s'] eqn:C. apply call_inv in C.
  destruct C as (w' & _ & ->). unfold first_call. simpl.
  rewrite nth_error_app2 by lia. rewrite Nat.sub_diag. reflexivity.
Qed.

Lemma first_call_bind_l {A B} I Q X (m : M A) (f : A -> M B) s c :
  first_call s (snd (m s)) = Some c ->
  (forall a, obeys I Q X (f a)) ->
  first_call s (snd (bind m f s)) = Some c.
Proof.
  intros F Hf. unfold bind. destruct (m s) as [[e | a] s1] eqn:E; [exact F |].
  simpl in F. destruct (f a s1) as [r s'] eqn:E2. simpl.
  destruct (Hf a _ _ _ E2) as (evs & T & _). unfold first_call in *. rewrite T.
  destruct (nth_error (trace s1) (List.length (trace s))) as [ev |] eqn:N;
    [| discriminate].
  rewrite nth_error_app1; [rewrite N; exact F |].
  apply nth_error_Some. rewrite N. discriminate.
Qed.

Lemma executeStep_state page st b d s :
  snd (executeStep page st b d s) =
  snd (step_action page st b d (mkResult st false 0 None None) s).
Proof.
  rewrite executeStep_unfold.
  destruct (step_action page st b d (mkResult st false 0 None None) s)
    as [[e | r] s1]; reflexivity.
Qed.

Lemma or_else_timeout t dflt :
  Js.or_else Js.truthy_number t dflt = effective_timeout t dflt.
Proof.
  destruct t as [n |]; [| reflexivity]. unfold Js.or_else, Js.truthy_number. simpl.
  destruct (n =? 0); reflexivity.
Qed.

Ltac first_call_tac :=
  repeat (eapply (first_call_bind_l is_step_call (fun _ => true) (fun _ => False));
          [| intros; repeat obeys_step]);
  apply first_call_call.

(** C7 (amended).  The wait that [executeStep] itself issues for navigate,
    click, type, waitFor, verify, hover and select is the first call of the
    step, and its timeout is the step's own [timeout] when that is specified
    and not 0, and otherwise (absent, or 0) the default: 30000 ms for navigate
    and waitFor, 10000 ms for click, type, verify, hover and select.  The wait
    of scroll is given no timeout. *)
Theorem C7_effective_timeout page st b d s :
  let T := effective_timeout (timeout st) in
  let issued := first_call s (snd (executeStep page st b d s)) in
  match selected st with
  | Navigate target =>
      issued = Some (PageGoto page
                       (if Js.startsWith target "http" then target else (b ++ target)%string)
                       (T 30000))
  | Click sel =>
      issued = Some (PageWaitForSelector page (resolveSelector sel) true (Some (T 10000)))
  | TypeText sel _ =>
      issued = Some (PageWaitForSelector page (resolveSelector sel) true (Some (T 10000)))
  | WaitFor sel =>
      issued = Some (PageWaitForSelector page (resolveSelector sel) true (Some (T 30000)))
  | Verify sel _ =>
      issued = Some (PageWaitForSelector page (resolveSelector sel) false (Some (T 10000)))
  | Hover sel =>
      issued = Some (PageWaitForSelector page (resolveSelector sel) true (Some (T 10000)))
  | Select sel _ =>
      issued = Some (PageWaitForSelector page (resolveSelector sel) false (Some (T 10000)))
  | Scroll sel =>
      issued = Some (PageWaitForSelector page (resolveSelector sel) false None)
  | _ => True
  end.
Proof.
  intros T issued. subst T issued. rewrite executeStep_state.
  destruct (selected st) eqn:H; try exact I0; try exact I;
    unfold step_action; pick_branch H; injection H as H; subst;
    repeat match goal with E : _ = _ |- _ => rewrite E; clear E end;
    rewrite <- ?or_else_timeout; unfold scrollToElement; first_call_tac.
Qed.

(** ** Steps no guard accepts *)

(** C3 (amended).  A step object on which no guard of the chain holds (no
    action tag, or only tags whose companion field is absent) gets, without
    any call being made, the outcome [success] false with the error
    [Unknown step type: ] followed by the serialised step.  On every other
    step object a call is made, and the first call is the first call of the
    action of the first guard that holds: a tag whose companion field is
    absent does not stop the chain, so that with a [type] tag without [text]
    and a [waitFor] tag (and neither [goto] nor [click]) the wait of [waitFor]
    is issued. *)
Theorem C3_unmatched_step_fails page st b d s :
  (selected st = Unknown ->
   executeStep page st b d s =
   (inr (mkResult st false 0
           (Some ("Unknown step type: " ++ JSON_stringify st)%string) None), s)) /\
  (selected st <> Unknown ->
   let T := effective_timeout (timeout st) in
   first_call s (snd (executeStep page st b d s)) =
   match selected st with
   | Navigate target =>
       Some (PageGoto page
               (if Js.startsWith target "http" then target else (b ++ target)%string)
               (T 30000))
   | Click sel | TypeText sel _ | Hover sel =>
       Some (PageWaitForSelector page (resolveSelector sel) true (Some (T 10000)))
   | WaitFor sel =>
       Some (PageWaitForSelector page (resolveSelector sel) true (Some (T 30000)))
   | Screenshot label =>
       Some (PageScreenshot page
               (d ++ "/" ++ label ++ "-" ++ Js.replace_colon_dot (isoString (world s))
                  ++ ".png")%string)
   | Verify sel _ | Select sel _ =>
       Some (PageWaitForSelector page (resolveSelector sel) false (Some (T 10000)))
   | Wait ms => Some (SetTimeout ms)
   | Scroll sel => Some (PageWaitForSelector page (resolveSelector sel) false None)
   | PressKey key => Some (KeyboardPress page key)
   | Evaluate script => Some (PageEvaluate page script)
   | Unknown => None
   end) /\
  (forall sel,
     goto st = None -> click st = None -> text st = None -> waitFor st = Some sel ->
     first_call s (snd (executeStep page st b d s)) =
     Some (PageWaitForSelector page (resolveSelector sel) true
             (Some (effective_timeout (timeout st) 30000)))).
Proof.
  assert (Second :
    selected st <> Unknown ->
    first_call s (snd (executeStep page st b d s)) =
    match selected st with
    | Navigate target =>
        Some (PageGoto page
                (if Js.startsWith target "http" then target else (b ++ target)%string)
                (effective_timeout (timeout st) 30000))
    | Click sel | TypeText sel _ | Hover sel =>
        Some (PageWaitForSelector page (resolveSelector sel) true
                (Some (effective_timeout (timeout st) 10000)))
    | WaitFor sel =>
        Some (PageWaitForSelector page (resolveSelector sel) true
                (Some (effective_timeout (timeout st) 30000)))
    | Screenshot label =>
        Some (PageScreenshot page
                (d ++ "/" ++ label ++ "-" ++ Js.replace_colon_dot (isoString (world s))
                   ++ ".png")%string)
    | Verify sel _ | Select sel _ =>
        Some (PageWaitForSelector page (resolveSelector sel) false
                (Some (effective_timeout (timeout st) 10000)))
    | Wait ms => Some (SetTimeout ms)
    | Scroll sel => Some (PageWaitForSelector page (resolveSelector sel) false None)
    | PressKey key => Some (KeyboardPress page key)
    | Evaluate script => Some (PageEvaluate page script)
    | Unknown => None
    end).
  { intros N. rewrite executeStep_state.
    destruct (selected st) eqn:H; try (exfalso; apply N; reflexivity);
      unfold step_action; pick_branch H; injection H as H; subst;
      repeat match goal with E : _ = _ |- _ => rewrite E; clear E end;
      rewrite <- ?or_else_timeout;
      unfold scrollToElement, sleep, takeScreenshot, Date_toISOString;
      first
        [ first_call_tac
        | repeat (eapply (first_call_bind_l is_step_call (fun _ => true) (fun _ => False));
                  [| intros; repeat obeys_step]);
          match goal with
          | |- first_call _ (snd (call ?c _)) = _ => exact (first_call_call c _)
          end
        | eapply (first_call_bind_l is_step_call (fun _ => true) (fun _ => False));
          [| intros; repeat obeys_step];
          match goal with
          | |- context [bind (fun s1 => (inr (isoString (world s1)), s1)) ?f ?s0] =>
              change (bind (fun s1 => (inr (isoString (world s1)), s1)) f s0)
                with (f (isoString (world s0)) s0)
          end;
          cbv beta; first_call_tac ]. }
  split; [apply unmatched_step_fails |]. split; [exact Second |].
  intros sel G C Tx W.
  assert (Sel : selected st = WaitFor sel).
  { unfold selected. rewrite G, C, Tx, W. destruct (type st); reflexivity. }
  rewrite Second; rewrite Sel; [reflexivity | discriminate].
Qed.

(* ================================================================== *)
(** * The flow runner: session, timing, persistence *)
(* ================================================================== *)

Lemma call_inr c s a s' :
  call c s = (inr a, s') ->
  browserInstance s' = browserInstance s /\
  exists ev,
    trace s' = trace s ++ [ev] /\
    ev_call ev = c /\ ev_threw ev = None /\
    ev_start ev = clock (world s) /\ ev_end ev = clock (world s').
Proof.
  intros H. apply call_inv in H. destruct H as (w' & _ & ->). simpl.
  split; [reflexivity |]. eexists. split; [reflexivity |]. repeat split.
Qed.

Lemma load_flow_obeys options :
  obeys is_load_call is_load_call is_flow_error (load_flow options).
Proof.
  unfold load_flow, loadTestFlow.
  destruct (opt_flow options); [apply obeys_ret |].
  destruct (opt_flowPath options) as [path |].
  - destruct (Js.truthy_string path).
    + repeat obeys_step. apply obeys_throw. right. eexists. reflexivity.
    + apply obeys_throw. left. reflexivity.
  - apply obeys_throw. left. reflexivity.
Qed.

(** The log of a returning run: whatever came before, the last call of
    session acquisition, the calls of the step loop, then the two release
    calls, the record-run call and the summary, all of which returned. *)
Lemma run_flow_log options flow s r s' :
  run_flow options flow s = (inr r, s') ->
  exists browser page pre e_acq loop e_pc e_bc e_rec e_sum,
    trace s' = trace s ++ pre ++ [e_acq] ++ loop ++ [e_pc; e_bc; e_rec; e_sum] /\
    ev_call e_acq = PageEvaluateOnNewDocument page /\
    Forall (fun ev => is_loop_call (ev_call ev) = true) loop /\
    ev_call e_pc = PageClose page /\
    (ev_call e_bc = BrowserClose browser /\ ev_threw e_bc = None) /\
    (is_record_call (ev_call e_rec) = true /\ ev_threw e_rec = None) /\
    is_summary_call (ev_call e_sum) = true /\
    run_duration r = ev_end e_bc - ev_end e_acq /\
    browserInstance s' = Some browser.
Proof.
  intros H. apply run_flow_inr in H. cbv zeta in H.
  destruct H as (present & s1 & s2 & s3 & browser & s4 & page & s5 & tally
                 & s6 & s7 & s8 & n & s9
                 & H1 & H2 & H3 & H4 & H5 & H6 & H7 & H8 & H9 & H10 & ->).
  apply call_inr in H1. destruct H1 as (_ & ev1 & T1 & _).
  assert (exists evs2, trace s2 = trace s1 ++ evs2) as (evs2 & T2).
  { assert (obeys (fun _ => true) (fun _ => true) (fun _ => False)
              (if negb present
               then call (FsMkdirSync (default "./screenshots" (opt_screenshotDir options)))
               else ret tt)) as O by repeat obeys_step.
    destruct (O _ _ _ H2) as (evs & T & _). eauto. }
  assert (exists evs3, trace s3 = trace s2 ++ evs3) as (evs3 & T3).
  { assert (obeys (fun _ => true) (fun _ => true) (fun _ => False)
              (if negb (default false (opt_jsonOutput options))
               then call (PrintTestHeader (Some (flow_name flow))
                            (effective_baseUrl (opt_baseUrl options) flow))
               else ret tt)) as O by repeat obeys_step.
    destruct (O _ _ _ H3) as (evs & T & _). eauto. }
  apply launchBrowser_inr in H4. destruct H4 as (B4 & evs4 & T4 & _).
  apply newPage_inr in H5.
  destruct H5 as (B5 & e1 & e2 & e3 & T5 & _ & _ & C3 & End3).
  pose proof (run_steps_keeps _ _ _ _ _ _ _ _ _ _ _ H6) as B6.
  destruct (run_steps_obeys _ _ _ _ _ _ _ _ _ _ _ H6) as (loop & T6 & F6 & _).
  apply call_inr in H7. destruct H7 as (B7 & e7 & T7 & C7 & _).
  apply call_inr in H8. destruct H8 as (B8 & e8 & T8 & C8 & Ok8 & _ & End8).
  apply call_inr in H9. destruct H9 as (B9 & e9 & T9 & C9 & Ok9 & _).
  assert (browserInstance s' = browserInstance s9 /\
          exists e10, trace s' = trace s9 ++ [e10] /\
                      is_summary_call (ev_call e10) = true) as (B10 & e10 & T10 & C10).
  { destruct (default false (opt_jsonOutput options));
      [ apply (call_inr (ConsoleLogJsonReport _)) in H10
      | apply (call_inr (ReportSummary _)) in H10 ];
      destruct H10 as (B & ev & T & C & _);
      (split; [exact B |]); exists ev; (split; [exact T |]); rewrite C; reflexivity. }
  exists browser, page, ([ev1] ++ evs2 ++ evs3 ++ evs4 ++ [e1; e2]), e3, loop, e7, e8, e9, e10.
  split.
  { rewrite T10, T9, T8, T7, T6, T5, T4, T3, T2, T1.
    repeat rewrite <- app_assoc. reflexivity. }
  split; [exact C3 |]. split; [exact F6 |]. split; [exact C7 |].
  split; [split; assumption |].
  split; [split; [rewrite C9; reflexivity | exact Ok9] |].
  split; [exact C10 |].
  split; [simpl; rewrite End8, End3; reflexivity |].
  rewrite B10, B9, B8, B7, B6, B5. exact B4.
Qed.

(** ** Timing *)

Lemma find_skip {A} (p : A -> bool) l l' :
  Forall (fun x => p x = false) l -> find p (l ++ l') = find p l'.
Proof.
  induction 1 as [| x l Hx _ IH]; simpl; [reflexivity |]. rewrite Hx. exact IH.
Qed.

Lemma find_last {A} (p : A -> bool) pre x post :
  p x = true -> Forall (fun y => p y = false) post ->
  find p (rev (pre ++ x :: post)) = Some x.
Proof.
  intros Hx Hpost. rewrite rev_app_distr. simpl. rewrite <- app_assoc.
  rewrite find_skip by (apply Forall_rev; exact Hpost).
  simpl. rewrite Hx. reflexivity.
Qed.

Lemma loop_call_not_session c :
  is_loop_call c = true -> is_acquire_call c = false /\ is_release_call c = false.
Proof. destruct c; simpl; intros H; try discriminate H; split; reflexivity. Qed.

Lemma record_call_not_session c :
  is_record_call c = true -> is_acquire_call c = false /\ is_release_call c = false.
Proof. destruct c; simpl; intros H; try discriminate H; split; reflexivity. Qed.

Lemma summary_call_not_session c :
  is_summary_call c = true -> is_acquire_call c = false /\ is_release_call c = false.
Proof. destruct c; simpl; intros H; try discriminate H; split; reflexivity. Qed.

(** C5 (amended).  The duration of a returned run is measured from the
    moment session acquisition has ended (the page is created and set up) to
    the moment session release has ended (page and browser are closed): it
    includes the release time and leaves the acquisition time out. *)
Theorem C5_duration_window options s r s' :
  runTestFlow options s = (inr r, s') ->
  exists evs t_acquired t_released,
    trace s' = trace s ++ evs /\
    acquisition_ended evs = Some t_acquired /\
    release_ended evs = Some t_released /\
    run_duration r = t_released - t_acquired.
Proof.
  intros H. apply runTestFlow_inr in H. destruct H as (flow & s0 & L & H).
  destruct (load_flow_obeys _ _ _ _ L) as (evs0 & T0 & _).
  apply run_flow_log in H.
  destruct H as (browser & page & pre & e_acq & loop & e_pc & e_bc & e_rec & e_sum
                 & T & CA & FL & CP & (CB & _) & (CR & _) & CS & D & _).
  destruct (record_call_not_session _ CR) as (RA & RR).
  destruct (summary_call_not_session _ CS) as (SA & SR).
  exists (evs0 ++ pre ++ [e_acq] ++ loop ++ [e_pc; e_bc; e_rec; e_sum]),
         (ev_end e_acq), (ev_end e_bc).
  split; [rewrite T, T0, <- app_assoc; reflexivity |].
  split; [| split; [| exact D]].
  - unfold acquisition_ended.
    replace (evs0 ++ pre ++ [e_acq] ++ loop ++ [e_pc; e_bc; e_rec; e_sum])
      with ((evs0 ++ pre) ++ e_acq :: (loop ++ [e_pc; e_bc; e_rec; e_sum]))
      by (rewrite <- app_assoc; reflexivity).
    rewrite find_last; [reflexivity | rewrite CA; reflexivity |].
    apply Forall_app. split.
    + eapply Forall_impl; [| exact FL]. intros ev E.
      apply (loop_call_not_session _ E).
    + repeat constructor; try assumption; [rewrite CP | rewrite CB]; reflexivity.
  - unfold release_ended.
    replace (evs0 ++ pre ++ [e_acq] ++ loop ++ [e_pc; e_bc; e_rec; e_sum])
      with ((evs0 ++ pre ++ [e_acq] ++ loop ++ [e_pc]) ++ e_bc :: [e_rec; e_sum])
      by (repeat rewrite <- app_assoc; reflexivity).
    rewrite find_last; [reflexivity | rewrite CB; reflexivity |].
    repeat constructor; assumption.
Qed.

(** ** The browser cache *)

(** C10.  When a run has returned, the cache of [browser.ts] still holds
    the browser that the run closed, so the next [launchBrowser] returns that
    closed browser, launches nothing and changes nothing. *)
Theorem C10_closed_browser_stays_cached options s r s' :
  runTestFlow options s = (inr r, s') ->
  exists browser evs closed,
    trace s' = trace s ++ evs /\
    In closed evs /\
    ev_call closed = BrowserClose browser /\ ev_threw closed = None /\
    browserInstance s' = Some browser /\
    forall o, launchBrowser o s' = (inr browser, s').
Proof.
  intros H. apply runTestFlow_inr in H. destruct H as (flow & s0 & L & H).
  destruct (load_flow_obeys _ _ _ _ L) as (evs0 & T0 & _).
  apply run_flow_log in H.
  destruct H as (browser & page & pre & e_acq & loop & e_pc & e_bc & e_rec & e_sum
                 & T & _ & _ & _ & (CB & OkB) & _ & _ & _ & B).
  exists browser, (evs0 ++ pre ++ [e_acq] ++ loop ++ [e_pc; e_bc; e_rec; e_sum]), e_bc.
  split; [rewrite T, T0, <- app_assoc; reflexivity |].
  split.
  { apply in_or_app. right. apply in_or_app. right.
    apply in_or_app. right. apply in_or_app. right. simpl. auto. }
  repeat split; try assumption.
  intros o. apply launchBrowser_cached. exact B.
Qed.

(** ** Which failures escape the runner *)

Lemma launchBrowser_obeys I Q X o :
  (forall c, is_acquire_call c = true -> I c = true /\ Q c = true) ->
  obeys I Q X (launchBrowser o).
Proof.
  intros HI. unfold launchBrowser, get_browserInstance.
  apply obeys_bind; [apply obeys_pure |]. intros [b |]; [apply obeys_ret |].
  apply obeys_bind.
  - match goal with |- obeys _ _ _ (call ?c) => apply (obeys_call _ _ _ c) end;
      apply HI; reflexivity.
  - intros b. apply obeys_bind; [apply obeys_set_browserInstance |].
    intros _. apply obeys_ret.
Qed.

Lemma newPage_obeys I Q X browser :
  (forall c, is_acquire_call c = true -> I c = true /\ Q c = true) ->
  obeys I Q X (newPage browser).
Proof.
  intros HI. unfold newPage.
  repeat first
    [ apply obeys_ret
    | match goal with |- obeys _ _ _ (call ?c) => apply (obeys_call _ _ _ c) end;
      apply HI; reflexivity
    | apply obeys_bind; [| intros ?] ].
Qed.

Lemma run_steps_obeys_weak I Q X page b d stop json remaining i acc :
  (forall c, is_loop_call c = true -> I c = true) ->
  (forall c, is_report_step c = true -> Q c = true) ->
  obeys I Q X (run_steps page b d stop json remaining i acc).
Proof.
  intros HI HQ. eapply obeys_weaken; [apply run_steps_obeys | exact HI | exact HQ |].
  intros e [].
Qed.

Ltac stage_tac :=
  first
    [ apply launchBrowser_obeys; intros c; destruct c; simpl; intros E;
      try discriminate E; split; reflexivity
    | apply newPage_obeys; intros c; destruct c; simpl; intros E;
      try discriminate E; split; reflexivity
    | apply run_steps_obeys_weak; intros c; destruct c; simpl; intros E;
      try discriminate E; reflexivity
    | apply obeys_try_finally
    | obeys_step ].

(** An exception that leaves [run_flow] was thrown by a call made outside
    the execution of a step. *)
Lemma run_flow_escapes options flow :
  obeys (fun _ => true) outside_step is_flow_error (run_flow options flow).
Proof. unfold run_flow. cbv zeta. repeat stage_tac. Qed.

(** A loaded value without [steps]: what escapes is the [TypeError] of the
    loop's test, or was thrown by a call made outside the execution of a
    step; and the run is never recorded or rendered. *)
Lemma run_stepless_escapes I options name b n :
  (forall c, is_step_call c || is_record_call c || is_summary_call c = false ->
             I c = true) ->
  obeys I outside_step is_shape_error (run_stepless options name b n).
Proof.
  intros HI. unfold run_stepless, newPage, launchBrowser, get_browserInstance.
  cbv zeta.
  repeat first
    [ apply obeys_ret
    | apply obeys_pure
    | apply obeys_set_browserInstance
    | apply obeys_try_finally
    | apply obeys_throw; right; eexists; reflexivity
    | match goal with
      | |- obeys _ _ _ (call ?c) =>
          apply (obeys_call _ _ _ c); [apply HI; reflexivity | reflexivity]
      end
    | apply obeys_bind; [| intros ?]
    | match goal with
      | |- obeys _ _ _ (match ?x with _ => _ end) => destruct x
      end ].
Qed.

(** The same for [null], with the [TypeError]s of its three reads. *)
Lemma run_null_escapes I options :
  (forall c, is_step_call c || is_record_call c || is_summary_call c = false ->
             I c = true) ->
  obeys I outside_step is_shape_error (run_null options).
Proof.
  intros HI. unfold run_null, newPage, launchBrowser, get_browserInstance.
  cbv zeta.
  repeat first
    [ apply obeys_ret
    | apply obeys_pure
    | apply obeys_set_browserInstance
    | apply obeys_try_finally
    | apply obeys_throw; left; eexists; reflexivity
    | match goal with
      | |- obeys _ _ _ (call ?c) =>
          apply (obeys_call _ _ _ c); [apply HI; reflexivity | reflexivity]
      end
    | apply obeys_bind; [| intros ?]
    | match goal with
      | |- obeys _ _ _ (match ?x with _ => _ end) => destruct x
      | |- obeys _ _ _ (if ?x then _ else _) => destruct x
      end ].
Qed.

Lemma run_loaded_escapes options loaded :
  obeys (fun _ => true) outside_step (fun e => is_flow_error e \/ is_shape_error e)
    (run_loaded options loaded).
Proof.
  destruct loaded as [flow | name b n |]; simpl.
  - eapply obeys_weaken; [apply run_flow_escapes | | | ]; auto.
  - eapply obeys_weaken; [apply (run_stepless_escapes (fun _ => true)) | | | ]; auto.
  - eapply obeys_weaken; [apply (run_null_escapes (fun _ => true)) | | | ]; auto.
Qed.

Lemma runTestFlow_escapes options :
  obeys (fun _ => true) outside_step (fun e => is_flow_error e \/ is_shape_error e)
    (runTestFlow options).
Proof.
  unfold runTestFlow. apply obeys_bind; [| intros loaded; apply run_loaded_escapes].
  eapply obeys_weaken; [apply load_flow_obeys | | | ]; auto.
  intros c; destruct c; simpl; intros E; try discriminate E; reflexivity.
Qed.

Lemma around_record_prefix {A} (r : Js.Exn + A) evs1 evs2 :
  Forall (fun ev => quiet (ev_call ev) = true) evs1 ->
  around_record r evs2 -> around_record r (evs1 ++ evs2).
Proof.
  intros F1 [F2 | [(pre & ev & e & -> & Fp & R & Th & ->)
                  | (pre & ev & post & -> & Fp & R & Th & Fq)]].
  - left. apply Forall_app. split; assumption.
  - right. left. exists (evs1 ++ pre), ev, e. rewrite app_assoc.
    repeat split; try assumption. apply Forall_app. split; assumption.
  - right. right. exists (evs1 ++ pre), ev, post. rewrite app_assoc.
    repeat split; try assumption. apply Forall_app. split; assumption.
Qed.

Lemma delivers_bind {A B} Q X (m : M A) (f : A -> M B) :
  obeys quiet Q X m -> (forall a, delivers (f a)) -> delivers (bind m f).
Proof.
  intros Hm Hf s r s' H. apply bind_inv in H.
  destruct H as [(e & H & ->) | (a & s1 & H1 & H2)].
  - destruct (Hm _ _ _ H) as (evs & T & F & _). exists evs. split; [exact T |].
    left. exact F.
  - destruct (Hm _ _ _ H1) as (evs1 & T1 & F1 & _).
    destruct (Hf a _ _ _ H2) as (evs2 & T2 & P2).
    exists (evs1 ++ evs2). rewrite T2, T1, app_assoc. split; [reflexivity |].
    apply around_record_prefix; assumption.
Qed.

(** The end of [run_flow]: record the run, render it, return it. *)
Lemma record_then_report_delivers record (json : bool) results :
  delivers
    (call (RecordTestRun record) ;;;
     (if json return M unit then call (ConsoleLogJsonReport results)
      else call (ReportSummary results)) ;;;
     ret results).
Proof.
  intros s r s' H. apply bind_inv in H.
  destruct H as [(e & H & ->) | (n & s1 & H1 & H2)].
  - apply call_inv in H. destruct H as (w' & _ & ->). simpl.
    eexists. split; [reflexivity |]. right. left.
    exists [], (event_of (RecordTestRun record) s (inl e) w'), e.
    repeat split. constructor.
  - apply call_inv in H1. destruct H1 as (w1 & _ & ->).
    assert (obeys is_summary_call (fun _ => true) (fun _ => False)
              ((if json return M unit then call (ConsoleLogJsonReport results)
                else call (ReportSummary results)) ;;; ret results)) as O
      by (destruct json; repeat obeys_step).
    destruct (O _ _ _ H2) as (evs & T & F & _). simpl in T.
    exists (event_of (RecordTestRun record) s (inr n) w1 :: evs).
    split; [rewrite T, <- app_assoc; reflexivity |]. right. right.
    exists [], (event_of (RecordTestRun record) s (inr n) w1), evs.
    repeat split; [constructor |].
    eapply Forall_impl; [| exact F]. intros ev E. simpl in E.
    destruct (ev_call ev); simpl in *; try discriminate E; reflexivity.
Qed.

Lemma run_flow_delivers options flow : delivers (run_flow options flow).
Proof.
  unfold run_flow. cbv zeta.
  repeat (eapply (delivers_bind outside_step is_flow_error);
          [solve [repeat stage_tac] | intros ?]).
  apply record_then_report_delivers.
Qed.

Lemma quiet_delivers {A} Q X (m : M A) : obeys quiet Q X m -> delivers m.
Proof.
  intros O s r s' H. destruct (O _ _ _ H) as (evs & T & F & _).
  exists evs. split; [exact T |]. left. exact F.
Qed.

Lemma run_loaded_delivers options loaded : delivers (run_loaded options loaded).
Proof.
  destruct loaded as [flow | name b n |]; simpl.
  - apply run_flow_delivers.
  - apply (quiet_delivers outside_step is_shape_error).
    apply run_stepless_escapes.
    intros c; destruct c; simpl; intros E; try discriminate E; reflexivity.
  - apply (quiet_delivers outside_step is_shape_error).
    apply run_null_escapes.
    intros c; destruct c; simpl; intros E; try discriminate E; reflexivity.
Qed.

Lemma runTestFlow_delivers options : delivers (runTestFlow options).
Proof.
  unfold runTestFlow.
  eapply (delivers_bind is_load_call is_flow_error);
    [| intros loaded; apply run_loaded_delivers].
  eapply obeys_weaken; [apply load_flow_obeys | | | ]; auto.
  intros c; destruct c; simpl; intros E; try discriminate E; reflexivity.
Qed.

Lemma record_call_loud c : is_record_call c = true -> quiet c = false.
Proof. unfold quiet. intros ->. reflexivity. Qed.

Lemma quiet_not_summary c : quiet c = true -> is_summary_call c = false.
Proof.
  unfold quiet. intros H. apply negb_true_iff, orb_false_iff in H. apply H.
Qed.

Lemma record_not_summary c : is_record_call c = true -> is_summary_call c = false.
Proof. destruct c; simpl; intros E; try discriminate E; reflexivity. Qed.

(** C6 (amended).  A failure of the record-run call is not caught: it is
    the outcome of [runTestFlow], so no result is returned, and the summary
    is not rendered.  An exception thrown by a call made while a step
    executes never escapes; whatever escapes is an error of flow loading, the
    [TypeError] of reading a loaded value that is [null] or has no [steps], or
    was thrown by a call made outside step execution. *)
Theorem C6_persistence_failure_escapes options s r s' evs :
  runTestFlow options s = (r, s') ->
  trace s' = trace s ++ evs ->
  (forall ev e,
     In ev evs -> is_record_call (ev_call ev) = true -> ev_threw ev = Some e ->
     r = inl e /\ Forall (fun ev' => is_summary_call (ev_call ev') = false) evs) /\
  (forall e,
     r = inl e ->
     is_flow_error e \/ is_shape_error e \/
     Exists (fun ev => ev_threw ev = Some e /\ is_step_call (ev_call ev) = false) evs).
Proof.
  intros H T. split.
  - intros ev e In_ev Rec Th.
    destruct (runTestFlow_delivers _ _ _ _ H) as (evs' & T' & P).
    rewrite T in T'. apply app_inv_head in T'. subst evs'.
    destruct P as [F | [(pre & ev0 & e0 & -> & Fp & R0 & Th0 & ->)
                       | (pre & ev0 & post & -> & Fp & R0 & Th0 & Fq)]].
    + rewrite Forall_forall in F. specialize (F ev In_ev).
      rewrite (record_call_loud _ Rec) in F. discriminate.
    + apply in_app_or in In_ev. destruct In_ev as [In_pre | [<- | []]].
      * rewrite Forall_forall in Fp. specialize (Fp ev In_pre).
        rewrite (record_call_loud _ Rec) in Fp. discriminate.
      * rewrite Th in Th0. injection Th0 as <-. split; [reflexivity |].
        apply Forall_app. split.
        -- eapply Forall_impl; [| exact Fp]. intros x. apply quiet_not_summary.
        -- repeat constructor. apply record_not_summary. exact Rec.
    + apply in_app_or in In_ev. destruct In_ev as [In_pre | [<- | In_post]].
      * rewrite Forall_forall in Fp. specialize (Fp ev In_pre).
        rewrite (record_call_loud _ Rec) in Fp. discriminate.
      * rewrite Th in Th0. discriminate.
      * rewrite Forall_forall in Fq. specialize (Fq ev In_post).
        rewrite Rec in Fq. discriminate.
  - intros e ->.
    destruct (runTestFlow_escapes _ _ _ _ H) as (evs' & T' & _ & E).
    rewrite T in T'. apply app_inv_head in T'. subst evs'.
    destruct (E e eq_refl) as [[Xe | Xe] | Ex];
      [left; exact Xe | right; left; exact Xe | right; right].
    eapply Exists_impl; [| exact Ex]. intros ev [Th Out]. split; [exact Th |].
    unfold outside_step in Out. apply negb_true_iff in Out. exact Out.
Qed.

(** [closeBrowser] is where the cache is emptied; [runTestFlow] does not
    go through it. *)
Lemma closeBrowser_resets s s' :
  closeBrowser s = (inr tt, s') -> browserInstance s' = None.
Proof.
  unfold closeBrowser, bind, get_browserInstance.
  destruct (browserInstance s) as [b |] eqn:B.
  - destruct (call (BrowserClose b) s) as [[e | u] s1]; intros H; inversion H.
    reflexivity.
  - intros H. inversion H; subst. exact B.
Qed.

(** ** The base URL in effect *)

(** [overrideBaseUrl || flow.baseUrl || ''], by cases. *)
Lemma effective_baseUrl_cases override flow :
  effective_baseUrl override flow =
  match override with
  | Some o =>
      if String.eqb o EmptyString
      then match flow_baseUrl flow with Some own => own | None => EmptyString end
      else o
  | None => match flow_baseUrl flow with Some own => own | None => EmptyString end
  end.
Proof.
  unfold effective_baseUrl, Js.or_else, Js.or_opt, Js.truthy_string.
  destruct override as [o |]; [destruct (String.eqb o EmptyString) eqn:O |];
    simpl; try rewrite O; simpl; try reflexivity;
    destruct (flow_baseUrl flow) as [f |]; try reflexivity;
    destruct (String.eqb f EmptyString) eqn:F; simpl; try reflexivity;
    apply String.eqb_eq in F; symmetry; exact F.
Qed.

(** Step calls other than navigations. *)
Local Notation "'other_obeys' m" :=
  (obeys (fun c => is_step_call c && negb (is_goto_call c))
         (fun _ => true) (fun _ => False) m)
  (at level 10, m at level 9, only parsing).

Lemma humanType_chars_other page sel chars :
  other_obeys (humanType_chars page sel chars).
Proof. induction chars as [| c chars IH]; simpl; repeat obeys_step. Qed.

(** Only the [goto] branch navigates. *)
Lemma step_action_other page st b d result :
  goto st = None -> other_obeys (step_action page st b d result).
Proof.
  intros G. unfold step_action. rewrite G.
  unfold humanType, randomDelay, sleep, scrollToElement, takeScreenshot,
    Date_toISOString.
  repeat first
    [ apply humanType_chars_other
    | apply (obeys_call _ _ _ (SetTimeout 500)); reflexivity
    | obeys_step ].
Qed.

(** The navigation of a step goes to its target under the base URL the step
    is executed with. *)
Lemma step_action_base page st b d result steps :
  In st steps ->
  obeys (base_in_effect b steps) (fun _ => true) (fun _ => False)
    (step_action page st b d result).
Proof.
  intros In_st. destruct (goto st) as [target |] eqn:G.
  - unfold step_action. rewrite G. apply obeys_bind; [| intros _; apply obeys_ret].
    match goal with
    | |- obeys _ _ _ (call ?c) => apply (obeys_call _ _ _ c); [| reflexivity]
    end.
    simpl. apply existsb_exists. exists st. split; [exact In_st |].
    rewrite G. apply String.eqb_refl.
  - eapply obeys_weaken; [apply step_action_other; exact G | | | ]; auto.
    intros c H. destruct c; simpl in *; try discriminate H; reflexivity.
Qed.

Lemma executeStep_base page st b d steps :
  In st steps ->
  obeys (base_in_effect b steps) (fun _ => false) (fun _ => False)
    (executeStep page st b d).
Proof.
  intros In_st s r s' H.
  destruct (executeStep_returns page st b d s) as (r0 & s0 & E).
  rewrite E in H. inversion H; subst. clear H.
  rewrite executeStep_unfold in E.
  destruct (step_action page st b d (mkResult st false 0 None None) s)
    as [r1 s1] eqn:A.
  destruct (step_action_base _ _ b d _ steps In_st _ _ _ A) as (evs & T & F & _).
  assert (s1 = s') as -> by (destruct r1; inversion E; reflexivity).
  exists evs. repeat split; try assumption. discriminate.
Qed.

Lemma run_steps_base page b d stop json steps remaining :
  incl remaining steps ->
  forall i acc,
    obeys (base_in_effect b steps) is_report_step (fun _ => False)
      (run_steps page b d stop json remaining i acc).
Proof.
  induction remaining as [| st rest IH]; intros Inc i acc; simpl.
  - apply obeys_ret.
  - apply obeys_bind.
    + eapply obeys_weaken; [apply (executeStep_base _ _ _ _ steps) | | | ]; auto.
      * apply Inc. left. reflexivity.
      * intros c H. discriminate.
    + intros result. apply obeys_bind.
      * destruct (negb json); [| apply obeys_ret].
        apply (obeys_call _ _ _ (ReportStep result i)); reflexivity.
      * intros _. destruct (negb (success result) && stop); [apply obeys_ret |].
        apply IH. intros x Hx. apply Inc. right. exact Hx.
Qed.

(** Every call of a run that carries a base URL carries the effective one. *)
Lemma run_flow_base options flow :
  obeys (base_in_effect (effective_baseUrl (opt_baseUrl options) flow) (flow_steps flow))
    (fun _ => true) (fun _ => False) (run_flow options flow).
Proof.
  unfold run_flow. cbv zeta.
  repeat first
    [ apply launchBrowser_obeys; intros c; destruct c; simpl; intros E;
      try discriminate E; split; reflexivity
    | apply newPage_obeys; intros c; destruct c; simpl; intros E;
      try discriminate E; split; reflexivity
    | eapply obeys_weaken;
      [apply (run_steps_base _ _ _ _ _ (flow_steps flow)); apply incl_refl
      | auto | auto | auto ]
    | apply obeys_try_finally
    | apply obeys_ret
    | apply obeys_pure
    | match goal with
      | |- obeys _ _ _ (call ?c) =>
          apply (obeys_call _ _ _ c);
          [simpl; first [reflexivity | apply String.eqb_refl] | reflexivity]
      end
    | apply obeys_bind; [| intros ?]
    | match goal with
      | |- obeys _ _ _ (match ?x with _ => _ end) => destruct x
      end ].
Qed.

(** C9 (amended).  The base URL of a run is the override option when it is
    present and not the empty string; otherwise the flow's own [baseUrl] when
    that is present; otherwise the empty string.  An empty override counts as
    absent.  That URL is the one in effect throughout the run, whether the run
    returns or throws: every navigation goes to the target of a step of the
    flow, taken as it is when it starts with [http] and appended to that URL
    otherwise; the header, the record of the run and the rendered result give
    that URL; and it is the [baseUrl] of the result returned. *)
Theorem C9_baseUrl_precedence options s flow s0 res s' evs :
  load_flow options s = (inr (ParsedFlow flow), s0) ->
  runTestFlow options s = (res, s') ->
  trace s' = trace s ++ evs ->
  let effective :=
    match opt_baseUrl options with
    | Some override =>
        if String.eqb override EmptyString
        then match flow_baseUrl flow with Some own => own | None => EmptyString end
        else override
    | None => match flow_baseUrl flow with Some own => own | None => EmptyString end
    end in
  (forall r, res = inr r -> baseUrl r = effective) /\
  Forall
    (fun ev =>
       match ev_call ev with
       | PageGoto _ url _ =>
           exists st target,
             In st (flow_steps flow) /\ goto st = Some target /\
             url = if Js.startsWith target "http" then target
                   else (effective ++ target)%string
       | PrintTestHeader _ b => b = effective
       | RecordTestRun record => rec_base_url record = effective
       | ReportSummary r | ConsoleLogJsonReport r => baseUrl r = effective
       | _ => True
       end)
    evs.
Proof.
  intros L H T effective.
  assert (Eff : effective_baseUrl (opt_baseUrl options) flow = effective)
    by apply effective_baseUrl_cases.
  rewrite (runTestFlow_loaded _ _ _ _ L) in H. split.
  - intros r ->. apply run_flow_inr in H. cbv zeta in H.
    destruct H as (present & s1 & s2 & s3 & browser & s4 & page & s5 & tally
                   & s6 & s7 & s8 & n & s9 & _ & _ & _ & _ & _ & _ & _ & _ & _ & _ & ->).
    simpl. exact Eff.
  - destruct (load_flow_obeys _ _ _ _ L) as (evs0 & T0 & F0 & _).
    destruct (run_flow_base _ _ _ _ _ H) as (evs1 & T1 & F1 & _).
    rewrite T1, T0, <- app_assoc in T. apply app_inv_head in T. subst evs.
    rewrite Eff in F1. apply Forall_app. split.
    + eapply Forall_impl; [| exact F0]. intros ev. cbv beta.
      destruct (ev_call ev); simpl; intros E; try discriminate E; exact I.
    + eapply Forall_impl; [| exact F1]. intros ev. cbv beta.
      destruct (ev_call ev); simpl; intros E; try exact I;
        try (apply String.eqb_eq; exact E).
      apply existsb_exists in E. destruct E as (st & In_st & E).
      destruct (goto st) as [target |] eqn:G; [| discriminate E].
      apply String.eqb_eq in E. exists st, target.
      split; [exact In_st |]. split; [exact G | exact E].
Qed.

(* ================================================================== *)
(** * Further properties of the step executor *)
(* ================================================================== *)

(** ** Selectors *)

(** X1.  [resolveSelector] never yields a [text=] selector, and resolving
    a resolved selector changes nothing. *)
Theorem resolveSelector_idempotent sel :
  Js.startsWith (resolveSelector sel) "text=" = false /\
  resolveSelector (resolveSelector sel) = resolveSelector sel.
Proof.
  assert (N : Js.startsWith (resolveSelector sel) "text=" = false).
  { unfold resolveSelector.
    destruct (Js.startsWith sel "text=") eqn:T; [reflexivity |].
    destruct (Js.startsWith sel "xpath="); exact T. }
  split; [exact N |].
  unfold resolveSelector at 1. rewrite N.
  destruct (Js.startsWith (resolveSelector sel) "xpath="); reflexivity.
Qed.

(** ** Outcomes *)

Ltac invert_run A :=
  repeat first
    [ match type of A with
      | bind _ _ _ = (inr _, _) =>
          let a := fresh "a" in let s1 := fresh "s" in let E := fresh "E" in
          apply bind_inr in A; destruct A as (a & s1 & E & A)
      end
    | match type of A with
      | context [match ?x with _ => _ end] => destruct x eqn:?
      end ].

(** X2.  In an outcome of [executeStep], [error] is absent exactly when
    [success] is true. *)
Theorem executeStep_error_iff_failed page st b d s r s' :
  executeStep page st b d s = (inr r, s') ->
  (success r = true <-> error r = None).
Proof.
  rewrite executeStep_unfold.
  destruct (step_action page st b d (mkResult st false 0 None None) s)
    as [[e | r1] s1] eqn:A; intros H; injection H as <- <-; simpl.
  - split; discriminate.
  - unfold step_action in A. invert_run A;
      injection A as <- <-; simpl; split; try reflexivity; discriminate.
Qed.

(** X3.  An outcome of [executeStep] carries a screenshot path exactly
    when the step selected the screenshot branch and succeeded; the path is
    then [screenshotDir/label-timestamp.png], the timestamp being the ISO
    time at which the step started, with [:] and [.] replaced by [-]. *)
Theorem executeStep_screenshotPath page st b d s r s' :
  executeStep page st b d s = (inr r, s') ->
  (forall p, screenshotPath r = Some p ->
     exists label,
       selected st = Screenshot label /\ success r = true /\
       p = (d ++ "/" ++ label ++ "-" ++ Js.replace_colon_dot (isoString (world s))
              ++ ".png")%string) /\
  (forall label, selected st = Screenshot label -> success r = true ->
     screenshotPath r <> None).
Proof.
  rewrite executeStep_unfold.
  destruct (step_action page st b d (mkResult st false 0 None None) s)
    as [[e | r1] s1] eqn:A; intros H; injection H as <- <-; simpl.
  - split; [discriminate |]. intros label _ F. discriminate.
  - unfold step_action in A. split.
    + intros p P. unfold selected. invert_run A;
        injection A as <- <-; simpl in P; try discriminate P.
      all: unfold takeScreenshot, Date_toISOString in *.
      all: apply bind_inr in E; destruct E as (iso & ? & Ei & E).
      all: injection Ei as <- <-.
      all: apply bind_inr in E; destruct E as (u & ? & _ & E).
      all: injection E as <- <-; injection P as <-.
      all: eexists; repeat split.
    + intros label Sel _. unfold selected in Sel. invert_run A;
        injection A as <- <-; simpl; try discriminate Sel; discriminate.
Qed.

(** X4.  While a step executes, only page-level driver calls and timers
    are issued: no browser is launched or closed, no page is closed, nothing
    is recorded or reported, the file system is not consulted, and the
    browser cache is left alone. *)
Theorem executeStep_calls_confined page st b d s r s' evs :
  executeStep page st b d s = (r, s') ->
  trace s' = trace s ++ evs ->
  Forall (fun ev => is_step_call (ev_call ev) = true) evs /\
  browserInstance s' = browserInstance s.
Proof.
  intros H T. split.
  - destruct (executeStep_obeys _ _ _ _ _ _ _ H) as (evs' & T' & F & _).
    rewrite T in T'. apply app_inv_head in T'. subst evs'. exact F.
  - exact (executeStep_keeps _ _ _ _ _ _ _ H).
Qed.

(** X5.  Within a step, the first call that throws is the last call of
    the step: after a failed wait there is no click, no typing, no read. *)
Theorem executeStep_stops_at_first_throw page st b d s r s' pre ev post :
  executeStep page st b d s = (r, s') ->
  trace s' = trace s ++ pre ++ ev :: post ->
  ev_threw ev <> None ->
  post = [].
Proof.
  intros H T Th.
  assert (S' : s' = snd (step_action page st b d (mkResult st false 0 None None) s)).
  { rewrite <- executeStep_state, H. reflexivity. }
  destruct (step_action page st b d (mkResult st false 0 None None) s)
    as [r1 s1] eqn:A. simpl in S'. subst s1.
  destruct (step_action_fails_fast _ _ _ _ _ _ _ _ A) as (evs & T' & F).
  rewrite T in T'. apply app_inv_head in T'. subst evs.
  destruct r1 as [e | r1].
  - destruct F as (pre' & ev' & Eq & Fp & _).
    destruct post as [| x post]; [reflexivity | exfalso].
    assert (In ev pre').
    { assert (L : pre ++ ev :: x :: post = (pre ++ ev :: removelast (x :: post))
                                            ++ [last (x :: post) ev]).
      { rewrite <- app_assoc. simpl.
        rewrite (app_removelast_last ev (l := x :: post)) at 1 by discriminate.
        reflexivity. }
      rewrite L in Eq. apply app_inj_tail in Eq. destruct Eq as (<- & _).
      apply in_or_app. right. left. reflexivity. }
    rewrite Forall_forall in Fp. apply Th. apply Fp. assumption.
  - exfalso. rewrite Forall_forall in F. apply Th. apply F.
    apply in_or_app. right. left. reflexivity.
Qed.

(** ** Typing *)

Lemma humanType_chars_log page sel txt s r s' :
  humanType_chars page sel txt s = (r, s') ->
  exists evs,
    trace s' = trace s ++ evs /\
    match r with
    | inr _ => map ev_call evs = map (PageType page sel) txt
    | inl _ =>
        exists n, map ev_call evs = firstn (S n) (map (PageType page sel) txt)
                  /\ (n < List.length txt)%nat
    end.
Proof.
  revert s. induction txt as [| c txt IH]; intros s H; simpl in H.
  - injection H as <- <-. exists []. rewrite app_nil_r. split; reflexivity.
  - apply bind_inv in H. destruct H as [(e & H & ->) | (u & s1 & H1 & H2)].
    + apply (call_inv (PageType page sel c)) in H. destruct H as (w' & _ & ->). simpl.
      eexists. split; [reflexivity |]. exists 0%nat. simpl. split; [reflexivity | lia].
    + apply (call_inv (PageType page sel c)) in H1. destruct H1 as (w' & _ & ->).
      destruct (IH _ H2) as (evs & T & R). simpl in T.
      eexists. split; [rewrite T, <- app_assoc; reflexivity |].
      destruct r as [e | u'].
      * destruct R as (n & R & L). exists (S n). simpl. rewrite R. split; [reflexivity | lia].
      * simpl. rewrite R. reflexivity.
Qed.

(** X6.  When [humanType] returns, it has waited for the element, clicked
    it, and then typed the text with one call per element that the iterator
    of the text yields (one per code point), in order, and has made no other
    call. *)
Theorem humanType_types_in_order page sel txt s s' evs :
  humanType page sel txt s = (inr tt, s') ->
  trace s' = trace s ++ evs ->
  map ev_call evs =
  PageWaitForSelector page sel false None :: PageClick page sel
    :: map (PageType page sel) (String_iterator txt) /\
  Forall (fun ev => ev_threw ev = None) evs.
Proof.
  intros H T. split.
  - unfold humanType in H.
    apply bind_inr in H. destruct H as (u1 & s1 & H1 & H).
    apply bind_inr in H. destruct H as (u2 & s2 & H2 & H).
    apply (call_inv (PageWaitForSelector page sel false None)) in H1.
    destruct H1 as (w1 & _ & ->).
    apply (call_inv (PageClick page sel)) in H2. destruct H2 as (w2 & _ & ->).
    apply humanType_chars_log in H. destruct H as (evs3 & T3 & R). simpl in T3.
    rewrite T3, <- !app_assoc in T. apply app_inv_head in T. subst evs.
    simpl. rewrite R. reflexivity.
  - destruct (humanType_fails_fast _ _ _ _ _ _ H) as (evs' & T' & F).
    rewrite T in T'. apply app_inv_head in T'. subst evs'. exact F.
Qed.

(** ** Counters *)

Lemma filter_split_length {A} (p : A -> bool) l :
  (List.length (filter p l) + List.length (filter (fun x => negb (p x)) l)
   = List.length l)%nat.
Proof. induction l as [| x l IH]; simpl; [reflexivity |]. destruct (p x); simpl; lia. Qed.

Lemma filter_all_length {A} (p : A -> bool) l :
  List.length (filter p l) = List.length l <-> Forall (fun x => p x = true) l.
Proof.
  induction l as [| x l IH]; simpl.
  - split; [constructor | reflexivity].
  - pose proof (filter_length_le p l) as Le. destruct (p x) eqn:P; simpl; split.
    + intros H. constructor; [exact P |]. apply IH. lia.
    + intros H. inversion H; subst. f_equal. apply IH. assumption.
    + intros H. lia.
    + intros H. inversion H; subst. congruence.
Qed.

(** The counters of a returned run against its outcomes. *)
Lemma runTestFlow_tally options s r s' :
  runTestFlow options s = (inr r, s') ->
  passed r = List.length (filter success (steps r)) /\
  (passed r + failed r = List.length (steps r))%nat.
Proof.
  intros H. apply runTestFlow_inr in H. destruct H as (flow & s0 & _ & H).
  apply run_flow_inr in H. cbv zeta in H.
  destruct H as (present & s1 & s2 & s3 & browser & s4 & page & s5 & tally
                 & s6 & s7 & s8 & n & s9 & _ & _ & _ & _ & _ & Loop & _ & _ & _ & _ & ->).
  simpl. apply run_steps_tally in Loop.
  destruct Loop as (outs & R & P & PF & _).
  simpl in R, P, PF. rewrite R, P in *. split; [reflexivity | exact PF].
Qed.

(** X7.  In a returned run, [passed] is the number of outcomes that
    succeeded and [failed] the number that did not; together they count the
    outcomes, and [failed] is 0 exactly when every outcome succeeded. *)
Theorem runTestFlow_counters options s r s' :
  runTestFlow options s = (inr r, s') ->
  passed r = List.length (filter success (steps r)) /\
  failed r = List.length (filter (fun o => negb (success o)) (steps r)) /\
  (passed r + failed r = List.length (steps r))%nat /\
  (failed r = 0%nat <-> Forall (fun o => success o = true) (steps r)).
Proof.
  intros H. destruct (runTestFlow_tally _ _ _ _ H) as (P & PF).
  pose proof (filter_split_length success (steps r)) as Sp.
  assert (Fl : failed r
               = List.length (filter (fun o => negb (success o)) (steps r))) by lia.
  split; [exact P |]. split; [exact Fl |]. split; [exact PF |]. split.
  - intros Z. apply filter_all_length. lia.
  - intros A. apply filter_all_length in A. lia.
Qed.

(** ** Stopping *)

(** X8.  The steps after the one at which the loop stopped have no
    effect at all: the loop run on the flow cut after the last executed step
    ends with the same outcomes and counters, in the same state. *)
Theorem run_steps_ignores_rest page b d stop json remaining :
  forall i acc s t s',
    run_steps page b d stop json remaining i acc s = (inr t, s') ->
    run_steps page b d stop json
      (firstn (List.length (stepResults t) - List.length (stepResults acc)) remaining)
      i acc s = (inr t, s').
Proof.
  induction remaining as [| st rest IH]; intros i acc s t s' H.
  - rewrite firstn_nil. exact H.
  - simpl in H. apply bind_inr in H. destruct H as (result & s1 & E & H).
    apply bind_inr in H. destruct H as (u & s2 & Rp & H).
    destruct (negb (success result) && stop) eqn:Stop.
    + injection H as <- <-. simpl. rewrite length_app. simpl.
      replace (List.length (stepResults acc) + 1 - List.length (stepResults acc))%nat
        with 1%nat by lia.
      simpl. rewrite (bind_ok _ _ _ _ _ E). rewrite (bind_ok _ _ _ _ _ Rp).
      rewrite Stop. reflexivity.
    + pose proof (run_steps_tally _ _ _ _ _ _ _ _ _ _ _ H) as (outs & R & _).
      simpl in R. specialize (IH _ _ _ _ _ H). simpl in IH.
      rewrite R in *. rewrite !length_app in *. simpl in *.
      replace (List.length (stepResults acc) + 1 + List.length outs
               - List.length (stepResults acc))%nat with (S (List.length outs)) by lia.
      replace (List.length (stepResults acc) + 1 + List.length outs
               - (List.length (stepResults acc) + 1))%nat with (List.length outs) in IH by lia.
      simpl. rewrite (bind_ok _ _ _ _ _ E). rewrite (bind_ok _ _ _ _ _ Rp).
      rewrite Stop. exact IH.
Qed.

(* ================================================================== *)
(** * Further properties of the flow runner *)
(* ================================================================== *)

(** ** Duration accounting *)

Section Monotone.

Hypothesis Mono : clock_monotone.

Lemma advances_ret {A} (a : A) : advances (ret a).
Proof. intros s r s' H. inversion H; subst. lia. Qed.

Lemma advances_pure {A} (g : State -> A) : advances (fun s => (inr (g s), s)).
Proof. intros s r s' H. inversion H; subst. lia. Qed.

Lemma advances_call c : advances (call c).
Proof.
  intros s r s' H. apply call_inv in H. destruct H as (w' & P & ->). simpl.
  pose proof (Mono c (world s)) as L. rewrite P in L. exact L.
Qed.

Lemma advances_bind {A B} (m : M A) (f : A -> M B) :
  advances m -> (forall a, advances (f a)) -> advances (bind m f).
Proof.
  intros Hm Hf s r s' H. apply bind_inv in H.
  destruct H as [(e & H & ->) | (a & s1 & H1 & H2)].
  - exact (Hm _ _ _ H).
  - pose proof (Hm _ _ _ H1). pose proof (Hf a _ _ _ H2). lia.
Qed.

Ltac advances_step :=
  first
    [ apply advances_ret
    | apply advances_pure
    | match goal with
      | |- advances (call ?c) => apply (advances_call c)
      end
    | assumption
    | apply advances_bind; [| intros ?]
    | match goal with
      | |- advances (match ?x with _ => _ end) => destruct x
      end ].

Lemma humanType_chars_advances page sel txt : advances (humanType_chars page sel txt).
Proof. induction txt as [| c txt IH]; simpl; repeat advances_step. Qed.

Lemma step_action_advances page st b d result :
  advances (step_action page st b d result).
Proof.
  pose proof humanType_chars_advances as HT.
  unfold step_action, humanType, takeScreenshot, scrollToElement, randomDelay, sleep,
    Date_toISOString.
  repeat first [apply HT | advances_step].
Qed.

Lemma executeStep_duration page st b d s r s' :
  executeStep page st b d s = (inr r, s') ->
  duration r = clock (world s') - clock (world s) /\
  clock (world s) <= clock (world s').
Proof.
  rewrite executeStep_unfold.
  destruct (step_action page st b d (mkResult st false 0 None None) s)
    as [[e | r1] s1] eqn:A; intros H; injection H as <- <-; simpl;
    (split; [reflexivity | exact (step_action_advances _ _ _ _ _ _ _ _ A)]).
Qed.

Lemma run_steps_durations page b d stop json remaining :
  forall i acc s t s',
    run_steps page b d stop json remaining i acc s = (inr t, s') ->
    exists outs,
      stepResults t = stepResults acc ++ outs /\
      Forall (fun o => 0 <= duration o) outs /\
      total_ms (map duration outs) <= clock (world s') - clock (world s).
Proof.
  induction remaining as [| st rest IH]; intros i acc s t s' H; simpl in H.
  - injection H as <- <-. exists []. rewrite app_nil_r. simpl.
    repeat split; [constructor | lia].
  - apply bind_inr in H. destruct H as (result & s1 & E & H).
    apply bind_inr in H. destruct H as (u & s2 & Rp & H).
    apply executeStep_duration in E. destruct E as (D & L1).
    assert (L2 : clock (world s1) <= clock (world s2)).
    { destruct (negb json).
      - exact (advances_call (ReportStep result i) _ _ _ Rp).
      - injection Rp as _ <-. lia. }
    destruct (negb (success result) && stop).
    + injection H as <- <-. exists [result]. simpl.
      repeat split; [repeat constructor; lia | lia].
    + apply IH in H. destruct H as (outs & R & F & T). simpl in R.
      exists (result :: outs). rewrite R, <- app_assoc. simpl.
      repeat split; [constructor; [lia | exact F] | lia].
Qed.

(** X9.  If the clock never runs backwards, every step duration of a
    returned run is non-negative, and the step durations add up to no more
    than the duration of the run. *)
Theorem runTestFlow_duration_accounting options s r s' :
  runTestFlow options s = (inr r, s') ->
  Forall (fun o => 0 <= duration o) (steps r) /\
  total_ms (map duration (steps r)) <= run_duration r.
Proof.
  intros H. apply runTestFlow_inr in H. destruct H as (flow & s0 & _ & H).
  apply run_flow_inr in H. cbv zeta in H.
  destruct H as (present & s1 & s2 & s3 & browser & s4 & page & s5 & tally
                 & s6 & s7 & s8 & n & s9 & _ & _ & _ & _ & _ & Loop & PC & BC & _ & _ & ->).
  simpl. apply run_steps_durations in Loop.
  destruct Loop as (outs & R & F & T). simpl in R. rewrite R.
  pose proof (advances_call _ _ _ _ PC). pose proof (advances_call _ _ _ _ BC).
  split; [exact F | lia].
Qed.

End Monotone.

(** ** Flow loading *)

Lemma load_flow_keeps options : keeps_cache (load_flow options).
Proof.
  unfold load_flow, loadTestFlow.
  repeat first [apply keeps_throw | keeps_step].
Qed.

(** X10.  When flow loading fails, the run fails with the same exception
    before anything else happens: only flow-loading calls have been made (no
    directory created, no browser launched) and the cache is untouched. *)
Theorem runTestFlow_load_failure_first options s e s0 :
  load_flow options s = (inl e, s0) ->
  runTestFlow options s = (inl e, s0) /\
  browserInstance s0 = browserInstance s /\
  exists evs, trace s0 = trace s ++ evs /\
              Forall (fun ev => is_load_call (ev_call ev) = true) evs.
Proof.
  intros L. split; [unfold runTestFlow; apply bind_throws; exact L |].
  split; [exact (load_flow_keeps _ _ _ _ L) |].
  destruct (load_flow_obeys _ _ _ _ L) as (evs & T & F & _). eauto.
Qed.

(** X11.  With no inline flow and a path to a file that does not exist,
    the run throws [Test flow file not found: ] followed by the path, after a
    single call, the existence check: the file is not read. *)
Theorem runTestFlow_missing_file options s path w1 :
  opt_flow options = None ->
  opt_flowPath options = Some path ->
  path <> EmptyString ->
  perform (FsExistsSync path) (world s) = (inr false, w1) ->
  exists s1 ev,
    runTestFlow options s
    = (inl (Js.Error ("Test flow file not found: " ++ path)%string), s1) /\
    trace s1 = trace s ++ [ev] /\ ev_call ev = FsExistsSync path.
Proof.
  intros F P N E. unfold runTestFlow, load_flow. rewrite F, P.
  assert (T : Js.truthy_string path = true).
  { unfold Js.truthy_string. destruct (String.eqb path EmptyString) eqn:Q;
      [apply String.eqb_eq in Q; contradiction | reflexivity]. }
  rewrite T. unfold loadTestFlow.
  do 2 eexists. split.
  - apply bind_throws. erewrite bind_ok; [| apply call_perform; exact E].
    simpl. reflexivity.
  - simpl. split; reflexivity.
Qed.

(** ** The screenshot directory *)

Lemma try_finally_inv {A} (m : M A) (fin : M unit) s r s' :
  try_finally m fin s = (r, s') ->
  exists r1 s1,
    m s = (r1, s1) /\
    ((exists e, fin s1 = (inl e, s') /\ r = inl e) \/
     (fin s1 = (inr tt, s') /\ r = r1)).
Proof.
  unfold try_finally. destruct (m s) as [r1 s1].
  destruct (fin s1) as [[e | []] s2] eqn:F; intros H; injection H as <- <-;
    exists r1, s1; (split; [reflexivity |]).
  - left. exists e. split; [exact F | reflexivity].
  - right. split; [exact F | reflexivity].
Qed.

(** The directory check at the head of a run, followed by any code that
    creates no directory. *)
Lemma frame_mkdir {B} X dir (rest : M B) s r s' evs :
  obeys (fun c => negb (is_mkdir_call c)) (fun _ => true) X rest ->
  (present <- call (FsExistsSync dir) ;;
   (if negb present then call (FsMkdirSync dir) else ret tt) ;;;
   rest) s = (r, s') ->
  trace s' = trace s ++ evs ->
  (List.length (filter (fun ev => is_mkdir_call (ev_call ev)) evs) <= 1)%nat /\
  Forall (fun ev => is_mkdir_call (ev_call ev) = true -> ev_call ev = FsMkdirSync dir) evs /\
  (forall w1, perform (FsExistsSync dir) (world s) = (inr true, w1) ->
              filter (fun ev => is_mkdir_call (ev_call ev)) evs = []).
Proof.
  intros O H T.
  assert (NoMk : forall l, Forall (fun ev => negb (is_mkdir_call (ev_call ev)) = true) l ->
                           filter (fun ev => is_mkdir_call (ev_call ev)) l = []).
  { induction 1 as [| x l Hx _ IH]; simpl; [reflexivity |].
    apply negb_true_iff in Hx. rewrite Hx. exact IH. }
  assert (Imp : forall l, Forall (fun ev => negb (is_mkdir_call (ev_call ev)) = true) l ->
                 Forall (fun ev => is_mkdir_call (ev_call ev) = true ->
                                   ev_call ev = FsMkdirSync dir) l).
  { intros l F. eapply Forall_impl; [| exact F]. intros ev N M. simpl in N.
    rewrite M in N. discriminate. }
  apply bind_inv in H. destruct H as [(e & H & ->) | (present & s1 & H1 & H)].
  { apply (call_inv (FsExistsSync dir)) in H. destruct H as (w' & P & ->).
    simpl in T. apply app_inv_head in T. subst evs. simpl.
    split; [lia | split; [| reflexivity]].
    constructor; [discriminate | constructor]. }
  apply (call_inv (FsExistsSync dir)) in H1. destruct H1 as (w1 & P1 & ->).
  apply bind_inv in H. destruct H as [(e & H & ->) | ([] & s2 & H2 & H)].
  { destruct present; simpl in H; [discriminate |].
    apply (call_inv (FsMkdirSync dir)) in H. destruct H as (w' & P & ->).
    simpl in T. rewrite <- app_assoc in T. apply app_inv_head in T. subst evs. simpl.
    split; [lia | split].
    - constructor; [discriminate | constructor; [reflexivity | constructor]].
    - intros w1' P'. rewrite P' in P1. discriminate. }
  destruct (O _ _ _ H) as (rest' & T' & F & _).
  destruct present; simpl in H2.
  - injection H2 as <-. simpl in T'. rewrite T', <- app_assoc in T.
    apply app_inv_head in T. subst evs. simpl. rewrite (NoMk _ F).
    split; [simpl; lia | split; [| reflexivity]].
    constructor; [discriminate | exact (Imp _ F)].
  - apply (call_inv (FsMkdirSync dir)) in H2. destruct H2 as (w2 & P2 & ->).
    simpl in T'. rewrite T', <- !app_assoc in T.
    apply app_inv_head in T. subst evs. simpl. rewrite (NoMk _ F).
    split; [simpl; lia | split].
    + constructor; [discriminate | constructor; [reflexivity | exact (Imp _ F)]].
    + intros w1' P'. rewrite P' in P1. discriminate.
Qed.

(** X12.  A run calls [fs.mkdirSync] at most once, on the screenshot
    directory (the call is made with [recursive: true]), and not at all when
    the existence check answered that the directory is there. *)
Theorem run_flow_mkdir_at_most_once options loaded s r s' evs :
  run_loaded options loaded s = (r, s') ->
  trace s' = trace s ++ evs ->
  let dir := default "./screenshots" (opt_screenshotDir options) in
  (List.length (filter (fun ev => is_mkdir_call (ev_call ev)) evs) <= 1)%nat /\
  Forall (fun ev => is_mkdir_call (ev_call ev) = true -> ev_call ev = FsMkdirSync dir) evs /\
  (forall w1, perform (FsExistsSync dir) (world s) = (inr true, w1) ->
              filter (fun ev => is_mkdir_call (ev_call ev)) evs = []).
Proof.
  intros H T dir. destruct loaded as [flow | name b n |]; simpl in H.
  - unfold run_flow in H. cbv zeta in H. fold dir in H.
    eapply (frame_mkdir (fun _ => False)); [| exact H | exact T].
    repeat stage_tac.
  - unfold run_stepless in H. cbv zeta in H. fold dir in H.
    eapply (frame_mkdir (fun _ => True)); [| exact H | exact T].
    repeat first [apply obeys_throw; exact I | stage_tac].
  - unfold run_null in H. cbv zeta in H. fold dir in H.
    apply bind_inv in H. destruct H as [(e & H & ->) | (url & s0 & U & H)].
    + assert (s' = s) as ->.
      { destruct (opt_baseUrl options) as [o |]; [destruct (Js.truthy_string o) |];
          injection H as _ <-; reflexivity. }
      rewrite <- (app_nil_r (trace s)) in T at 1. apply app_inv_head in T. subst evs.
      simpl. split; [lia |]. split; [constructor | reflexivity].
    + assert (s0 = s) as ->.
      { destruct (opt_baseUrl options) as [o |]; [destruct (Js.truthy_string o) |];
          injection U as _ <-; reflexivity. }
      eapply (frame_mkdir (fun _ => True)); [| exact H | exact T].
      repeat first [apply obeys_throw; exact I | stage_tac].
Qed.


(** ** Release of the session *)

Lemma unique_split {A} (R : A -> bool) l1 x l2 l1' x' l2' :
  Forall (fun y => R y = false) l1 -> Forall (fun y => R y = false) l2 ->
  R x' = true ->
  l1 ++ x :: l2 = l1' ++ x' :: l2' ->
  l1' = l1 /\ x' = x /\ l2' = l2.
Proof.
  intros F1 F2 Rx. revert l1'. induction F1 as [| y l1 Hy _ IH]; intros l1' E.
  - destruct l1' as [| z l1']; simpl in E.
    + injection E as <- <-. repeat split.
    + injection E as <- E. exfalso. rewrite E in F2.
      apply Forall_app in F2. destruct F2 as (_ & F2). inversion F2; subst. congruence.
  - destruct l1' as [| z l1']; simpl in E.
    + injection E as <- _. congruence.
    + injection E as <- E. destruct (IH _ E) as (-> & -> & ->). repeat split.
Qed.

Lemma not_ready_call l :
  Forall (fun ev => negb (is_page_ready_call (ev_call ev)) = true) l ->
  Forall (fun ev => page_ready ev = false) l.
Proof.
  intros F. eapply Forall_impl; [| exact F]. intros ev N. simpl in N.
  apply negb_true_iff in N. unfold page_ready. rewrite N. reflexivity.
Qed.

Lemma loop_not_ready l :
  Forall (fun ev => is_loop_call (ev_call ev) = true) l ->
  Forall (fun ev => page_ready ev = false) l.
Proof.
  intros F. eapply Forall_impl; [| exact F]. intros ev N. simpl in N.
  unfold page_ready. destruct (ev_call ev); try discriminate N; reflexivity.
Qed.

Lemma launchBrowser_obeys_launch I Q X o :
  (forall h sm u, I (PuppeteerLaunch h sm u) = true /\ Q (PuppeteerLaunch h sm u) = true) ->
  obeys I Q X (launchBrowser o).
Proof.
  intros HI. unfold launchBrowser, get_browserInstance.
  apply obeys_bind; [apply obeys_pure |]. intros [b |]; [apply obeys_ret |].
  apply obeys_bind.
  - match goal with |- obeys _ _ _ (call ?c) => apply (obeys_call _ _ _ c) end;
      apply HI.
  - intros b. apply obeys_bind; [apply obeys_set_browserInstance |].
    intros _. apply obeys_ret.
Qed.

(** A stage that cannot set up a page must have returned, if the finished
    log shows a page that was set up and the log so far shows none. *)
Lemma quiet_bind {A B} (m : M A) (f : A -> M B) s0 sk acc r s' pre ready post :
  obeys (fun c => negb (is_page_ready_call c)) (fun _ => true) (fun _ => True) m ->
  trace sk = trace s0 ++ acc -> Forall (fun ev => page_ready ev = false) acc ->
  page_ready ready = true ->
  trace s' = trace s0 ++ pre ++ ready :: post ->
  bind m f sk = (r, s') ->
  exists a s1 acc',
    f a s1 = (r, s') /\ trace s1 = trace s0 ++ acc' /\
    Forall (fun ev => page_ready ev = false) acc'.
Proof.
  intros O TA FA RR T H. apply bind_inv in H.
  destruct H as [(e & H & ->) | (a & s1 & H1 & H)].
  - exfalso. destruct (O _ _ _ H) as (evs & T' & F & _).
    rewrite TA, <- app_assoc, T in T'. apply app_inv_head in T'.
    assert (Fa : Forall (fun ev => page_ready ev = false) (acc ++ evs))
      by (apply Forall_app; split; [exact FA | apply not_ready_call; exact F]).
    rewrite <- T' in Fa. apply Forall_app in Fa. destruct Fa as (_ & Fa).
    inversion Fa; subst. congruence.
  - destruct (O _ _ _ H1) as (evs & T' & F & _).
    exists a, s1, (acc ++ evs). split; [exact H |].
    split; [rewrite T', TA, app_assoc; reflexivity |].
    apply Forall_app; split; [exact FA | apply not_ready_call; exact F].
Qed.

Ltac quiet_stage H TA FA RR T :=
  match type of H with
  | bind ?m _ _ = _ =>
      let O := fresh "O" in
      let a := fresh "a" in
      let s1 := fresh "s" in
      let acc := fresh "acc" in
      let H' := fresh "H" in
      let TA' := fresh "TA" in
      let FA' := fresh "FA" in
      assert (O : obeys (fun c => negb (is_page_ready_call c)) (fun _ => true)
                    (fun _ => True) m)
        by first [ assumption
                 | apply launchBrowser_obeys_launch; intros; split; reflexivity
                 | repeat stage_tac ];
      destruct (quiet_bind _ _ _ _ _ _ _ _ _ _ O TA FA RR T H)
        as (a & s1 & acc & H' & TA' & FA');
      clear O H TA FA; rename H' into H; rename TA' into TA; rename FA' into FA
  end.

(** The [finally] block of [runTestFlow] after any body. *)
Lemma release_block {A} I Q X (m : M A) page browser s rt st :
  obeys I Q X m ->
  try_finally m (call (PageClose page) ;;; call (BrowserClose browser)) s = (rt, st) ->
  exists body closing rest,
    trace st = trace s ++ body ++ closing :: rest /\
    Forall (fun ev => I (ev_call ev) = true) body /\
    ev_call closing = PageClose page /\
    match ev_threw closing with
    | Some e => rest = [] /\ rt = inl e
    | None => exists closing2, rest = [closing2] /\ ev_call closing2 = BrowserClose browser
    end.
Proof.
  intros O H. apply try_finally_inv in H.
  destruct H as (r1 & s1 & Hm & Hf).
  destruct (O _ _ _ Hm) as (body & Tb & Fb & _).
  assert (Fin : exists rf, (call (PageClose page) ;;; call (BrowserClose browser)) s1
                           = (rf, st) /\
                           match rf with inl e => rt = inl e | inr _ => True end).
  { destruct Hf as [(e & Hf & ->) | (Hf & ->)].
    - exists (inl e). split; [exact Hf | reflexivity].
    - exists (inr tt). split; [exact Hf | trivial]. }
  clear Hf. destruct Fin as (rf & Hf & Rt).
  apply bind_inv in Hf. destruct Hf as [(e & Hf & ->) | (u & s2 & C1 & Hf)].
  - apply (call_inv (PageClose page)) in Hf. destruct Hf as (w & _ & ->).
    exists body, (event_of (PageClose page) s1 (inl e) w), [].
    simpl. rewrite Tb, <- app_assoc. split; [reflexivity |].
    split; [exact Fb |]. split; [reflexivity |]. split; [reflexivity | exact Rt].
  - apply (call_inv (PageClose page)) in C1. destruct C1 as (w1 & _ & ->).
    apply (call_inv (BrowserClose browser)) in Hf. destruct Hf as (w2 & _ & ->).
    exists body, (event_of (PageClose page) s1 (inr u) w1),
      [event_of (BrowserClose browser)
         (mkState (browserInstance s1) w1
            (trace s1 ++ [event_of (PageClose page) s1 (inr u) w1])) rf w2].
    simpl. rewrite Tb. rewrite <- !app_assoc. split; [reflexivity |].
    split; [exact Fb |]. split; [reflexivity |].
    eexists. split; reflexivity.
Qed.

Lemma newPage_fails_fast browser : fails_fast (newPage browser).
Proof. unfold newPage. repeat fails_fast_step. Qed.

Lemma bind_ret_r {A} (m : M A) s : bind m ret s = m s.
Proof. unfold bind, ret. destruct (m s) as [[e | a] s1]; reflexivity. Qed.

(** The [try] / [finally] of a run and what follows it, from the state in
    which the page is ready: the calls of the body, then [page.close()], then
    [browser.close()] if that returned, and no page is set up again. *)
Lemma closes_after_body {A B} Q X X' (body : M A) (k : A -> M B) page browser s5 r s' :
  obeys is_loop_call Q X body ->
  (forall a, obeys (fun c => negb (is_page_ready_call c)) (fun _ => true) X' (k a)) ->
  bind (try_finally body (call (PageClose page) ;;; call (BrowserClose browser))) k s5
  = (r, s') ->
  exists loop closing rest,
    trace s' = trace s5 ++ loop ++ closing :: rest /\
    Forall (fun ev => page_ready ev = false) (loop ++ closing :: rest) /\
    Forall (fun ev => is_loop_call (ev_call ev) = true) loop /\
    ev_call closing = PageClose page /\
    match ev_threw closing with
    | Some e => rest = [] /\ r = inl e
    | None =>
        exists closing2 rest',
          rest = closing2 :: rest' /\ ev_call closing2 = BrowserClose browser
    end.
Proof.
  intros OL OK H.
  apply bind_inv in H. destruct H as [(e & H & ->) | (tally & s8 & TF & H)].
  - destruct (release_block _ _ _ _ _ _ _ _ _ OL H)
      as (loop & closing & rest & Tr & Fl & Cc & M).
    assert (Fr : Forall (fun ev => page_ready ev = false) (loop ++ closing :: rest)).
    { apply Forall_app. split; [apply loop_not_ready; exact Fl |].
      constructor; [unfold page_ready; rewrite Cc; reflexivity |].
      destruct (ev_threw closing).
      - destruct M as (-> & _). constructor.
      - destruct M as (c2 & -> & C2'). constructor; [| constructor].
        unfold page_ready. rewrite C2'. reflexivity. }
    exists loop, closing, rest. split; [exact Tr |]. split; [exact Fr |].
    split; [exact Fl |]. split; [exact Cc |].
    destruct (ev_threw closing) as [e' |].
    + destruct M as (-> & M). injection M as <-. split; reflexivity.
    + destruct M as (c2 & -> & C2'). exists c2, []. split; [reflexivity | exact C2'].
  - destruct (release_block _ _ _ _ _ _ _ _ _ OL TF)
      as (loop & closing & rest & Tr & Fl & Cc & M).
    destruct (ev_threw closing) as [e' |] eqn:Th.
    { destruct M as (_ & M). discriminate M. }
    destruct M as (c2 & -> & C2').
    destruct (OK _ _ _ _ H) as (tail & Tt & Ft & _).
    apply not_ready_call in Ft.
    exists loop, closing, (c2 :: tail).
    split; [rewrite Tt, Tr, <- !app_assoc; reflexivity |].
    split.
    { apply Forall_app. split; [apply loop_not_ready; exact Fl |].
      constructor; [unfold page_ready; rewrite Cc; reflexivity |].
      constructor; [unfold page_ready; rewrite C2'; reflexivity | exact Ft]. }
    split; [exact Fl |]. split; [exact Cc |]. rewrite Th.
    exists c2, tail. split; [reflexivity | exact C2'].
Qed.

(** The statements of [runTestFlow] up to the [try] block, followed by any
    code [K] that closes the page it is given as the [finally] block does. *)
Lemma frame_closes_page {B} dir (header : M unit) headless
    (K : Browser -> Page -> Z -> M B) s r s' pre ready post page :
  obeys (fun c => negb (is_page_ready_call c)) (fun _ => true) (fun _ => True) header ->
  (forall browser page' t s5 r' s'',
     K browser page' t s5 = (r', s'') ->
     exists loop closing rest,
       trace s'' = trace s5 ++ loop ++ closing :: rest /\
       Forall (fun ev => page_ready ev = false) (loop ++ closing :: rest) /\
       Forall (fun ev => is_loop_call (ev_call ev) = true) loop /\
       ev_call closing = PageClose page' /\
       match ev_threw closing with
       | Some e => rest = [] /\ r' = inl e
       | None =>
           exists closing2 rest',
             rest = closing2 :: rest' /\ ev_call closing2 = BrowserClose browser
       end) ->
  (present <- call (FsExistsSync dir) ;;
   (if negb present then call (FsMkdirSync dir) else ret tt) ;;;
   header ;;;
   browser <- launchBrowser (mkBrowserOptions (Some headless) None None) ;;
   page <- newPage browser ;;
   startTime <- Date_now ;;
   K browser page startTime) s = (r, s') ->
  trace s' = trace s ++ pre ++ ready :: post ->
  ev_call ready = PageEvaluateOnNewDocument page -> ev_threw ready = None ->
  exists loop closing rest,
    post = loop ++ closing :: rest /\
    Forall (fun ev => is_loop_call (ev_call ev) = true) loop /\
    ev_call closing = PageClose page /\
    match ev_threw closing with
    | Some e => rest = [] /\ r = inl e
    | None =>
        exists closing2 rest' browser,
          rest = closing2 :: rest' /\ ev_call closing2 = BrowserClose browser
    end.
Proof.
  intros Hh HK H T CR OkR.
  assert (RR : page_ready ready = true).
  { unfold page_ready, ev_ok. rewrite CR, OkR. reflexivity. }
  assert (TA : trace s = trace s ++ []) by (rewrite app_nil_r; reflexivity).
  assert (FA : Forall (fun ev => page_ready ev = false) []) by constructor.
  do 4 quiet_stage H TA FA RR T.
  rename a2 into browser.
  (* page creation *)
  apply bind_inv in H. destruct H as [(e & H & ->) | (page' & s5 & NP & H)].
  { exfalso. unfold newPage in H.
    assert (exists evs, trace s' = trace s3 ++ evs /\
              Forall (fun ev => page_ready ev = false) evs) as (evs & T' & F).
    { apply bind_inv in H. destruct H as [(e1 & H & E) | (p & sa & C1 & H)].
      - apply (call_inv (BrowserNewPage browser)) in H. destruct H as (w & _ & ->).
        eexists. split; [reflexivity |]. repeat constructor.
      - apply (call_inv (BrowserNewPage browser)) in C1. destruct C1 as (w1 & _ & ->).
        apply bind_inv in H. destruct H as [(e2 & H & E) | (u & sb & C2 & H)].
        + apply (call_inv (PageSetUserAgent p userAgent)) in H.
          destruct H as (w & _ & ->). simpl. rewrite <- app_assoc.
          eexists. split; [reflexivity |]. repeat constructor.
        + apply (call_inv (PageSetUserAgent p userAgent)) in C2.
          destruct C2 as (w2 & _ & ->).
          apply bind_inv in H. destruct H as [(e3 & H & E) | (u3 & sc & C3 & H)].
          * apply (call_inv (PageEvaluateOnNewDocument p)) in H.
            destruct H as (w & _ & ->). simpl. rewrite <- !app_assoc.
            eexists. split; [reflexivity |]. repeat constructor.
          * discriminate H. }
    rewrite TA, <- app_assoc, T in T'. apply app_inv_head in T'.
    assert (Fa : Forall (fun ev => page_ready ev = false) (acc2 ++ evs))
      by (apply Forall_app; split; assumption).
    rewrite <- T' in Fa. apply Forall_app in Fa. destruct Fa as (_ & Fa).
    inversion Fa; subst. congruence. }
  assert (Ok5 : exists evs, trace s5 = trace s3 ++ evs /\
                             Forall (fun ev => ev_threw ev = None) evs)
    by exact (newPage_fails_fast _ _ _ _ NP).
  apply newPage_inr in NP. destruct NP as (_ & e1 & e2 & e3 & T5 & C1 & C2 & C3 & _).
  assert (Ok3 : ev_threw e3 = None).
  { destruct Ok5 as (evs & T5' & F). rewrite T5 in T5'. apply app_inv_head in T5'.
    subst evs. inversion F as [| ? ? _ F1]; subst. inversion F1 as [| ? ? _ F2]; subst.
    inversion F2; subst. assumption. }
  clear Ok5.
  apply bind_inv in H. destruct H as [(e & H & _) | (startTime & s5' & D & H)];
    [discriminate H |]. injection D as <- <-.
  destruct (HK _ _ _ _ _ _ H) as (loop & closing & rest & Tr & Fr & Fl & Cc & M).
  rewrite T5, TA, <- !app_assoc, T in Tr. apply app_inv_head in Tr.
  change (acc2 ++ [e1; e2; e3] ++ loop ++ closing :: rest)
    with (acc2 ++ [e1; e2] ++ e3 :: (loop ++ closing :: rest)) in Tr.
  rewrite app_assoc in Tr. symmetry in Tr.
  apply (unique_split page_ready) in Tr; try assumption.
  - destruct Tr as (_ & -> & ->). rewrite C3 in CR. injection CR as <-.
    exists loop, closing, rest. split; [reflexivity |].
    split; [exact Fl |]. split; [exact Cc |].
    destruct (ev_threw closing); [exact M |].
    destruct M as (c2 & rest' & -> & C2'). exists c2, rest', browser.
    split; [reflexivity | exact C2'].
  - apply Forall_app. split; [exact FA |].
    constructor; [unfold page_ready; rewrite C1; reflexivity |].
    constructor; [unfold page_ready; rewrite C2; reflexivity | constructor].
Qed.

Lemma run_flow_closes_page options flow s r s' pre ready post page :
  run_flow options flow s = (r, s') ->
  trace s' = trace s ++ pre ++ ready :: post ->
  ev_call ready = PageEvaluateOnNewDocument page -> ev_threw ready = None ->
  exists loop closing rest,
    post = loop ++ closing :: rest /\
    Forall (fun ev => is_loop_call (ev_call ev) = true) loop /\
    ev_call closing = PageClose page /\
    match ev_threw closing with
    | Some e => rest = [] /\ r = inl e
    | None =>
        exists closing2 rest' browser,
          rest = closing2 :: rest' /\ ev_call closing2 = BrowserClose browser
    end.
Proof.
  unfold run_flow. cbv zeta. intros H.
  eapply frame_closes_page; [| | exact H]; [repeat stage_tac |].
  intros browser page' t s5 r' s'' HK. cbv beta in HK.
  eapply (closes_after_body is_report_step (fun _ => False) (fun _ => False));
    [apply run_steps_obeys | | exact HK].
  intros tally. repeat stage_tac.
Qed.

Lemma run_stepless_closes_page options name b n s r s' pre ready post page :
  run_stepless options name b n s = (r, s') ->
  trace s' = trace s ++ pre ++ ready :: post ->
  ev_call ready = PageEvaluateOnNewDocument page -> ev_threw ready = None ->
  exists loop closing rest,
    post = loop ++ closing :: rest /\
    Forall (fun ev => is_loop_call (ev_call ev) = true) loop /\
    ev_call closing = PageClose page /\
    match ev_threw closing with
    | Some e => rest = [] /\ r = inl e
    | None =>
        exists closing2 rest' browser,
          rest = closing2 :: rest' /\ ev_call closing2 = BrowserClose browser
    end.
Proof.
  unfold run_stepless. cbv zeta. intros H.
  eapply frame_closes_page; [| | exact H]; [repeat stage_tac |].
  intros browser page' t s5 r' s'' HK. cbv beta in HK.
  rewrite <- bind_ret_r in HK.
  eapply (closes_after_body (fun _ => false) (fun _ => True) (fun _ => False));
    [apply obeys_throw; exact I | | exact HK].
  intros a. apply obeys_ret.
Qed.

Lemma run_null_closes_page options s r s' pre ready post page :
  run_null options s = (r, s') ->
  trace s' = trace s ++ pre ++ ready :: post ->
  ev_call ready = PageEvaluateOnNewDocument page -> ev_threw ready = None ->
  exists loop closing rest,
    post = loop ++ closing :: rest /\
    Forall (fun ev => is_loop_call (ev_call ev) = true) loop /\
    ev_call closing = PageClose page /\
    match ev_threw closing with
    | Some e => rest = [] /\ r = inl e
    | None =>
        exists closing2 rest' browser,
          rest = closing2 :: rest' /\ ev_call closing2 = BrowserClose browser
    end.
Proof.
  unfold run_null. cbv zeta. intros H T.
  apply bind_inv in H. destruct H as [(e & H & ->) | (url & s0 & U & H)].
  { exfalso.
    assert (s' = s) as ->.
    { destruct (opt_baseUrl options) as [o |]; [destruct (Js.truthy_string o) |];
        injection H as _ <-; reflexivity. }
    rewrite <- (app_nil_r (trace s)) in T at 1. apply app_inv_head in T.
    destruct pre; discriminate T. }
  assert (s0 = s) as ->.
  { destruct (opt_baseUrl options) as [o |]; [destruct (Js.truthy_string o) |];
      injection U as _ <-; reflexivity. }
  revert T. eapply frame_closes_page; [| | exact H].
  - destruct (negb (default false (opt_jsonOutput options)));
      [apply obeys_throw; exact I | apply obeys_ret].
  - intros browser page' t s5 r' s'' HK. cbv beta in HK.
    rewrite <- bind_ret_r in HK.
    eapply (closes_after_body (fun _ => false) (fun _ => True) (fun _ => False));
      [apply obeys_throw; exact I | | exact HK].
    intros a. apply obeys_ret.
Qed.

(** X13.  Once the page of a run has been set up, the run closes it:
    whatever the step loop did (also when the loaded flow has no steps to loop
    over), the loop's calls are followed by [page.close()].  The browser is
    closed next only if that call returned; if it threw, nothing more is
    called and the run throws that exception. *)
Theorem run_flow_always_closes_page options loaded s r s' pre ready post page :
  run_loaded options loaded s = (r, s') ->
  trace s' = trace s ++ pre ++ ready :: post ->
  ev_call ready = PageEvaluateOnNewDocument page -> ev_threw ready = None ->
  exists loop closing rest,
    post = loop ++ closing :: rest /\
    Forall (fun ev => is_loop_call (ev_call ev) = true) loop /\
    ev_call closing = PageClose page /\
    match ev_threw closing with
    | Some e => rest = [] /\ r = inl e
    | None =>
        exists closing2 rest' browser,
          rest = closing2 :: rest' /\ ev_call closing2 = BrowserClose browser
    end.
Proof.
  destruct loaded as [flow | name b n |]; simpl.
  - apply run_flow_closes_page.
  - apply run_stepless_closes_page.
  - apply run_null_closes_page.
Qed.


(* ================================================================== *)
(** * Further properties: the cache, clicking, the reporter, the batch runners *)
(* ================================================================== *)

Section WithExtras.

Context {EX : Extras RT}.

Lemma call_extra_inv c s r s' :
  call_extra c s = (r, s') ->
  exists w', perform_extra c (world s) = (r, w') /\
             s' = mkState (browserInstance s) w' (trace s).
Proof.
  unfold call_extra. destruct (perform_extra c (world s)) as [r0 w'].
  intros H. injection H as <- <-. exists w'. split; reflexivity.
Qed.

(** ** The browser cache *)

Lemma launchBrowser_fresh options s :
  browserInstance s = None ->
  first_call s (snd (launchBrowser options s))
  = Some (PuppeteerLaunch (default true (bo_headless options))
            (default 0 (bo_slowMo options)) (bo_userDataDir options)).
Proof.
  intros B. unfold launchBrowser, bind, get_browserInstance. rewrite B.
  destruct (call (PuppeteerLaunch (default true (bo_headless options))
                    (default 0 (bo_slowMo options)) (bo_userDataDir options)) s)
    as [[e | b] s1] eqn:C;
    apply call_inv in C; destruct C as (w & _ & ->); unfold first_call; simpl;
    rewrite nth_error_app2 by lia; rewrite Nat.sub_diag; reflexivity.
Qed.

(** X15.  [closeBrowser] empties the cache only when [browser.close()]
    returns: then the next [launchBrowser] launches a new browser, with the
    options it is given.  When [browser.close()] throws, the cache keeps the
    browser and the next [launchBrowser] returns it. *)
Theorem closeBrowser_then_launchBrowser s r s1 options :
  closeBrowser s = (r, s1) ->
  match r with
  | inr _ =>
      browserInstance s1 = None /\
      first_call s1 (snd (launchBrowser options s1))
      = Some (PuppeteerLaunch (default true (bo_headless options))
                (default 0 (bo_slowMo options)) (bo_userDataDir options))
  | inl _ =>
      exists browser,
        browserInstance s = Some browser /\
        launchBrowser options s1 = (inr browser, s1)
  end.
Proof.
  unfold closeBrowser, bind, get_browserInstance.
  destruct (browserInstance s) as [b |] eqn:B.
  - destruct (call (BrowserClose b) s) as [[e | u] s2] eqn:C; intros H;
      injection H as <- <-.
    + exists b. split; [reflexivity |]. apply launchBrowser_cached.
      apply (call_inv (BrowserClose b)) in C. destruct C as (w & _ & ->). exact B.
    + simpl. split; [reflexivity |]. apply launchBrowser_fresh. reflexivity.
  - intros H. injection H as <- <-. split; [exact B |].
    apply launchBrowser_fresh. exact B.
Qed.

(** X16.  [getBrowser] never replaces a cached browser: with a browser in
    the cache it returns that browser, connected or not, launches nothing and
    changes nothing. *)
Theorem getBrowser_keeps_cached s browser :
  browserInstance s = Some browser ->
  getBrowser s = (inr browser, s).
Proof.
  intros B. unfold getBrowser, bind, get_browserInstance, browser_connected.
  rewrite B. destruct (connected (world s) browser); simpl; [reflexivity |].
  rewrite (launchBrowser_cached _ _ _ B). unfold set_browserInstance, ret.
  destruct s as [c w t]. simpl in *. subst c. reflexivity.
Qed.

(** ** Clicking *)

(** X17.  [safeClick] never throws: it returns a boolean from every
    state, and [true] only when the element was found and the click on it
    returned. *)
Theorem safeClick_never_throws page sel s :
  (exists b s', safeClick page sel s = (inr b, s')) /\
  (forall s', safeClick page sel s = (inr true, s') ->
     exists h w1 w2,
       perform_extra (PageQuery page sel) (world s) = (inr (Some h), w1) /\
       perform_extra (ElementClick h) w1 = (inr tt, w2) /\
       world s' = w2).
Proof.
  unfold safeClick, try_catch, bind, call_extra, ret.
  destruct (perform_extra (PageQuery page sel) (world s)) as [[e | [h |]] w1] eqn:Q;
    simpl.
  - split; [eauto |]. intros s' H. discriminate H.
  - destruct (perform_extra (ElementClick h) w1) as [[e | []] w2] eqn:C; simpl.
    + split; [eauto |]. intros s' H. discriminate H.
    + split; [eauto |]. intros s' H. injection H as <-.
      exists h, w1, w2. repeat split. exact C.
  - split; [eauto |]. intros s' H. discriminate H.
Qed.

(** X18.  [waitAndClick] clicks only after its wait has returned: a
    click in its log is preceded by the wait for the same selector, with the
    given timeout or 10000 ms, which did not throw. *)
Theorem waitAndClick_waits_first page sel timeout s r s' evs ev :
  waitAndClick page sel timeout s = (r, s') ->
  trace s' = trace s ++ evs ->
  In ev evs -> ev_call ev = PageClick page sel ->
  exists waited rest,
    evs = waited :: rest /\
    ev_call waited
    = PageWaitForSelector page sel false (Some (default 10000 timeout)) /\
    ev_threw waited = None.
Proof.
  intros H T In_ev Cl. unfold waitAndClick in H. cbv zeta in H.
  apply bind_inv in H. destruct H as [(e & H & ->) | (u & s1 & W & H)].
  - exfalso.
    apply (call_inv (PageWaitForSelector page sel false (Some (default 10000 timeout))))
      in H.
    destruct H as (w & _ & ->). simpl in T. apply app_inv_head in T. subst evs.
    destruct In_ev as [<- | []]. simpl in Cl. discriminate Cl.
  - apply (call_inv (PageWaitForSelector page sel false (Some (default 10000 timeout))))
      in W.
    destruct W as (w & _ & ->).
    match type of H with
    | ?m _ = _ =>
        assert (O : obeys (fun _ => true) (fun _ => true) (fun _ => False) m)
          by (unfold randomDelay; repeat obeys_step)
    end.
    destruct (O _ _ _ H) as (rest & T' & _). simpl in T'.
    rewrite T', <- app_assoc in T. apply app_inv_head in T. subst evs.
    do 2 eexists. split; [reflexivity |]. split; reflexivity.
Qed.

(* ================================================================== *)
(** * The reporter *)
(* ================================================================== *)

(** X19.  For a step whose tags all have their companion field, the
    label [getActionName] gives is the label of the branch that
    [executeStep] selects; and whatever the step, the label [unknown action]
    is given only to steps that select no branch. *)
Theorem getActionName_names_selected st :
  ((type st <> None -> text st <> None) ->
   (verify st <> None -> contains st <> None) ->
   (select st <> None -> value st <> None) ->
   getActionName st =
   match selected st with
   | Navigate target => "goto " ++ target
   | Click sel => "click " ++ Js.dquote ++ sel ++ Js.dquote
   | TypeText sel _ => "type " ++ sel
   | WaitFor sel => "waitFor " ++ sel
   | Screenshot label => "screenshot " ++ Js.dquote ++ label ++ Js.dquote
   | Verify sel expected =>
       "verify " ++ sel ++ " contains " ++ Js.dquote ++ expected ++ Js.dquote
   | Wait ms => "wait " ++ Number_toString ms ++ "ms"
   | Scroll sel => "scroll " ++ sel
   | Hover sel => "hover " ++ sel
   | Select sel _ => "select " ++ sel
   | PressKey key => "press " ++ key
   | Evaluate _ => "evaluate (custom JS)"
   | Unknown => "unknown action"
   end%string) /\
  (getActionName st = "unknown action" -> selected st = Unknown).
Proof.
  unfold getActionName, selected. split.
  - intros Ht Hv Hs.
    destruct (goto st); [reflexivity |].
    destruct (click st); [reflexivity |].
    destruct (type st); [destruct (text st); [reflexivity | exfalso; apply Ht; congruence] |].
    destruct (waitFor st); [reflexivity |].
    destruct (screenshot st); [reflexivity |].
    destruct (verify st);
      [destruct (contains st); [reflexivity | exfalso; apply Hv; congruence] |].
    destruct (wait st); [reflexivity |].
    destruct (scroll st); [reflexivity |].
    destruct (hover st); [reflexivity |].
    destruct (select st); [destruct (value st); [reflexivity | exfalso; apply Hs; congruence] |].
    destruct (press st); [reflexivity |].
    destruct (evaluate st); reflexivity.
  - destruct (goto st); [discriminate |].
    destruct (click st); [discriminate |].
    destruct (type st); [discriminate |].
    destruct (waitFor st); [discriminate |].
    destruct (screenshot st); [discriminate |].
    destruct (verify st); [discriminate |].
    destruct (wait st); [discriminate |].
    destruct (scroll st); [discriminate |].
    destruct (hover st); [discriminate |].
    destruct (select st); [discriminate |].
    destruct (press st); [discriminate |].
    destruct (evaluate st); [discriminate | reflexivity].
Qed.

Lemma map_indexed_index {A B} (f : A -> nat -> B) (g : B -> nat) l :
  (forall x i, g (f x i) = (i + 1)%nat) ->
  forall i, map g (map_indexed f l i) = seq (i + 1) (List.length l).
Proof.
  intros Hg. induction l as [| x l IH]; intros i; simpl; [reflexivity |].
  rewrite Hg, IH. replace (S i + 1)%nat with (S (i + 1)) by lia. reflexivity.
Qed.

Lemma map_indexed_map {A B C} (f : A -> nat -> B) (g : B -> C) (h : A -> C) l :
  (forall x i, g (f x i) = h x) ->
  forall i, map g (map_indexed f l i) = map h l.
Proof.
  intros Hg. induction l as [| x l IH]; intros i; simpl; [reflexivity |].
  rewrite Hg, IH. reflexivity.
Qed.

(** X20.  The report built from the result of a run has one entry per
    recorded outcome, numbered 1, 2, ... in order, each carrying the outcome's
    success flag, error and screenshot path; and its summary says [success]
    exactly when every entry does. *)
Theorem createJsonReport_of_run options s r s1 s2 rep s3 :
  runTestFlow options s = (inr r, s1) ->
  createJsonReport r s2 = (inr rep, s3) ->
  map sr_index (rep_steps rep) = seq 1 (List.length (steps r)) /\
  map sr_success (rep_steps rep) = map success (steps r) /\
  map sr_error (rep_steps rep) = map error (steps r) /\
  map sr_screenshot (rep_steps rep) = map screenshotPath (steps r) /\
  (sum_success (rep_summary rep) = true <->
   Forall (fun entry => sr_success entry = true) (rep_steps rep)) /\
  s3 = s2.
Proof.
  intros Run H. unfold createJsonReport, bind, Date_toISOString, ret in H.
  injection H as <- <-. simpl.
  split; [apply (map_indexed_index _ sr_index); reflexivity |].
  assert (Su : map sr_success
                 (map_indexed
                    (fun s0 i =>
                       mkStepReport (i + 1) (getActionName (step s0)) (success s0)
                         (duration s0) (error s0) (screenshotPath s0))
                    (steps r) 0) = map success (steps r))
    by (apply map_indexed_map; reflexivity).
  split; [exact Su |].
  split; [apply map_indexed_map; reflexivity |].
  split; [apply map_indexed_map; reflexivity |].
  split; [| reflexivity].
  destruct (runTestFlow_tally _ _ _ _ Run) as (P & PF).
  assert (Z : failed r = 0%nat <-> Forall (fun o => success o = true) (steps r)).
  { rewrite <- filter_all_length. lia. }
  rewrite Nat.eqb_eq, Z.
  rewrite <- (Forall_map sr_success (fun b => b = true)), Su, Forall_map.
  reflexivity.
Qed.

(* ================================================================== *)
(** * The smoke test *)
(* ================================================================== *)

(** What the [try] block of [runSmokeTest] needs to answer [true]. *)
Lemma smoke_check_true page url timeout s er s' :
  smoke_check page url timeout s = (inr (true, er), s') ->
  exists w1 title w2 content,
    perform (PageGoto page url timeout) (world s) = (inr tt, w1) /\
    perform_extra (PageTitle page) w1 = (inr title, w2) /\
    perform_extra (PageContent page) w2 = (inr content, world s') /\
    Js.includes content "502 Bad Gateway" = false /\
    Js.includes content "503 Service Unavailable" = false /\
    Js.includes content "500 Internal Server Error" = false /\
    Js.includes content "404 Not Found" = false /\
    (title <> EmptyString \/ (100 <= String.length content)%nat) /\
    exists ev, trace s' = trace s ++ [ev] /\ ev_call ev = PageGoto page url timeout /\
               ev_threw ev = None.
Proof.
  unfold smoke_check. intros H.
  apply bind_inr in H. destruct H as ([] & s1 & G & H).
  apply (call_inv (PageGoto page url timeout)) in G. destruct G as (w1 & G & ->).
  apply bind_inr in H. destruct H as (title & s2 & Ti & H).
  apply (call_extra_inv (PageTitle page)) in Ti. destruct Ti as (w2 & Ti & ->).
  apply bind_inr in H. destruct H as (content & s3 & Co & H).
  apply (call_extra_inv (PageContent page)) in Co. destruct Co as (w3 & Co & ->).
  simpl in *.
  destruct (Js.includes content "502 Bad Gateway") eqn:E1; [discriminate H |].
  destruct (Js.includes content "503 Service Unavailable") eqn:E2; [discriminate H |].
  destruct (Js.includes content "500 Internal Server Error") eqn:E3; [discriminate H |].
  destruct (Js.includes content "404 Not Found") eqn:E4; [discriminate H |].
  simpl in H.
  destruct (negb (Js.truthy_string title) && (String.length content <? 100)%nat) eqn:Em;
    [discriminate H |].
  injection H as _ <-. simpl.
  exists w1, title, w2, content. repeat split; try assumption.
  - apply andb_false_iff in Em. destruct Em as [Em | Em].
    + left. apply negb_false_iff in Em. unfold Js.truthy_string in Em.
      apply negb_true_iff in Em. intros ->. discriminate Em.
    + right. apply Nat.ltb_ge in Em. exact Em.
  - eexists. split; [reflexivity |]. split; reflexivity.
Qed.

(** The stages of a smoke test that returns. *)
Lemma runSmokeTest_inr url options s b s' :
  runSmokeTest url options s = (inr b, s') ->
  let timeout := default 30000 (sopt_timeout options) in
  exists browser s1 page s2 er s3 s4 s5 s6 n,
    launchBrowser (mkBrowserOptions (Some (default true (sopt_headless options)))
                     None None) s = (inr browser, s1) /\
    newPage browser s1 = (inr page, s2) /\
    try_catch (smoke_check page url timeout)
      (fun err => ret (false, Some (error_message err))) s2 = (inr (b, er), s3) /\
    call (PageClose page) s3 = (inr tt, s4) /\
    call (BrowserClose browser) s4 = (inr tt, s5) /\
    call_extra (ReportSmokeTest url b (clock (world s5) - clock (world s2)) er) s5
    = (inr tt, s6) /\
    call (RecordTestRun
            (mkRecord "Smoke Test" url (if b then 1%nat else 0%nat)
               (if b then 0%nat else 1%nat) 1%nat
               (clock (world s5) - clock (world s2)) (isoString (world s6)))) s6
    = (inr n, s').
Proof.
  unfold runSmokeTest. cbv zeta. intros H.
  apply bind_inr in H. destruct H as (browser & s1 & H1 & H).
  apply bind_inr in H. destruct H as (page & s2 & H2 & H).
  apply bind_inr in H. destruct H as (startTime & s2' & D & H). injection D as <- <-.
  apply bind_inr in H. destruct H as ([b0 er] & s5 & TF & H).
  apply try_finally_inr in TF. destruct TF as (s3 & TC & Fin).
  apply bind_inr in Fin. destruct Fin as ([] & s4 & PC & BC).
  destruct (call (BrowserClose browser) s4) as [[e | []] sx] eqn:BC'; [discriminate BC |].
  injection BC as ->.
  apply bind_inr in H. destruct H as (now & s5' & D & H). injection D as <- <-.
  apply bind_inr in H. destruct H as ([] & s6 & Rp & H).
  apply bind_inr in H. destruct H as (created & s6' & D & H). injection D as <- <-.
  apply bind_inr in H. destruct H as (n & s7 & Rc & H).
  injection H as <- <-. simpl in *.
  exists browser, s1, page, s2, er, s3, s4, s5, s6, n. repeat split; assumption.
Qed.

(** X21.  [runSmokeTest] answers [true] only for a page that loaded:
    the navigation returned, the content holds none of the four error
    markers, and the page has a title or at least 100 characters of
    content. *)
Theorem runSmokeTest_true_only_if_loaded url options s s' :
  runSmokeTest url options s = (inr true, s') ->
  exists page w0 w1 title w2 content w3,
    perform (PageGoto page url (default 30000 (sopt_timeout options))) w0 = (inr tt, w1) /\
    perform_extra (PageTitle page) w1 = (inr title, w2) /\
    perform_extra (PageContent page) w2 = (inr content, w3) /\
    Js.includes content "502 Bad Gateway" = false /\
    Js.includes content "503 Service Unavailable" = false /\
    Js.includes content "500 Internal Server Error" = false /\
    Js.includes content "404 Not Found" = false /\
    (title <> EmptyString \/ (100 <= String.length content)%nat).
Proof.
  intros H. apply runSmokeTest_inr in H. cbv zeta in H.
  destruct H as (browser & s1 & page & s2 & er & s3 & s4 & s5 & s6 & n
                 & _ & _ & TC & _).
  unfold try_catch in TC.
  destruct (smoke_check page url (default 30000 (sopt_timeout options)) s2)
    as [[e | [b0 er0]] s3'] eqn:Ch.
  - discriminate TC.
  - injection TC as -> -> ->. apply smoke_check_true in Ch.
    destruct Ch as (w1 & title & w2 & content & G & Ti & Co & E1 & E2 & E3 & E4 & Em & _).
    exists page, (world s2), w1, title, w2, content, (world s3).
    repeat split; assumption.
Qed.

(** X22.  A smoke test that returns has recorded exactly one test run, as
    its last call: named [Smoke Test], for the URL tested, with [total] 1 and
    either [passed] 1 (when it answers [true]) or [failed] 1 (when it answers
    [false]).  A navigation that threw makes the answer [false]. *)
Theorem runSmokeTest_records_one_test url options s b s' evs :
  runSmokeTest url options s = (inr b, s') ->
  trace s' = trace s ++ evs ->
  (exists before recorded record,
     evs = before ++ [recorded] /\
     Forall (fun ev => is_record_call (ev_call ev) = false) before /\
     ev_call recorded = RecordTestRun record /\ ev_threw recorded = None /\
     rec_flow_name record = "Smoke Test" /\ rec_base_url record = url /\
     rec_total record = 1%nat /\
     (rec_passed record, rec_failed record)
     = (if b then (1%nat, 0%nat) else (0%nat, 1%nat))) /\
  (forall ev page target timeout,
     In ev evs -> ev_call ev = PageGoto page target timeout ->
     ev_threw ev <> None -> b = false).
Proof.
  intros H T. apply runSmokeTest_inr in H. cbv zeta in H.
  destruct H as (browser & s1 & page & s2 & er & s3 & s4 & s5 & s6 & n
                 & L & NP & TC & PC & BC & Rp & Rc).
  apply launchBrowser_inr in L. destruct L as (_ & evs1 & T1 & F1).
  apply newPage_inr in NP. destruct NP as (_ & e1 & e2 & e3 & T2 & C1 & C2 & C3 & _).
  assert (Chk : exists ev, trace s3 = trace s2 ++ [ev] /\
                  ev_call ev = PageGoto page url (default 30000 (sopt_timeout options)) /\
                  (ev_threw ev <> None -> b = false)).
  { unfold try_catch in TC.
    destruct (smoke_check page url (default 30000 (sopt_timeout options)) s2)
      as [[e | [b0 er0]] s3'] eqn:Ch.
    - injection TC as <- _ <-. unfold smoke_check in Ch.
      apply bind_inv in Ch. destruct Ch as [(e0 & G & _) | ([] & sa & G & Ch)].
      + apply (call_inv (PageGoto page url (default 30000 (sopt_timeout options)))) in G.
        destruct G as (w & _ & ->). simpl. eexists. split; [reflexivity |].
        split; reflexivity.
      + apply (call_inv (PageGoto page url (default 30000 (sopt_timeout options)))) in G.
        destruct G as (w & _ & ->).
        apply bind_inv in Ch. destruct Ch as [(e1' & Ti & _) | (title & sb & Ti & Ch)].
        * apply (call_extra_inv (PageTitle page)) in Ti. destruct Ti as (w' & _ & ->).
          simpl. eexists. split; [reflexivity |]. split; reflexivity.
        * apply (call_extra_inv (PageTitle page)) in Ti. destruct Ti as (w' & _ & ->).
          apply bind_inv in Ch. destruct Ch as [(e2' & Co & _) | (content & sc & Co & Ch)].
          -- apply (call_extra_inv (PageContent page)) in Co. destruct Co as (w'' & _ & ->).
             simpl. eexists. split; [reflexivity |]. split; reflexivity.
          -- exfalso. apply (call_extra_inv (PageContent page)) in Co.
             destruct Co as (w'' & _ & ->).
             repeat match type of Ch with
                    | context [if ?c then _ else _] => destruct c
                    end; discriminate Ch.
    - injection TC as -> -> ->.
      assert (Tr : exists ev, trace s3 = trace s2 ++ [ev] /\
                     ev_call ev = PageGoto page url (default 30000 (sopt_timeout options)) /\
                     ev_threw ev = None).
      { unfold smoke_check in Ch.
        apply bind_inr in Ch. destruct Ch as ([] & sa & G & Ch).
        apply (call_inv (PageGoto page url (default 30000 (sopt_timeout options)))) in G.
        destruct G as (w & _ & ->).
        apply bind_inr in Ch. destruct Ch as (title & sb & Ti & Ch).
        apply (call_extra_inv (PageTitle page)) in Ti. destruct Ti as (w' & _ & ->).
        apply bind_inr in Ch. destruct Ch as (content & sc & Co & Ch).
        apply (call_extra_inv (PageContent page)) in Co. destruct Co as (w'' & _ & ->).
        assert (s3 = mkState (browserInstance s2) w''
                       (trace s2 ++ [event_of (PageGoto page url
                          (default 30000 (sopt_timeout options))) s2 (inr tt) w])) as ->.
        { simpl in Ch.
          repeat match type of Ch with
                 | context [if ?c then _ else _] => destruct c
                 end; injection Ch as _ _ <-; reflexivity. }
        simpl. eexists. split; [reflexivity |]. split; reflexivity. }
      destruct Tr as (ev & Tr & Cg & Ok). exists ev. split; [exact Tr |].
      split; [exact Cg |]. intros N. contradiction. }
  destruct Chk as (eg & T3 & Cg & Gf).
  apply call_inr in PC. destruct PC as (_ & e4 & T4 & C4 & _).
  apply call_inr in BC. destruct BC as (_ & e5 & T5 & C5 & _).
  apply (call_extra_inv (ReportSmokeTest url b _ er)) in Rp. destruct Rp as (w6 & _ & ->).
  apply call_inr in Rc. destruct Rc as (_ & e7 & T7 & C7 & Ok7 & _).
  simpl in T7.
  rewrite T7, T5, T4, T3, T2, T1, <- !app_assoc in T. apply app_inv_head in T.
  subst evs. split.
  - exists (evs1 ++ [e1; e2; e3] ++ [eg] ++ [e4] ++ [e5]), e7. eexists.
    split; [rewrite <- !app_assoc; reflexivity |].
    split.
    { apply Forall_app. split.
      - eapply Forall_impl; [| exact F1]. intros ev A. simpl in A.
        destruct (ev_call ev); try discriminate A; reflexivity.
      - repeat constructor; [rewrite C1 | rewrite C2 | rewrite C3 | rewrite Cg
                             | rewrite C4 | rewrite C5]; reflexivity. }
    split; [exact C7 |]. split; [exact Ok7 |].
    simpl. repeat split. destruct b; reflexivity.
  - intros ev page0 target timeout0 In_ev Cev Th.
    apply in_app_or in In_ev. destruct In_ev as [In1 | In_ev].
    { rewrite Forall_forall in F1. specialize (F1 ev In1). rewrite Cev in F1.
      discriminate F1. }
    simpl in In_ev.
    destruct In_ev as [<- | [<- | [<- | [<- | [<- | [<- | [<- | []]]]]]]];
      try (rewrite Cev in *; discriminate).
    apply Gf. exact Th.
Qed.



(* ================================================================== *)
(** * Batches of flows *)
(* ================================================================== *)

Lemma total_count_app l1 l2 :
  total_count (l1 ++ l2) = (total_count l1 + total_count l2)%nat.
Proof. induction l1 as [| x l1 IH]; simpl; [reflexivity | rewrite IH; lia]. Qed.

(** What one turn of the loop of [runMultipleFlows] leaves. *)
Lemma run_flows_turn options flowPath acc s next s1 :
  try_catch
    (result <-
       runTestFlow
         (mkOptions (Some flowPath) None (bopt_baseUrl options)
            (bopt_screenshotDir options) (bopt_headless options)
            (bopt_stopOnFailure options) None) ;;
     let acc' :=
       mkBatch (results acc ++ [result])
               (totalPassed acc + passed result)
               (totalFailed acc + failed result) in
     ret (acc', (0 <? failed result)%nat
                && default false (bopt_stopOnFailure options)))
    (fun err =>
       call_extra (ConsoleError ("Error running flow " ++ flowPath ++ ":") err) ;;;
       ret (acc, false)) s = (inr next, s1) ->
  (next = (acc, false)) \/
  (exists result,
     fst next = mkBatch (results acc ++ [result])
                        (totalPassed acc + passed result)
                        (totalFailed acc + failed result) /\
     snd next = ((0 <? failed result)%nat && default false (bopt_stopOnFailure options))).
Proof.
  unfold try_catch.
  match goal with
  | |- match ?m s with _ => _ end = _ -> _ => destruct (m s) as [[e | nx] s2] eqn:B
  end.
  - intros H. left. apply bind_inr in H. destruct H as (u & s3 & _ & H).
    injection H as <- _. reflexivity.
  - intros H. injection H as <- <-. right.
    apply bind_inr in B. destruct B as (result & s3 & _ & B).
    injection B as <- _. exists result. split; reflexivity.
Qed.

Lemma run_flows_totals options flowPaths :
  forall acc s batch s',
    run_flows options flowPaths acc s = (inr batch, s') ->
    exists new,
      results batch = results acc ++ new /\
      totalPassed batch = (totalPassed acc + total_count (map passed new))%nat /\
      totalFailed batch = (totalFailed acc + total_count (map failed new))%nat /\
      (List.length new <= List.length flowPaths)%nat /\
      (default false (bopt_stopOnFailure options) = true ->
       Forall (fun r => failed r = 0%nat) (removelast new)).
Proof.
  induction flowPaths as [| flowPath rest IH]; intros acc s batch s' H; simpl in H.
  - injection H as <- <-. exists []. rewrite app_nil_r. simpl.
    split; [reflexivity |]. split; [lia |]. split; [lia |]. split; [lia |].
    intros _. constructor.
  - apply bind_inr in H. destruct H as (next & s1 & Turn & H).
    apply run_flows_turn in Turn.
    destruct Turn as [-> | (result & Fst & Snd)]; simpl in H.
    + apply IH in H. destruct H as (new & R & P & F & L & St).
      exists new. split; [exact R |]. split; [exact P |]. split; [exact F |].
      split; [simpl; lia | exact St].
    + rewrite Snd in H.
      destruct ((0 <? failed result)%nat && default false (bopt_stopOnFailure options))
        eqn:Flag.
      * injection H as <- <-. exists [result]. rewrite Fst. simpl.
        split; [reflexivity |]. split; [lia |]. split; [lia |]. split; [lia |].
        intros _. constructor.
      * apply IH in H. destruct H as (new & R & P & F & L & St). rewrite Fst in *.
        simpl in *. exists (result :: new). rewrite R, <- app_assoc. simpl.
        split; [reflexivity |]. split; [lia |]. split; [lia |]. split; [lia |].
        intros Stop. rewrite Stop, andb_true_r in Flag. apply Nat.ltb_ge in Flag.
        destruct new as [| x new']; [constructor |].
        constructor; [lia | exact (St Stop)].
Qed.

(** X23.  In what [runMultipleFlows] returns, [totalPassed] and
    [totalFailed] are the sums of [passed] and [failed] over the results; there
    is at most one result per flow path; and with stop-on-failure set, no
    result but the last has a failed step. *)
Theorem runMultipleFlows_totals flowPaths options s batch s' :
  runMultipleFlows flowPaths options s = (inr batch, s') ->
  totalPassed batch = total_count (map passed (results batch)) /\
  totalFailed batch = total_count (map failed (results batch)) /\
  (List.length (results batch) <= List.length flowPaths)%nat /\
  (default false (bopt_stopOnFailure options) = true ->
   Forall (fun r => failed r = 0%nat) (removelast (results batch))).
Proof.
  intros H. unfold runMultipleFlows in H.
  apply bind_inr in H. destruct H as (b & s1 & Loop & H).
  apply bind_inr in H. destruct H as (u1 & s2 & _ & H).
  apply bind_inr in H. destruct H as (u2 & s3 & _ & H).
  apply bind_inr in H. destruct H as (u3 & s4 & _ & H).
  injection H as <- _.
  apply run_flows_totals in Loop. destruct Loop as (new & R & P & F & L & St).
  simpl in *. subst new.
  split; [exact P |]. split; [exact F |]. split; [exact L | exact St].
Qed.

(** X24.  A flow whose run throws is reported and skipped: the exception
    is handed to [console.error] with the message [Error running flow ]path[:],
    and when that has returned the loop goes on with the next path and the
    batch as it was.  Hence, if printing to the console does not throw,
    [runMultipleFlows] returns whatever the flows do. *)
Theorem runMultipleFlows_always_returns flowPaths options s :
  (forall flowPath rest acc err s1 w2,
     runTestFlow
       (mkOptions (Some flowPath) None (bopt_baseUrl options)
          (bopt_screenshotDir options) (bopt_headless options)
          (bopt_stopOnFailure options) None) s = (inl err, s1) ->
     perform_extra (ConsoleError ("Error running flow " ++ flowPath ++ ":") err)
       (world s1) = (inr tt, w2) ->
     run_flows options (flowPath :: rest) acc s
     = run_flows options rest acc (mkState (browserInstance s1) w2 (trace s1))) /\
  (console_answers ->
   exists batch s', runMultipleFlows flowPaths options s = (inr batch, s')).
Proof.
  split.
  { intros flowPath rest acc err s1 w2 Run Print. cbn [run_flows].
    unfold bind at 1. unfold try_catch.
    rewrite (bind_throws _ _ _ _ _ Run).
    unfold bind at 1. unfold call_extra at 1. rewrite Print. reflexivity. }
  intros (CE & CL).
  assert (Loop : forall paths acc s0,
            exists batch s1, run_flows options paths acc s0 = (inr batch, s1)).
  { induction paths as [| flowPath rest IH]; intros acc s0; simpl.
    - do 2 eexists. reflexivity.
    - unfold bind at 1. unfold try_catch.
      match goal with
      | |- context [match ?m s0 with _ => _ end] =>
          destruct (m s0) as [[e | nx] s2] eqn:B
      end.
      + unfold bind at 1. unfold call_extra at 1.
        match goal with
        | |- context [perform_extra (ConsoleError ?m ?e0) ?w] =>
            destruct (CE m e0 w) as (w' & ->)
        end.
        simpl. apply IH.
      + destruct (snd nx); [do 2 eexists; reflexivity | apply IH]. }
  destruct (Loop flowPaths (mkBatch [] 0%nat 0%nat) s) as (batch & s1 & E).
  exists batch. unfold runMultipleFlows.
  destruct (CL (newline ++ repeat_string "=" 50)%string (world s1)) as (w1 & C1).
  destruct (CL ("Total: " ++ Number_toString (Z.of_nat (totalPassed batch)) ++ "/"
                ++ Number_toString (Z.of_nat (totalPassed batch + totalFailed batch))
                ++ " passed across "
                ++ Number_toString (Z.of_nat (List.length (results batch)))
                ++ " flows")%string w1) as (w2 & C2).
  destruct (CL (repeat_string "=" 50 ++ newline)%string w2) as (w3 & C3).
  eexists. rewrite (bind_ok _ _ _ _ _ E).
  unfold bind, call_extra, ret. cbn [world]. rewrite C1. cbn [world]. rewrite C2.
  cbn [world]. rewrite C3. reflexivity.
Qed.



(** ** One browser for the whole batch *)


Lemma one_session_trans c evs1 c1 evs2 c2 :
  one_session c evs1 c1 -> one_session c1 evs2 c2 ->
  one_session c (evs1 ++ evs2) c2.
Proof.
  destruct c as [b |]; simpl.
  - intros (-> & F1). simpl. intros (-> & F2). split; [reflexivity |].
    apply Forall_app. split; assumption.
  - intros [(-> & F1) | (b & pre & post & -> & -> & Fp & Fq)]; simpl.
    + intros [(-> & F2) | (b & pre & post & -> & -> & Fp & Fq)].
      * left. split; [reflexivity |]. apply Forall_app. split; assumption.
      * right. exists b, (evs1 ++ pre), post. rewrite app_assoc.
        repeat split; try assumption. apply Forall_app. split; assumption.
    + intros (-> & F2). right. exists b, pre, (post ++ evs2). rewrite app_assoc.
      repeat split; try assumption. apply Forall_app. split; assumption.
Qed.

Lemma sessions_bind {A B} (m : M A) (f : A -> M B) :
  sessions m -> (forall a, sessions (f a)) -> sessions (bind m f).
Proof.
  intros Hm Hf s r s' H. apply bind_inv in H.
  destruct H as [(e & H & ->) | (a & s1 & H1 & H2)].
  - exact (Hm _ _ _ H).
  - destruct (Hm _ _ _ H1) as (evs1 & T1 & S1).
    destruct (Hf a _ _ _ H2) as (evs2 & T2 & S2).
    exists (evs1 ++ evs2). rewrite T2, T1, app_assoc. split; [reflexivity |].
    eapply one_session_trans; eassumption.
Qed.




Lemma neutral_forall l :
  Forall (fun ev => browser_neutral (ev_call ev) = true) l ->
  Forall (fun ev => before_session (ev_call ev) = true) l /\
  forall b, Forall (fun ev => stays_on b (ev_call ev) = true) l.
Proof.
  intros F. split; [| intros b]; (eapply Forall_impl; [| exact F]); intros ev N;
    simpl in N; destruct (ev_call ev); try discriminate N; reflexivity.
Qed.

(** A computation that leaves browsers and the cache alone. *)
Lemma sessions_neutral {A} Q X (m : M A) :
  obeys browser_neutral Q X m -> keeps_cache m -> sessions m.
Proof.
  intros O K s r s' H. destruct (O _ _ _ H) as (evs & T & F & _).
  exists evs. split; [exact T |]. rewrite (K _ _ _ H).
  destruct (neutral_forall _ F) as (Fb & Fs).
  destruct (browserInstance s) as [b |]; simpl.
  - split; [reflexivity | apply Fs].
  - left. split; [reflexivity | exact Fb].
Qed.

(** A launch followed by work on the browser it returned. *)
Lemma sessions_launch {A} Q X options (rest : Browser -> M A) :
  (forall b, obeys (stays_on b) Q X (rest b)) ->
  (forall b, keeps_cache (rest b)) ->
  sessions (bind (launchBrowser options) rest).
Proof.
  intros O K s r s' H.
  destruct (browserInstance s) as [b |] eqn:B.
  - rewrite (bind_ok _ _ _ _ _ (launchBrowser_cached options _ _ B)) in H.
    destruct (O b _ _ _ H) as (evs & T & F & _).
    exists evs. split; [exact T |]. rewrite (K b _ _ _ H), B. simpl.
    split; [reflexivity | exact F].
  - apply bind_inv in H. destruct H as [(e & H & ->) | (b & s1 & L & H)].
    + unfold launchBrowser, bind, get_browserInstance in H. rewrite B in H.
      destruct (call _ s) as [[e0 | b0] s1] eqn:C; [| discriminate H].
      injection H as <- <-. apply call_inv in C. destruct C as (w & _ & ->).
      simpl. eexists. split; [reflexivity |]. rewrite B. simpl. left.
      split; [reflexivity | repeat constructor].
    + unfold launchBrowser, bind, get_browserInstance in L. rewrite B in L.
      destruct (call _ s) as [[e0 | b0] s2] eqn:C; [discriminate L |].
      injection L as <- <-. apply call_inv in C. destruct C as (w & _ & ->).
      destruct (O b0 _ _ _ H) as (evs & T & F & _).
      pose proof (K b0 _ _ _ H) as Kc. simpl in T, Kc.
      eexists. split; [rewrite T, <- app_assoc; reflexivity |].
      rewrite Kc. simpl. right. exists b0. eexists (cons _ nil), evs.
      split; [reflexivity |]. split; [reflexivity |]. split; [| exact F].
      repeat constructor.
Qed.

Ltac on_browser_tac b :=
  repeat first
    [ apply obeys_ret
    | apply obeys_pure
    | apply obeys_try_finally
    | apply run_steps_obeys_weak; intros c; destruct c; simpl; intros E;
      try discriminate E; reflexivity
    | match goal with
      | |- obeys _ _ _ (call ?c) =>
          apply (obeys_call _ _ _ c); simpl; first [reflexivity | apply Nat.eqb_refl]
      end
    | apply obeys_bind; [| intros ?]
    | match goal with
      | |- obeys _ _ _ (match ?x with _ => _ end) => destruct x
      end ].

Ltac keeps_all_tac :=
  repeat first
    [ apply keeps_try_finally
    | apply run_steps_keeps
    | keeps_step ].

Lemma run_flow_sessions options flow : sessions (run_flow options flow).
Proof.
  unfold run_flow. cbv zeta.
  do 3 (apply sessions_bind;
        [ apply (sessions_neutral (fun _ => true) (fun _ => False));
          [repeat obeys_step | repeat keeps_step]
        | intros ? ]).
  apply (sessions_launch (fun _ => true) (fun _ => False)).
  - intros b. unfold newPage. on_browser_tac b.
  - intros b. unfold newPage. keeps_all_tac.
Qed.

Lemma run_stepless_sessions options name b n :
  sessions (run_stepless options name b n).
Proof.
  unfold run_stepless. cbv zeta.
  do 3 (apply sessions_bind;
        [ apply (sessions_neutral (fun _ => true) (fun _ => False));
          [repeat obeys_step | repeat keeps_step]
        | intros ? ]).
  apply (sessions_launch (fun _ => true) (fun _ => True)).
  - intros browser. unfold newPage.
    repeat first
      [ apply obeys_throw; exact I
      | apply obeys_ret
      | apply obeys_pure
      | apply obeys_try_finally
      | match goal with
        | |- obeys _ _ _ (call ?c) =>
            apply (obeys_call _ _ _ c); simpl; first [reflexivity | apply Nat.eqb_refl]
        end
      | apply obeys_bind; [| intros ?] ].
  - intros browser. unfold newPage.
    repeat first
      [ apply keeps_throw
      | apply keeps_try_finally
      | keeps_step ].
Qed.

Lemma run_null_sessions options : sessions (run_null options).
Proof.
  unfold run_null. cbv zeta.
  do 4 (apply sessions_bind;
        [ apply (sessions_neutral (fun _ => true) (fun _ => True));
          [ repeat first [apply obeys_throw; exact I | obeys_step]
          | repeat first [apply keeps_throw | keeps_step] ]
        | intros ? ]).
  apply (sessions_launch (fun _ => true) (fun _ => True)).
  - intros browser. unfold newPage.
    repeat first
      [ apply obeys_throw; exact I
      | apply obeys_ret
      | apply obeys_pure
      | apply obeys_try_finally
      | match goal with
        | |- obeys _ _ _ (call ?c) =>
            apply (obeys_call _ _ _ c); simpl; first [reflexivity | apply Nat.eqb_refl]
        end
      | apply obeys_bind; [| intros ?] ].
  - intros browser. unfold newPage.
    repeat first
      [ apply keeps_throw
      | apply keeps_try_finally
      | keeps_step ].
Qed.

Lemma run_loaded_sessions options loaded : sessions (run_loaded options loaded).
Proof.
  destruct loaded as [flow | name b n |]; simpl.
  - apply run_flow_sessions.
  - apply run_stepless_sessions.
  - apply run_null_sessions.
Qed.

Lemma runTestFlow_sessions options : sessions (runTestFlow options).
Proof.
  unfold runTestFlow.
  apply sessions_bind; [| intros loaded; apply run_loaded_sessions].
  apply (sessions_neutral is_load_call is_flow_error); [| apply load_flow_keeps].
  eapply obeys_weaken; [apply load_flow_obeys | | | ]; auto.
  intros c; destruct c; simpl; intros E; try discriminate E; reflexivity.
Qed.

(** X14.  Once [launchBrowser] has returned a browser, the cache holds
    it, and as long as the cache is not changed, [launchBrowser] returns that
    same browser whatever options it is given (a different [headless] flag is
    ignored), makes no call and changes nothing.  A run of [runTestFlow],
    returned or thrown, does not change the cache. *)
Theorem launchBrowser_reuses_first options s browser s1 :
  launchBrowser options s = (inr browser, s1) ->
  (forall s2, browserInstance s2 = browserInstance s1 ->
     forall later, launchBrowser later s2 = (inr browser, s2)) /\
  (forall o r s2, runTestFlow o s1 = (r, s2) ->
     browserInstance s2 = browserInstance s1).
Proof.
  intros H. apply launchBrowser_inr in H. destruct H as (B & _). split.
  - intros s2 B2 later. apply launchBrowser_cached. rewrite B2. exact B.
  - intros o r s2 Run. destruct (runTestFlow_sessions o _ _ _ Run) as (evs & _ & One).
    rewrite B in One. simpl in One. destruct One as (-> & _). symmetry. exact B.
Qed.



End WithExtras.

End Properties.


(* ================================================================== *)
(** * The engine on the concrete runtime *)
(* ================================================================== *)

Section Examples.

Import Demo.

Local Open Scope list_scope.

Ltac run_demo :=
  match goal with
  | |- ?A /\ _ => assert (Run : A) by (vm_compute; reflexivity)
  end.

Ltac have_demo H :=
  match goal with
  | |- ?A /\ _ => assert (H : A) by (vm_compute; reflexivity); split; [exact H |]
  end.

(** The part of a log after the log of [start], cut at position [k]. *)
Ltac cut_trace T k :=
  match goal with
  | |- trace ?S = _ /\ _ =>
      assert (T : trace S
                  = trace start
                    ++ firstn k (trace S)
                    ++ nth k (trace S) (mkEvent (FsExistsSync EmptyString) 0 0 None)
                       :: skipn (Datatypes.S k) (trace S))
        by (vm_compute; reflexivity);
      split; [exact T |]
  end.

Ltac whole_trace T :=
  match goal with
  | |- trace ?S = _ /\ _ =>
      assert (T : trace S = trace start ++ trace S) by (symmetry; exact (app_nil_l _));
      split; [exact T |]
  end.


(** A step whose wait times out: the [try] block throws, the step returns. *)
Lemma C2_witness :
  exists e s1 r,
    step_action 1%nat (waitForStep "#missing") EmptyString "./screenshots"
      (mkResult (waitForStep "#missing") false 0 None None) start = (inl e, s1) /\
    executeStep 1%nat (waitForStep "#missing") EmptyString "./screenshots" start
      = (inr r, s1) /\
    success r = false /\
    error r = Some "TimeoutError: Waiting for selector `#missing` failed".
Proof.
  do 2 eexists.
  assert (Thrown : step_action 1%nat (waitForStep "#missing") EmptyString "./screenshots"
            (mkResult (waitForStep "#missing") false 0 None None) start
          = (inl (Js.ErrorObj "TimeoutError" "Waiting for selector `#missing` failed"),
             snd (executeStep 1%nat (waitForStep "#missing") EmptyString
                    "./screenshots" start)))
    by (vm_compute; reflexivity).
  destruct (proj1 (proj2 (C2_executeStep_never_throws 1%nat (waitForStep "#missing")
                            EmptyString "./screenshots" start)) _ _ Thrown)
    as (r & E & S & Er).
  exists r. split; [exact Thrown |]. split; [exact E |]. split; [exact S | exact Er].
Defined.

(** A step with a [type] tag and no [text], but with a [waitFor] tag: the
    wait is executed and the step passes. *)
Lemma C3_counterexample :
  type typeWithoutText = Some "#x" /\ text typeWithoutText = None /\
  exists r s',
    executeStep 1%nat typeWithoutText EmptyString "./screenshots" start = (inr r, s') /\
    success r = true /\ error r = None /\
    map ev_call (trace s') = [PageWaitForSelector 1%nat "#y" true (Some 30000)].
Proof.
  split; [reflexivity |]. split; [reflexivity |].
  do 2 eexists. split; [vm_compute; reflexivity |].
  repeat split.
Qed.

(** A step with a [type] tag only is classified at once; with a [waitFor]
    tag beside it, the wait of [waitFor] is issued. *)
Lemma C3_witness :
  (selected onlyType = Unknown /\
   executeStep 1%nat onlyType EmptyString "./screenshots" start =
   (inr (mkResult onlyType false 0
           (Some ("Unknown step type: " ++ stringify onlyType)%string) None), start)) /\
  first_call start
    (snd (executeStep 1%nat typeWithoutText EmptyString "./screenshots" start))
  = Some (PageWaitForSelector 1%nat "#y" true (Some 30000)).
Proof.
  split.
  - split; [reflexivity |].
    apply (proj1 (C3_unmatched_step_fails 1%nat onlyType EmptyString "./screenshots"
                    start)).
    reflexivity.
  - apply (proj2 (proj2 (C3_unmatched_step_fails 1%nat typeWithoutText EmptyString
                           "./screenshots" start)) "#y"); reflexivity.
Defined.

(** The heading reads [Welcome, Jane]; [welcome] is found, [Goodbye] is not.
    The element [#long] holds 120 characters, and the message shows the first
    100 of them. *)
Lemma C4_witness :
  (exists r s',
     executeStep 1%nat (verifyStep "h1" "welcome") EmptyString "./screenshots" start
       = (inr r, s') /\ success r = true) /\
  (exists r s' msg,
     executeStep 1%nat (verifyStep "h1" "Goodbye") EmptyString "./screenshots" start
       = (inr r, s') /\ success r = false /\ error r = Some msg /\
     Js.includes msg "Goodbye" = true /\ Js.includes msg "Welcome, Jane" = true) /\
  (exists r s',
     executeStep 1%nat (verifyStep "#long" "Goodbye") EmptyString "./screenshots" start
       = (inr r, s') /\ success r = false /\
     String.length longText = 120%nat /\
     error r = Some ("Expected " ++ Js.dquote ++ "Goodbye" ++ Js.dquote ++ " but found "
                       ++ Js.dquote ++ repeat_string "0123456789" 10 ++ Js.dquote)%string).
Proof.
  split; [| split].
  - destruct (C4_verify_case_insensitive 1%nat (verifyStep "h1" "welcome")
                EmptyString "./screenshots" start "h1" "welcome"
                (Some "Welcome, Jane") 10 15 eq_refl eq_refl eq_refl)
      as (r & s' & E & (_ & S) & _).
    exists r, s'. split; [exact E |]. apply S.
    exists EmptyString, ", jane". reflexivity.
  - destruct (C4_verify_case_insensitive 1%nat (verifyStep "h1" "Goodbye")
                EmptyString "./screenshots" start "h1" "Goodbye"
                (Some "Welcome, Jane") 10 15 eq_refl eq_refl eq_refl)
      as (r & s' & E & _ & _ & F).
    assert (S : success r = false).
    { vm_compute in E. injection E as <- _. reflexivity. }
    destruct (F S) as (msg & Er & _ & I1 & I2 & _).
    exists r, s', msg. repeat split; assumption.
  - destruct (C4_verify_case_insensitive 1%nat (verifyStep "#long" "Goodbye")
                EmptyString "./screenshots" start "#long" "Goodbye"
                (Some longText) 10 15 eq_refl eq_refl eq_refl)
      as (r & s' & E & _ & _ & F).
    assert (S : success r = false).
    { vm_compute in E. injection E as <- _. reflexivity. }
    destruct (F S) as (msg & Er & M & _).
    exists r, s'. split; [exact E |]. split; [exact S |].
    split; [vm_compute; reflexivity |].
    rewrite Er, M. reflexivity.
Defined.

(** Launching takes 5000 ms and creating the page 200 ms: acquisition
    starts at 0 and release ends at 35360, but the duration is 30160. *)
Lemma C5_counterexample :
  exists r s',
    runTestFlow (options fiveSteps true) start = (inr r, s') /\
    acquisition_started (trace s') = Some 0 /\
    release_ended (trace s') = Some 35360 /\
    run_duration r = 30160 /\
    run_duration r <> 35360 - 0.
Proof.
  do 2 eexists. split; [vm_compute; reflexivity |].
  split; [vm_compute; reflexivity |].
  split; [vm_compute; reflexivity |].
  split; [vm_compute; reflexivity |].
  vm_compute. discriminate.
Qed.

(** The same run: acquisition ends at 5200, release at 35360. *)
Lemma C5_witness :
  exists r s' evs,
    runTestFlow (options fiveSteps true) start = (inr r, s') /\
    trace s' = trace start ++ evs /\
    acquisition_ended evs = Some 5200 /\
    release_ended evs = Some 35360 /\
    run_duration r = 35360 - 5200.
Proof.
  do 2 eexists.
  assert (Run : runTestFlow (options fiveSteps true) start
                = (inr _, snd (runTestFlow (options fiveSteps true) start)))
    by (vm_compute; reflexivity).
  destruct (C5_duration_window (options fiveSteps true) start _ _ Run)
    as (evs & ta & tr & T & A & R & D).
  exists evs. split; [exact Run |]. split; [exact T |].
  change (trace start ++ evs) with evs in T. rewrite <- T.
  split; [vm_compute; reflexivity |]. split; vm_compute; reflexivity.
Defined.

(** The database is locked: the run had finished its steps, yet the caller
    gets the database error, no result, and no summary is rendered. *)
Lemma C6_counterexample :
  exists s' record,
    runTestFlow (options dbDown false) start
      = (inl (Js.ErrorObj "SqliteError" "database is locked"), s') /\
    last (map ev_call (trace s')) (FsExistsSync EmptyString) = RecordTestRun record /\
    (rec_passed record = 1%nat /\ rec_failed record = 0%nat /\ rec_total record = 1%nat) /\
    existsb is_summary_call (map ev_call (trace s')) = false.
Proof.
  do 2 eexists. split; [vm_compute; reflexivity |].
  split; [vm_compute; reflexivity |].
  split; [vm_compute; repeat split | vm_compute; reflexivity].
Qed.

(** A flow file that holds [{}]: the browser is launched, the loop's test
    throws, page and browser are closed, and the [TypeError] escapes. *)
Lemma stepless_flow_escapes :
  exists s' evs,
    runTestFlow (mkOptions (Some "/flows/empty.json") None None None None None None) start
    = (inl (Js.TypeError_reading Js.Undefined "length"), s') /\
    trace s' = trace start ++ evs /\
    Js.String_ (Js.TypeError_reading Js.Undefined "length")
    = "TypeError: Cannot read properties of undefined (reading 'length')" /\
    existsb (fun ev => match ev_call ev with PuppeteerLaunch _ _ _ => true | _ => false end)
      evs = true /\
    Forall (fun ev => ev_threw ev = None) evs.
Proof.
  do 2 eexists. have_demo Run. whole_trace T.
  split; [vm_compute; reflexivity |]. split; [vm_compute; reflexivity |].
  vm_compute. repeat constructor.
Qed.

(** A flow file that holds [null]: without an override the run throws on
    [flow.baseUrl] right after loading; with an override and a header to
    print, on [flow.name]; with an override and JSON output, on [flow.steps],
    after the browser was launched. *)
Lemma null_flow_escapes :
  (exists s',
     runTestFlow (mkOptions (Some "/flows/null.json") None None None None None None)
       start = (inl (Js.TypeError_reading Js.Null "baseUrl"), s') /\
     Forall (fun ev => is_load_call (ev_call ev) = true) (trace s')) /\
  (exists s',
     runTestFlow (mkOptions (Some "/flows/null.json") None (Some "http://localhost:3000")
                    None None None None)
       start = (inl (Js.TypeError_reading Js.Null "name"), s') /\
     existsb (fun ev => is_acquire_call (ev_call ev)) (trace s') = false) /\
  (exists s',
     runTestFlow (mkOptions (Some "/flows/null.json") None (Some "http://localhost:3000")
                    None None None (Some true))
       start = (inl (Js.TypeError_reading Js.Null "steps"), s') /\
     existsb (fun ev => is_release_call (ev_call ev)) (trace s') = true).
Proof.
  split; [| split]; eexists; (split; [vm_compute; reflexivity |]).
  - vm_compute. repeat constructor.
  - vm_compute. reflexivity.
  - vm_compute. reflexivity.
Qed.

Lemma C6_witness :
  exists r s' evs ev e,
    runTestFlow (options dbDown false) start = (r, s') /\
    trace s' = trace start ++ evs /\
    In ev evs /\ is_record_call (ev_call ev) = true /\ ev_threw ev = Some e /\
    r = inl e /\
    Forall (fun ev' => is_summary_call (ev_call ev') = false) evs.
Proof.
  exists (fst (runTestFlow (options dbDown false) start)),
         (snd (runTestFlow (options dbDown false) start)),
         (trace (snd (runTestFlow (options dbDown false) start))),
         (last (trace (snd (runTestFlow (options dbDown false) start)))
               (mkEvent (FsExistsSync EmptyString) 0 0 None)),
         (Js.ErrorObj "SqliteError" "database is locked").
  assert (Run : runTestFlow (options dbDown false) start
                = (fst (runTestFlow (options dbDown false) start),
                   snd (runTestFlow (options dbDown false) start)))
    by apply surjective_pairing.
  assert (In_ev : In (last (trace (snd (runTestFlow (options dbDown false) start)))
                        (mkEvent (FsExistsSync EmptyString) 0 0 None))
                     (trace (snd (runTestFlow (options dbDown false) start)))).
  { vm_compute. repeat (first [left; reflexivity | right]). }
  assert (Rec : is_record_call
                  (ev_call (last (trace (snd (runTestFlow (options dbDown false) start)))
                                 (mkEvent (FsExistsSync EmptyString) 0 0 None))) = true)
    by (vm_compute; reflexivity).
  assert (Th : ev_threw (last (trace (snd (runTestFlow (options dbDown false) start)))
                              (mkEvent (FsExistsSync EmptyString) 0 0 None))
               = Some (Js.ErrorObj "SqliteError" "database is locked"))
    by (vm_compute; reflexivity).
  assert (T : trace (snd (runTestFlow (options dbDown false) start))
              = trace start ++ trace (snd (runTestFlow (options dbDown false) start)))
    by (symmetry; exact (app_nil_l _)).
  split; [exact Run |]. split; [exact T |]. split; [exact In_ev |].
  split; [exact Rec |]. split; [exact Th |].
  exact (proj1 (C6_persistence_failure_escapes (options dbDown false) start _ _ _
                  Run T) _ _ In_ev Rec Th).
Defined.

(** A timeout of 0 is specified, and the navigation gets 30000. *)
Lemma C7_counterexample :
  timeout (gotoStep 0) = Some 0 /\
  first_call start (snd (executeStep 1%nat (gotoStep 0) EmptyString "./screenshots" start))
  = Some (PageGoto 1%nat "/x" 30000).
Proof. split; [reflexivity | vm_compute; reflexivity]. Qed.

(** A timeout of 5000 is specified, and the navigation gets it. *)
Lemma C7_witness :
  first_call start (snd (executeStep 1%nat (gotoStep 5000) EmptyString "./screenshots" start))
  = Some (PageGoto 1%nat "/x" 5000).
Proof.
  exact (C7_effective_timeout 1%nat (gotoStep 5000) EmptyString "./screenshots" start).
Defined.

(** Five steps, the second fails, the run goes on: five outcomes. *)
Lemma C8_witness :
  exists r s',
    runTestFlow (options fiveSteps false) start = (inr r, s') /\
    total r = 5%nat /\ List.length (steps r) = 5%nat /\
    map step (steps r) = flow_steps fiveSteps.
Proof.
  do 2 eexists. run_demo. split; [exact Run |].
  exact (C8_continue_on_failure (options fiveSteps false) start fiveSteps start _ _
           eq_refl eq_refl Run).
Defined.

(** An empty override does not hide the flow's own base URL. *)
Lemma C9_counterexample :
  exists r s',
    runTestFlow (mkOptions None (Some loginFlow) (Some EmptyString) None None None None)
      start = (inr r, s') /\
    baseUrl r = "https://ex.com" /\ baseUrl r <> EmptyString.
Proof.
  do 2 eexists. split; [vm_compute; reflexivity |].
  split; [vm_compute; reflexivity | vm_compute; discriminate].
Qed.

(** An override: the result carries it and the first step navigates
    under it. *)
Lemma C9_witness :
  exists r s' evs,
    runTestFlow (mkOptions None (Some loginFlow) (Some "http://localhost:3000")
                   None None None None)
      start = (inr r, s') /\
    trace s' = trace start ++ evs /\
    In (PageGoto 1%nat "http://localhost:3000/login" 30000) (map ev_call evs) /\
    baseUrl r = "http://localhost:3000" /\
    Forall
      (fun ev =>
         match ev_call ev with
         | PageGoto _ url _ =>
             exists st target,
               In st (flow_steps loginFlow) /\ goto st = Some target /\
               url = if Js.startsWith target "http" then target
                     else ("http://localhost:3000" ++ target)%string
         | PrintTestHeader _ b => b = "http://localhost:3000"
         | RecordTestRun record => rec_base_url record = "http://localhost:3000"
         | ReportSummary r' | ConsoleLogJsonReport r' =>
             baseUrl r' = "http://localhost:3000"
         | _ => True
         end)
      evs.
Proof.
  do 3 eexists. have_demo Run. whole_trace T.
  split; [vm_compute; repeat (first [left; reflexivity | right]) |].
  destruct (C9_baseUrl_precedence
              (mkOptions None (Some loginFlow) (Some "http://localhost:3000")
                 None None None None)
              start loginFlow start _ _ _ eq_refl Run T) as (W1 & W2).
  split; [exact (W1 _ eq_refl) | exact W2].
Defined.

(** After a run, browser 7 is closed and still cached; the next launch
    returns it. *)
Lemma C10_witness :
  exists r s' browser evs closed,
    runTestFlow (options loginFlow false) start = (inr r, s') /\
    trace s' = trace start ++ evs /\
    In closed evs /\
    ev_call closed = BrowserClose browser /\ ev_threw closed = None /\
    browserInstance s' = Some browser /\
    forall o, launchBrowser o s' = (inr browser, s').
Proof.
  do 2 eexists.
  assert (Run : runTestFlow (options loginFlow false) start
                = (inr _, snd (runTestFlow (options loginFlow false) start)))
    by (vm_compute; reflexivity).
  destruct (C10_closed_browser_stays_cached (options loginFlow false) start _ _ Run)
    as (browser & evs & closed & T & I & C & Ok & B & L).
  exists browser, evs, closed.
  split; [exact Run |]. split; [exact T |]. split; [exact I |].
  split; [exact C |]. split; [exact Ok |]. split; [exact B | exact L].
Defined.

(** ** Further examples *)

(** A wait that times out: the outcome has failed and carries the error. *)
Lemma executeStep_error_iff_failed_witness :
  exists r s',
    executeStep 1%nat (waitForStep "#missing") EmptyString "./screenshots" start
    = (inr r, s') /\
    (success r = true <-> error r = None).
Proof.
  do 2 eexists. run_demo. split; [exact Run |].
  exact (executeStep_error_iff_failed _ _ _ _ _ _ _ Run).
Defined.

(** A screenshot step: the path is built from the label and the start time. *)
Lemma executeStep_screenshotPath_witness :
  exists r s',
    executeStep 1%nat (screenshotStep "home") EmptyString "./shots" start = (inr r, s') /\
    screenshotPath r = Some "./shots/home-2026-02-02T10-00-00-000Z.png" /\
    (forall p, screenshotPath r = Some p ->
       exists label,
         selected (screenshotStep "home") = Screenshot label /\ success r = true /\
         p = ("./shots" ++ "/" ++ label ++ "-"
                ++ Js.replace_colon_dot (isoString (world start)) ++ ".png")%string) /\
    (forall label, selected (screenshotStep "home") = Screenshot label ->
       success r = true -> screenshotPath r <> None).
Proof.
  do 2 eexists. run_demo. split; [exact Run |].
  split; [vm_compute; reflexivity |].
  exact (executeStep_screenshotPath _ _ _ _ _ _ _ Run).
Defined.

(** Typing into a field: three page-level calls and nothing else. *)
Lemma executeStep_calls_confined_witness :
  exists r s' evs,
    executeStep 1%nat (typeStep "#email" "ab") EmptyString "./screenshots" warm = (r, s') /\
    trace s' = trace warm ++ evs /\
    Forall (fun ev => is_step_call (ev_call ev) = true) evs /\
    browserInstance s' = browserInstance warm.
Proof.
  do 2 eexists.
  exists (trace (snd (executeStep 1%nat (typeStep "#email" "ab") EmptyString
                        "./screenshots" warm))).
  assert (Run : executeStep 1%nat (typeStep "#email" "ab") EmptyString "./screenshots" warm
                = (fst (executeStep 1%nat (typeStep "#email" "ab") EmptyString
                          "./screenshots" warm),
                   snd (executeStep 1%nat (typeStep "#email" "ab") EmptyString
                          "./screenshots" warm)))
    by (vm_compute; reflexivity).
  assert (T : trace (snd (executeStep 1%nat (typeStep "#email" "ab") EmptyString
                            "./screenshots" warm))
              = trace warm
                ++ trace (snd (executeStep 1%nat (typeStep "#email" "ab") EmptyString
                                 "./screenshots" warm)))
    by (symmetry; exact (app_nil_l _)).
  split; [exact Run |]. split; [exact T |].
  exact (executeStep_calls_confined _ _ _ _ _ _ _ _ Run T).
Defined.

(** Typing into a field the page never shows: the wait throws and is the
    only call of the step. *)
Lemma executeStep_stops_at_first_throw_witness :
  exists r s' ev post,
    executeStep 1%nat (typeStep "#missing" "ab") EmptyString "./screenshots" start
    = (r, s') /\
    trace s' = trace start ++ [] ++ ev :: post /\
    ev_threw ev <> None /\
    post = [].
Proof.
  do 4 eexists. have_demo Run.
  match goal with
  | |- trace ?S = _ /\ _ =>
      assert (T : trace S
                  = trace start ++ []
                    ++ nth 0 (trace S) (mkEvent (FsExistsSync EmptyString) 0 0 None)
                       :: skipn 1 (trace S))
        by (vm_compute; reflexivity);
      split; [exact T |]
  end.
  match goal with
  | |- ?A /\ _ => assert (Th : A) by (vm_compute; discriminate); split; [exact Th |]
  end.
  exact (executeStep_stops_at_first_throw _ _ _ _ _ _ _ _ _ _ Run T Th).
Defined.

(** Typing a, an emoji of four bytes and b: a wait, a click, then three
    calls, the second with the whole emoji. *)
Lemma humanType_types_in_order_witness :
  exists s' evs,
    humanType 1%nat "#email" a_emoji_b start = (inr tt, s') /\
    trace s' = trace start ++ evs /\
    String.length a_emoji_b = 6%nat /\
    String_iterator a_emoji_b = ["a"; emoji; "b"] /\
    map ev_call evs =
    PageWaitForSelector 1%nat "#email" false None :: PageClick 1%nat "#email"
      :: map (PageType 1%nat "#email") (String_iterator a_emoji_b) /\
    Forall (fun ev => ev_threw ev = None) evs.
Proof.
  do 2 eexists. have_demo Run. whole_trace T.
  split; [reflexivity |]. split; [reflexivity |].
  exact (humanType_types_in_order _ _ _ _ _ _ Run T).
Defined.

(** Five steps, stopped at the second: one passed, one failed. *)
Lemma runTestFlow_counters_witness :
  exists r s',
    runTestFlow (options fiveSteps true) start = (inr r, s') /\
    passed r = List.length (filter success (steps r)) /\
    failed r = List.length (filter (fun o => negb (success o)) (steps r)) /\
    (passed r + failed r = List.length (steps r))%nat /\
    (failed r = 0%nat <-> Forall (fun o => success o = true) (steps r)).
Proof.
  do 2 eexists. have_demo Run.
  exact (runTestFlow_counters _ _ _ _ Run).
Defined.

(** The loop over five steps, stopped at the second, is the loop over the
    first two. *)
Lemma run_steps_ignores_rest_witness :
  exists t s',
    run_steps 1%nat EmptyString "./screenshots" true false (flow_steps fiveSteps)
      0%nat (mkTally [] 0%nat 0%nat) start = (inr t, s') /\
    List.length (stepResults t) = 2%nat /\
    run_steps 1%nat EmptyString "./screenshots" true false
      (firstn (List.length (stepResults t)
               - List.length (stepResults (mkTally [] 0%nat 0%nat)))
         (flow_steps fiveSteps))
      0%nat (mkTally [] 0%nat 0%nat) start = (inr t, s').
Proof.
  do 2 eexists. have_demo Run. split; [vm_compute; reflexivity |].
  exact (run_steps_ignores_rest _ _ _ _ _ _ _ _ _ _ _ Run).
Defined.

Lemma steady_monotone : @clock_monotone steady.
Proof.
  intros c w. unfold perform, clock. simpl. apply Z.le_max_l.
Qed.

(** On the steady clock: the steps of the stopped run take 10 and 30000 ms,
    the run 30160 ms. *)
Lemma runTestFlow_duration_accounting_witness :
  @clock_monotone steady /\
  exists r s',
    @runTestFlow steady (options fiveSteps true) steady_start = (inr r, s') /\
    Forall (fun o => 0 <= duration o) (steps r) /\
    total_ms (map duration (steps r)) <= run_duration r.
Proof.
  split; [exact steady_monotone |].
  do 2 eexists. have_demo Run.
  exact (@runTestFlow_duration_accounting steady steady_monotone _ _ _ _ Run).
Defined.

(** A flow file that does not exist. *)
Lemma runTestFlow_load_failure_first_witness :
  exists e s0,
    load_flow (mkOptions (Some "/flows/missing.json") None None None None None None) start
    = (inl e, s0) /\
    runTestFlow (mkOptions (Some "/flows/missing.json") None None None None None None) start
    = (inl e, s0) /\
    browserInstance s0 = browserInstance start /\
    exists evs, trace s0 = trace start ++ evs /\
                Forall (fun ev => is_load_call (ev_call ev) = true) evs.
Proof.
  do 2 eexists. have_demo Run.
  exact (runTestFlow_load_failure_first _ _ _ _ Run).
Defined.

Lemma runTestFlow_missing_file_witness :
  opt_flow (mkOptions (Some "/flows/missing.json") None None None None None None) = None /\
  perform (FsExistsSync "/flows/missing.json") (world start) = (inr false, 0) /\
  exists s1 ev,
    runTestFlow (mkOptions (Some "/flows/missing.json") None None None None None None) start
    = (inl (Js.Error "Test flow file not found: /flows/missing.json"), s1) /\
    trace s1 = trace start ++ [ev] /\ ev_call ev = FsExistsSync "/flows/missing.json".
Proof.
  split; [reflexivity |]. split; [reflexivity |].
  apply (runTestFlow_missing_file
           (mkOptions (Some "/flows/missing.json") None None None None None None)
           start "/flows/missing.json" 0).
  - reflexivity.
  - reflexivity.
  - discriminate.
  - reflexivity.
Defined.

(** The directory [./new-shots] is not there: it is created, by the second
    call of the run and by no other. *)
Lemma run_flow_mkdir_at_most_once_witness :
  exists r s' evs,
    run_loaded (mkOptions None None None (Some "./new-shots") None None None)
      (ParsedFlow loginFlow) start = (r, s') /\
    trace s' = trace start ++ evs /\
    map ev_call (filter (fun ev => is_mkdir_call (ev_call ev)) evs)
    = [FsMkdirSync "./new-shots"] /\
    (List.length (filter (fun ev => is_mkdir_call (ev_call ev)) evs) <= 1)%nat /\
    Forall (fun ev => is_mkdir_call (ev_call ev) = true ->
                      ev_call ev = FsMkdirSync "./new-shots") evs /\
    (forall w1, perform (FsExistsSync "./new-shots") (world start) = (inr true, w1) ->
                filter (fun ev => is_mkdir_call (ev_call ev)) evs = []).
Proof.
  do 3 eexists. have_demo Run. whole_trace T.
  split; [vm_compute; reflexivity |].
  exact (run_flow_mkdir_at_most_once _ _ _ _ _ _ Run T).
Defined.

(** The login flow: the page is ready after six calls, and closed at the
    end. *)
Lemma run_flow_always_closes_page_witness :
  exists r s' pre ready post page,
    run_loaded (options loginFlow false) (ParsedFlow loginFlow) start = (r, s') /\
    trace s' = trace start ++ pre ++ ready :: post /\
    ev_call ready = PageEvaluateOnNewDocument page /\ ev_threw ready = None /\
    exists loop closing rest,
      post = loop ++ closing :: rest /\
      Forall (fun ev => is_loop_call (ev_call ev) = true) loop /\
      ev_call closing = PageClose page /\
      match ev_threw closing with
      | Some e => rest = [] /\ r = inl e
      | None =>
          exists closing2 rest' browser,
            rest = closing2 :: rest' /\ ev_call closing2 = BrowserClose browser
      end.
Proof.
  do 6 eexists. have_demo Run. cut_trace T 5%nat.
  have_demo C. have_demo Th.
  exact (run_flow_always_closes_page _ _ _ _ _ _ _ _ _ Run T C Th).
Defined.

(** Launched headless, asked again with a window: browser 7 both times,
    also after a run. *)
Lemma launchBrowser_reuses_first_witness :
  exists browser s1,
    launchBrowser (mkBrowserOptions (Some true) None None) start = (inr browser, s1) /\
    (forall s2, browserInstance s2 = browserInstance s1 ->
       forall later, launchBrowser later s2 = (inr browser, s2)) /\
    (forall o r s2, runTestFlow o s1 = (r, s2) ->
       browserInstance s2 = browserInstance s1).
Proof.
  do 2 eexists. have_demo Run.
  exact (launchBrowser_reuses_first _ _ _ _ Run).
Defined.

(** Closing the cached browser 7, then launching with a window. *)
Lemma closeBrowser_then_launchBrowser_witness :
  exists s1,
    closeBrowser warm = (inr tt, s1) /\
    browserInstance s1 = None /\
    first_call s1 (snd (launchBrowser (mkBrowserOptions (Some false) None None) s1))
    = Some (PuppeteerLaunch false 0 None).
Proof.
  eexists. have_demo Run.
  exact (closeBrowser_then_launchBrowser warm (inr tt) _
           (mkBrowserOptions (Some false) None None) Run).
Defined.

(** Browser 7 is cached and not connected: [getBrowser] returns it. *)
Lemma getBrowser_keeps_cached_witness :
  connected (world warm) 7%nat = false /\
  browserInstance warm = Some 7%nat /\
  getBrowser warm = (inr 7%nat, warm).
Proof.
  split; [reflexivity |]. split; [reflexivity |].
  apply (getBrowser_keeps_cached warm 7%nat). reflexivity.
Defined.

(** A click on an element that is not there. *)
Lemma safeClick_never_throws_witness :
  exists b s', safeClick 1%nat "#missing" start = (inr b, s').
Proof.
  exact (proj1 (safeClick_never_throws 1%nat "#missing" start)).
Defined.

(** A click after its wait and a pause. *)
Lemma waitAndClick_waits_first_witness :
  exists r s' evs ev,
    waitAndClick 1%nat "#go" None start = (r, s') /\
    trace s' = trace start ++ evs /\
    In ev evs /\ ev_call ev = PageClick 1%nat "#go" /\
    exists waited rest,
      evs = waited :: rest /\
      ev_call waited = PageWaitForSelector 1%nat "#go" false (Some 10000) /\
      ev_threw waited = None.
Proof.
  do 2 eexists.
  exists (trace (snd (waitAndClick 1%nat "#go" None start))),
         (last (trace (snd (waitAndClick 1%nat "#go" None start)))
               (mkEvent (FsExistsSync EmptyString) 0 0 None)).
  assert (Run : waitAndClick 1%nat "#go" None start
                = (fst (waitAndClick 1%nat "#go" None start),
                   snd (waitAndClick 1%nat "#go" None start)))
    by apply surjective_pairing.
  assert (T : trace (snd (waitAndClick 1%nat "#go" None start))
              = trace start ++ trace (snd (waitAndClick 1%nat "#go" None start)))
    by (symmetry; exact (app_nil_l _)).
  assert (In_ev : In (last (trace (snd (waitAndClick 1%nat "#go" None start)))
                        (mkEvent (FsExistsSync EmptyString) 0 0 None))
                     (trace (snd (waitAndClick 1%nat "#go" None start)))).
  { vm_compute. repeat (first [left; reflexivity | right]). }
  assert (Cl : ev_call (last (trace (snd (waitAndClick 1%nat "#go" None start)))
                             (mkEvent (FsExistsSync EmptyString) 0 0 None))
               = PageClick 1%nat "#go")
    by (vm_compute; reflexivity).
  split; [exact Run |]. split; [exact T |]. split; [exact In_ev |]. split; [exact Cl |].
  exact (waitAndClick_waits_first _ _ _ _ _ _ _ _ Run T In_ev Cl).
Defined.

(** A [type] step with its text. *)
Lemma getActionName_names_selected_witness :
  getActionName (typeStep "#email" "ab") = "type #email".
Proof.
  apply (proj1 (getActionName_names_selected (typeStep "#email" "ab"))).
  - intros _. discriminate.
  - intros H. exfalso. apply H. reflexivity.
  - intros H. exfalso. apply H. reflexivity.
Defined.

(** The report of the stopped run: two entries, not a success. *)
Lemma createJsonReport_of_run_witness :
  exists r s1 rep s3,
    runTestFlow (options fiveSteps true) start = (inr r, s1) /\
    createJsonReport r s1 = (inr rep, s3) /\
    map sr_index (rep_steps rep) = seq 1 (List.length (steps r)) /\
    map sr_success (rep_steps rep) = map success (steps r) /\
    map sr_error (rep_steps rep) = map error (steps r) /\
    map sr_screenshot (rep_steps rep) = map screenshotPath (steps r) /\
    (sum_success (rep_summary rep) = true <->
     Forall (fun entry => sr_success entry = true) (rep_steps rep)) /\
    s3 = s1.
Proof.
  do 4 eexists. have_demo Run. have_demo Rep.
  exact (createJsonReport_of_run _ _ _ _ _ _ _ Run Rep).
Defined.

(** A page that loads. *)
Lemma runSmokeTest_true_only_if_loaded_witness :
  exists s',
    runSmokeTest "https://ex.com" (mkSmokeOptions None None) start = (inr true, s') /\
    exists page w0 w1 title w2 content w3,
      perform (PageGoto page "https://ex.com" 30000) w0 = (inr tt, w1) /\
      perform_extra (PageTitle page) w1 = (inr title, w2) /\
      perform_extra (PageContent page) w2 = (inr content, w3) /\
      Js.includes content "502 Bad Gateway" = false /\
      Js.includes content "503 Service Unavailable" = false /\
      Js.includes content "500 Internal Server Error" = false /\
      Js.includes content "404 Not Found" = false /\
      (title <> EmptyString \/ (100 <= String.length content)%nat).
Proof.
  eexists. have_demo Run.
  exact (runSmokeTest_true_only_if_loaded _ (mkSmokeOptions None None) _ _ Run).
Defined.

Lemma runSmokeTest_records_one_test_witness :
  exists b s' evs,
    runSmokeTest "https://ex.com" (mkSmokeOptions None None) start = (inr b, s') /\
    trace s' = trace start ++ evs /\
    (exists before recorded record,
       evs = before ++ [recorded] /\
       Forall (fun ev => is_record_call (ev_call ev) = false) before /\
       ev_call recorded = RecordTestRun record /\ ev_threw recorded = None /\
       rec_flow_name record = "Smoke Test" /\ rec_base_url record = "https://ex.com" /\
       rec_total record = 1%nat /\
       (rec_passed record, rec_failed record)
       = (if b then (1%nat, 0%nat) else (0%nat, 1%nat))) /\
    (forall ev page target timeout,
       In ev evs -> ev_call ev = PageGoto page target timeout ->
       ev_threw ev <> None -> b = false).
Proof.
  do 3 eexists. have_demo Run. whole_trace T.
  exact (runSmokeTest_records_one_test _ _ _ _ _ _ Run T).
Defined.

(** Three paths, the second of which does not exist: two results. *)
Lemma runMultipleFlows_totals_witness :
  exists batch s',
    runMultipleFlows ["/flows/a.json"; "/flows/missing.json"; "/flows/b.json"]
      (batchOptions true) start = (inr batch, s') /\
    List.length (results batch) = 2%nat /\
    totalPassed batch = total_count (map passed (results batch)) /\
    totalFailed batch = total_count (map failed (results batch)) /\
    (List.length (results batch)
     <= List.length ["/flows/a.json"; "/flows/missing.json"; "/flows/b.json"])%nat /\
    (default false (bopt_stopOnFailure (batchOptions true)) = true ->
     Forall (fun r => failed r = 0%nat) (removelast (results batch))).
Proof.
  do 2 eexists. have_demo Run. split; [vm_compute; reflexivity |].
  exact (runMultipleFlows_totals _ _ _ _ _ Run).
Defined.

Lemma demo_console_answers : console_answers.
Proof.
  split; [intros message err w | intros line w]; exists w; reflexivity.
Qed.

(** A path to a file that does not exist: the error is printed and the
    batch goes on, empty. *)
Lemma runMultipleFlows_always_returns_witness :
  console_answers /\
  (exists batch s',
     runMultipleFlows ["/flows/missing.json"] (batchOptions false) start
     = (inr batch, s')) /\
  exists err s1,
    runTestFlow (mkOptions (Some "/flows/missing.json") None None None None (Some false)
                   None) start = (inl err, s1) /\
    run_flows (batchOptions false) ["/flows/missing.json"] (mkBatch [] 0%nat 0%nat) start
    = run_flows (batchOptions false) [] (mkBatch [] 0%nat 0%nat)
        (mkState (browserInstance s1) 0 (trace s1)).
Proof.
  split; [exact demo_console_answers |].
  split.
  - exact (proj2 (runMultipleFlows_always_returns ["/flows/missing.json"]
                    (batchOptions false) start) demo_console_answers).
  - do 2 eexists. have_demo Run.
    exact (proj1 (runMultipleFlows_always_returns [] (batchOptions false) start)
             "/flows/missing.json" [] (mkBatch [] 0%nat 0%nat) _ _ 0 Run eq_refl).
Defined.


End Examples.
